(** * HowManyDucks: the grid engine of [hmf_game.py]

    A shallow embedding of [GameEngine] (generation, placement, filling and
    scanning of the word-search grid) together with the properties the
    specification states about it.

    Python integers are [Z]; a grid is a list of rows whose cells are
    [None] or a [str]; the module-global stream of [random] is an explicit
    state threaded through every function that draws from it; a raised
    exception is a value of [exn]. *)

From Stdlib Require Import ZArith Ascii String List Lia Permutation.
From stdpp Require Import base tactics option list strings sorting.

Local Open Scope string_scope.
Local Open Scope list_scope.
Local Open Scope Z_scope.

(** ** The Python runtime the engine runs on *)

(** [random] and [hashlib] are library modules: the engine is verified for
    every generator that keeps [_randbelow(n)] inside [0, n). *)
Class PyRuntime := {
  (** state of the hidden generator behind the module functions of [random] *)
  rng : Type;
  (** [random.seed(n)] for an integer [n] *)
  seed_rng : Z -> rng;
  (** [Random._randbelow(n)] for [n > 0] *)
  randbelow : Z -> rng -> Z * rng;
  randbelow_range : forall n s, 0 < n -> 0 <= fst (randbelow n s) < n;
  (** [int(hashlib.md5(s.encode()).hexdigest()[:8], 16)] *)
  md5_hex8 : string -> Z
}.

Inductive exn : Type :=
| ValueError (msg : string)
| RuntimeError (msg : string)
| IndexError
| KeyError
| TypeError.

Inductive result (A : Type) : Type :=
| Ok (a : A)
| Raise (e : exn).
Arguments Ok {A} a.
Arguments Raise {A} e.

Definition rbind {A B} (m : result A) (k : A -> result B) : result B :=
  match m with
  | Ok a => k a
  | Raise e => Raise e
  end.

Declare Scope py_scope.
Delimit Scope py_scope with py.
Notation "'try!' x := m 'in' k" := (rbind m (fun x => k))
  (at level 10, x pattern, m at level 100, k at level 200) : py_scope.
Local Open Scope py_scope.

(** ** Lists indexed the way Python indexes them *)

Definition range (n : Z) : list Z := map Z.of_nat (seq 0 (Z.to_nat n)).

Definition enumerate {A} (l : list A) : list (Z * A) :=
  combine (range (Z.of_nat (length l))) l.

(** [l[i]]: a negative index counts from the end, anything else out of
    range is an [IndexError] (here [None]). *)
Definition py_index {A} (l : list A) (i : Z) : option A :=
  let n := Z.of_nat (length l) in
  if 0 <=? i then l !! Z.to_nat i
  else if - n <=? i then l !! Z.to_nat (n + i)
  else None.

(** [l[i] = x] *)
Definition py_setitem {A} (l : list A) (i : Z) (x : A) : option (list A) :=
  let n := Z.of_nat (length l) in
  if 0 <=? i then
    if i <? n then Some (<[Z.to_nat i := x]> l) else None
  else if - n <=? i then Some (<[Z.to_nat (n + i) := x]> l)
  else None.

(** ** Data model *)

Abbreviation coord := (Z * Z)%type.

(** A cell under construction is [None]; a finished cell is a [str]. *)
Abbreviation cell := (option string).
Abbreviation Grid := (list (list cell)).

Record Match := mkMatch {
  start : coord;
  direction : string;
  cells : list coord
}.

Record ScanResult := mkScan {
  count : Z;
  scan_matches : list Match
}.

Record Metadata := mkMeta {
  meta_size : Z;
  meta_distribution_mode : string;
  meta_allow_overlap : bool;
  meta_directions_mode : string;
  meta_seed : option Z
}.

Record Puzzle := mkPuzzle {
  grid : Grid;
  true_count : Z;
  matches : list Match;
  metadata : Metadata
}.

(** [requested_count]: an [int], or a [(min, max)] tuple. *)
Inductive Requested : Type :=
| Exact (n : Z)
| Ranged (min_count max_count : Z).

(** The [seed] argument of the constructor: an [int] or a [str]. *)
Inductive Seed : Type :=
| SeedInt (n : Z)
| SeedStr (s : string).

(** The dict [DIRECTIONS], in insertion order. *)
Definition DIRECTIONS : list (string * (Z * Z)) :=
  [ ("N", (-1, 0)); ("NE", (-1, 1)); ("E", (0, 1)); ("SE", (1, 1));
    ("S", (1, 0)); ("SW", (1, -1)); ("W", (0, -1)); ("NW", (-1, -1)) ].

Definition TARGET_WORD : string := "FUCK".
Definition LETTERS : list string := ["F"; "U"; "C"; "K"].

(** Iterating over a [str] yields its one-character strings. *)
Fixpoint chars (s : string) : list string :=
  match s with
  | EmptyString => []
  | String a rest => String a EmptyString :: chars rest
  end.

(** [d[k]] on a dict kept as an association list. *)
Fixpoint dict_get {V} (d : list (string * V)) (k : string) : option V :=
  match d with
  | [] => None
  | (k', v) :: rest => if String.eqb k' k then Some v else dict_get rest k
  end.

Definition keys {V} (d : list (string * V)) : list string := map fst d.

Definition grid_get (g : Grid) (r c : Z) : option cell :=
  match py_index g r with
  | Some row => py_index row c
  | None => None
  end.

Definition grid_set (g : Grid) (r c : Z) (x : cell) : option Grid :=
  match py_index g r with
  | Some row =>
      match py_setitem row c x with
      | Some row' => py_setitem g r row'
      | None => None
      end
  | None => None
  end.

(** ** The scanner *)

(** [self.DIRECTIONS[k]] for a key the dict is known to have. *)
Definition DIRECTIONS_at (k : string) : Z * Z :=
  default (0, 0) (dict_get DIRECTIONS k).

Definition _get_allowed_directions (mode : string) : list (string * (Z * Z)) :=
  if String.eqb mode "horizontal" then
    [("E", DIRECTIONS_at "E"); ("W", DIRECTIONS_at "W")]
  else if String.eqb mode "horiz_vert" then
    filter (fun kv => bool_decide (kv.1 ∈ ["N"; "S"; "E"; "W"])) DIRECTIONS
  else DIRECTIONS.

Definition in_bounds (x size : Z) : bool := (0 <=? x) && (x <? size).

Fixpoint check_word_loop (g : Grid) (start_row start_col dr dc size : Z)
    (idx : list Z) (acc : list coord) (word : string)
  : result (option (list coord)) :=
  match idx with
  | [] => Ok (if String.eqb word TARGET_WORD then Some acc else None)
  | i :: rest =>
      let r := start_row + dr * i in
      let c := start_col + dc * i in
      if negb (in_bounds r size && in_bounds c size) then Ok None
      else
        match grid_get g r c with
        | None => Raise IndexError
        | Some None => Raise TypeError
        | Some (Some s) =>
            check_word_loop g start_row start_col dr dc size rest
              (acc ++ [(r, c)]) (String.append word s)
        end
  end.

Definition _check_word_at_position (g : Grid) (start_row start_col dr dc size : Z)
  : result (option (list coord)) :=
  check_word_loop g start_row start_col dr dc size
    (range (Z.of_nat (String.length TARGET_WORD))) [] "".

(** Tuples of integers compare lexicographically. *)
Definition coord_le (a b : coord) : Prop :=
  a.1 < b.1 \/ (a.1 = b.1 /\ a.2 <= b.2).

#[global] Instance coord_le_dec a b : Decision (coord_le a b).
Proof. unfold coord_le. apply _. Defined.

Definition sorted (l : list coord) : list coord := merge_sort coord_le l.

Definition _normalize_match (cs : list coord) : list coord := sorted cs.

Definition _is_duplicate_match (normalized_match : list coord) (ms : list Match) : bool :=
  existsb (fun m => bool_decide (_normalize_match (cells m) = normalized_match)) ms.

(** The body of the innermost loop of [scan_grid]. *)
Definition scan_step (g : Grid) (size row col : Z) (ms : list Match)
    (d : string * (Z * Z)) : result (list Match) :=
  let '(dir_name, (dr, dc)) := d in
  try! m := _check_word_at_position g row col dr dc size in
  match m with
  | Some cs =>
      let normalized := _normalize_match cs in
      if negb (_is_duplicate_match normalized ms)
      then Ok (ms ++ [mkMatch (row, col) dir_name cs])
      else Ok ms
  | None => Ok ms
  end.

(** [for x in l: s = body(s, x)], stopping at the first exception. *)
Fixpoint for_each {A S} (l : list A) (body : S -> A -> result S) (s : S) : result S :=
  match l with
  | [] => Ok s
  | x :: rest => try! s' := body s x in for_each rest body s'
  end.

Definition scan_grid (g : Grid) (directions_mode : string) : result ScanResult :=
  let size := Z.of_nat (length g) in
  let allowed_dirs := _get_allowed_directions directions_mode in
  try! ms :=
    for_each (range size) (fun ms row =>
      for_each (range size) (fun ms col =>
        for_each allowed_dirs (scan_step g size row col) ms) ms) [] in
  Ok (mkScan (Z.of_nat (length ms)) ms).

(** ** The generator *)

Section Generator.
Context `{RT : PyRuntime}.

(** A computation that draws from the global stream and may raise; the
    stream keeps the draws made before an exception. *)
Definition M (A : Type) : Type := rng -> result A * rng.

Definition ret {A} (a : A) : M A := fun s => (Ok a, s).
Definition raise {A} (e : exn) : M A := fun s => (Raise e, s).
Definition lift {A} (r : result A) : M A := fun s => (r, s).
Definition bind {A B} (m : M A) (k : A -> M B) : M B :=
  fun s =>
    match m s with
    | (Ok a, s') => k a s'
    | (Raise e, s') => (Raise e, s')
    end.

Notation "'do!' x := m 'in' k" := (bind m (fun x => k))
  (at level 10, x pattern, m at level 100, k at level 200) : py_scope.

(** [random.randint(a, b)], that is [randrange(a, b + 1)]. *)
Definition randint (a b : Z) : M Z :=
  fun s =>
    let width := b + 1 - a in
    if 0 <? width then
      let '(k, s') := randbelow width s in (Ok (a + k), s')
    else (Raise (ValueError "empty range for randrange()"), s).

(** [random.choice(seq)] *)
Definition choice {A} (seq : list A) : M A :=
  fun s =>
    match seq with
    | [] => (Raise IndexError, s)
    | _ =>
        let '(k, s') := randbelow (Z.of_nat (length seq)) s in
        (match py_index seq k with
         | Some x => Ok x
         | None => Raise IndexError
         end, s')
    end.

Fixpoint for_eachM {A S} (l : list A) (body : S -> A -> M S) (s : S) : M S :=
  match l with
  | [] => ret s
  | x :: rest => do! s' := body s x in for_eachM rest body s'
  end.

Record GameEngine := mkEngine { seed : option Z }.

(** The integer a given seed stands for: a string is hashed first. *)
Definition seed_int (sd : Seed) : Z :=
  match sd with
  | SeedStr str => md5_hex8 str
  | SeedInt n => n
  end.

(** [GameEngine.__init__]: a given seed re-seeds the module-global stream. *)
Definition __init__ (seed : option Seed) (s : rng) : GameEngine * rng :=
  match seed with
  | Some sd =>
      let n := seed_int sd in
      (mkEngine (Some n), seed_rng n)
  | None => (mkEngine None, s)
  end.

Definition _create_empty_grid (size : Z) : Grid :=
  replicate (Z.to_nat size) (replicate (Z.to_nat size) None).

(** First inner loop of [_place_word]: may the word go here? *)
Fixpoint can_place_loop (g : Grid) (row col dr dc : Z) (allow_overlap : bool)
    (letters : list (Z * string)) (acc : list coord) : result (bool * list coord) :=
  match letters with
  | [] => Ok (true, acc)
  | (i, letter) :: rest =>
      let r := row + dr * i in
      let c := col + dc * i in
      let acc' := acc ++ [(r, c)] in
      match grid_get g r c with
      | None => Raise IndexError
      | Some None => can_place_loop g row col dr dc allow_overlap rest acc'
      | Some (Some x) =>
          if negb allow_overlap || negb (String.eqb x letter)
          then Ok (false, acc')
          else can_place_loop g row col dr dc allow_overlap rest acc'
      end
  end.

(** Second inner loop of [_place_word]: write the letters. *)
Fixpoint write_word (g : Grid) (row col dr dc : Z) (letters : list (Z * string))
  : result Grid :=
  match letters with
  | [] => Ok g
  | (i, letter) :: rest =>
      match grid_set g (row + dr * i) (col + dc * i) (Some letter) with
      | Some g' => write_word g' row col dr dc rest
      | None => Raise IndexError
      end
  end.

(** The body of the loop of [_place_word]: [Some] when it places the word
    and returns [True], [None] when it goes on to the next iteration. *)
Definition place_try (g : Grid) (size : Z)
    (allowed_dirs : list (string * (Z * Z))) (allow_overlap : bool)
    (ms : list Match) : M (option (Grid * list Match)) :=
  do! row := randint 0 (size - 1) in
  do! col := randint 0 (size - 1) in
  do! dir_name := choice (keys allowed_dirs) in
  match dict_get allowed_dirs dir_name with
  | None => raise KeyError
  | Some (dr, dc) =>
      let end_row := row + dr * (Z.of_nat (String.length TARGET_WORD) - 1) in
      let end_col := col + dc * (Z.of_nat (String.length TARGET_WORD) - 1) in
      if negb (in_bounds end_row size && in_bounds end_col size)
      then ret None
      else
        do! (can_place, cs) :=
          lift (can_place_loop g row col dr dc allow_overlap
                  (enumerate (chars TARGET_WORD)) []) in
        if can_place : bool then
          do! g' := lift (write_word g row col dr dc
                            (enumerate (chars TARGET_WORD))) in
          ret (Some (g', ms ++ [mkMatch (row, col) dir_name cs]))
        else ret None
  end.

Fixpoint place_word_loop (n : nat) (g : Grid) (size : Z)
    (allowed_dirs : list (string * (Z * Z))) (allow_overlap : bool)
    (ms : list Match) : M (bool * (Grid * list Match)) :=
  match n with
  | O => ret (false, (g, ms))
  | S n' =>
      do! placed := place_try g size allowed_dirs allow_overlap ms in
      match placed with
      | Some (g', ms') => ret (true, (g', ms'))
      | None => place_word_loop n' g size allowed_dirs allow_overlap ms
      end
  end.

Definition max_attempts : nat := 1000.

Definition _place_word (g : Grid) (size : Z) (allowed_dirs : list (string * (Z * Z)))
    (allow_overlap : bool) (ms : list Match) : M (bool * (Grid * list Match)) :=
  place_word_loop max_attempts g size allowed_dirs allow_overlap ms.

Definition fill_weights (distribution_mode : string) : list string :=
  if String.eqb distribution_mode "weighted"
  then replicate 4 "F" ++ replicate 4 "K" ++ ["U"] ++ ["C"]
  else LETTERS.

Definition fill_cell (weights : list string) (row : Z) (g : Grid) (col : Z) : M Grid :=
  match grid_get g row col with
  | None => raise IndexError
  | Some (Some _) => ret g
  | Some None =>
      do! x := choice weights in
      match grid_set g row col (Some x) with
      | Some g' => ret g'
      | None => raise IndexError
      end
  end.

Definition _fill_grid (g : Grid) (size : Z) (distribution_mode : string) : M Grid :=
  let weights := fill_weights distribution_mode in
  for_eachM (range size) (fun g row =>
    for_eachM (range size) (fill_cell weights row) g) g.

(** [for _ in range(target_count): if not self._place_word(...): raise ValueError] *)
Fixpoint place_words (n : nat) (g : Grid) (size : Z)
    (allowed_dirs : list (string * (Z * Z))) (allow_overlap : bool)
    (ms : list Match) : M (Grid * list Match) :=
  match n with
  | O => ret (g, ms)
  | S n' =>
      do! (placed, (g', ms')) := _place_word g size allowed_dirs allow_overlap ms in
      if negb placed then raise (ValueError "Failed to place word")
      else place_words n' g' size allowed_dirs allow_overlap ms'
  end.

(** The body of the [try] of one attempt: [Some] puzzle when the attempt
    returns, [None] when it falls through to the next iteration. *)
Definition attempt (self : GameEngine) (size target_count : Z)
    (distribution_mode : string) (allow_overlap : bool) (directions_mode : string)
    (allowed_dirs : list (string * (Z * Z))) : M (option Puzzle) :=
  let g := _create_empty_grid size in
  do! (g, _) := place_words (Z.to_nat target_count) g size allowed_dirs
                   allow_overlap [] in
  do! g := _fill_grid g size distribution_mode in
  do! scan_result := lift (scan_grid g directions_mode) in
  if count scan_result =? target_count then
    ret (Some (mkPuzzle g target_count (scan_matches scan_result)
                 (mkMeta size distribution_mode allow_overlap directions_mode
                    (seed self))))
  else ret None.

Definition max_retries : nat := 25.

Definition capacity_message : string :=
  "Failed to generate valid grid after 25 attempts. " ++
  "Try smaller grid, allow overlap, reduce count, or use even distribution.".

(** [for attempt in range(n): try: body except ValueError: continue],
    followed by the [raise RuntimeError]. *)
Fixpoint retry_loop (n : nat) (body : M (option Puzzle)) : M Puzzle :=
  fun s =>
    match n with
    | O => (Raise (RuntimeError capacity_message), s)
    | S n' =>
        match body s with
        | (Ok (Some p), s') => (Ok p, s')
        | (Ok None, s') => retry_loop n' body s'
        | (Raise (ValueError _), s') => retry_loop n' body s'
        | (Raise e, s') => (Raise e, s')
        end
    end.

Definition generate_grid (self : GameEngine) (size : Z) (requested_count : Requested)
    (distribution_mode : string) (allow_overlap : bool) (directions_mode : string)
  : M Puzzle :=
  do! target_count :=
    match requested_count with
    | Ranged min_count max_count => randint min_count max_count
    | Exact n => ret n
    end in
  let allowed_dirs := _get_allowed_directions directions_mode in
  retry_loop max_retries
    (attempt self size target_count distribution_mode allow_overlap
       directions_mode allowed_dirs).

End Generator.

(** ** A small generator to run the engine on

    The seed is read as a numeral whose digits are the successive draws:
    a draw below [n] takes the last digit in base [n]. *)
#[local] Instance digits_runtime : PyRuntime.
Proof.
  refine {| rng := Z;
            seed_rng := fun n => Z.abs n;
            randbelow := fun n s => (s mod n, s / n);
            md5_hex8 := fun s => Z.of_nat (String.length s) |}.
  intros n s Hn. simpl. apply Z.mod_pos_bound. exact Hn.
Defined.

(** ** Predicates the statements use *)

(** An [n] by [n] grid. *)
Definition wf_grid (n : nat) (g : Grid) : Prop :=
  length g = n /\ Forall (fun row => length row = n) g.

(** A grid with no empty cell. *)
Definition full_grid (g : Grid) : Prop :=
  Forall (Forall (fun x : cell => is_Some x)) g.

(** The canonical key of a match. *)
Definition key (m : Match) : list coord := _normalize_match (cells m).

(** The four cells of a word laid from [(row, col)] along [(dr, dc)]. *)
Definition line (row col dr dc : Z) (letters : list (Z * string)) : list coord :=
  map (fun il => (row + dr * il.1, col + dc * il.1)) letters.
Arguments line : simpl never.

(** The grid whose four rows are each F, U, C, K. *)
Definition g4 : Grid := replicate 4 (map Some LETTERS).

(** The [count] entry of a scan, when the scan returns. *)
Definition scan_count (g : Grid) (mode : string) : option Z :=
  match scan_grid g mode with
  | Ok r => Some (count r)
  | Raise _ => None
  end.

(** The letters of the target word with their positions. *)
Definition word_letters : list (Z * string) := enumerate (chars TARGET_WORD).

(** Every letter present in [g] is still there in [g']. *)
Definition grid_mono (g g' : Grid) : Prop :=
  forall r c x, 0 <= r -> 0 <= c ->
    grid_get g r c = Some (Some x) -> grid_get g' r c = Some (Some x).

(** [m] records a word laid inside the grid along an allowed direction,
    and [g] holds its letters. *)
Definition placed_in (size : Z) (dirs : list (string * (Z * Z))) (g : Grid)
    (m : Match) : Prop :=
  exists row col dr dc,
    start m = (row, col) /\ (direction m, (dr, dc)) ∈ dirs /\
    0 <= row < size /\ 0 <= col < size /\
    cells m = line row col dr dc word_letters /\
    Forall (fun il : Z * string =>
              0 <= row + dr * il.1 < size /\ 0 <= col + dc * il.1 < size /\
              grid_get g (row + dr * il.1) (col + dc * il.1) = Some (Some il.2))
           word_letters.

(** What holds of the grid under construction and of the words placed in
    it so far; without overlap no cell belongs to two of them. *)
Definition placement_inv (allow : bool) (size : Z) (dirs : list (string * (Z * Z)))
    (g : Grid) (ms : list Match) : Prop :=
  wf_grid (Z.to_nat size) g /\ Forall (placed_in size dirs g) ms /\
  (allow = false -> NoDup (concat (map cells ms))).

(** A direction dict the placement can draw from: every key has its
    vector, a unit step that is not null. *)
Definition dirs_ok (dirs : list (string * (Z * Z))) : Prop :=
  dirs <> [] /\
  forall k, k ∈ keys dirs ->
    exists dr dc, dict_get dirs k = Some (dr, dc) /\ (k, (dr, dc)) ∈ dirs /\
                  -1 <= dr <= 1 /\ -1 <= dc <= 1 /\ (dr <> 0 \/ dc <> 0).

(** Every coordinate of a grid of the given size. *)
Definition all_coords (size : Z) : list coord :=
  list_prod (range size) (range size).

(** [needle in hay] *)
Definition mentions (needle hay : string) : bool :=
  match String.index 0 needle hay with
  | Some _ => true
  | None => false
  end.

Definition map_result {A B} (f : A -> B) (r : result A) : result B :=
  match r with
  | Ok a => Ok (f a)
  | Raise e => Raise e
  end.

(** What a caller sees of a puzzle apart from its metadata. *)
Definition puzzle_core (p : Puzzle) : Grid * Z * list Match :=
  (grid p, true_count p, matches p).

Section Runs.
Context `{RT : PyRuntime}.

(** One attempt of the retry loop failed: the scan count differed from the
    target ([None]), or a [ValueError] was raised (a word found no place). *)
Definition attempt_fails (body : M (option Puzzle)) (s s' : rng) : Prop :=
  body s = (Ok None, s') \/ exists msg, body s = (Raise (ValueError msg), s').

(** [n] attempts in a row failed, taking the stream from [s] to [s']. *)
Inductive attempts_fail (body : M (option Puzzle)) : nat -> rng -> rng -> Prop :=
| attempts_fail_O s : attempts_fail body 0 s s
| attempts_fail_S n s s1 s2 :
    attempt_fails body s s1 -> attempts_fail body n s1 s2 ->
    attempts_fail body (S n) s s2.

(** [GameEngine(sd).generate_grid(...)] in a process whose stream is in
    state [s0]. *)
Definition fresh_run (s0 : rng) (sd : Seed) (size : Z) (req : Requested)
    (dist : string) (allow : bool) (mode : string) : result Puzzle * rng :=
  let '(engine, s) := __init__ (Some sd) s0 in
  generate_grid engine size req dist allow mode s.

(** [e1 = GameEngine(sd1); e2 = GameEngine(sd2); e1.generate_grid(...)] *)
Definition interleaved_run (s0 : rng) (sd1 : Seed) (sd2 : option Seed) (size : Z)
    (req : Requested) (dist : string) (allow : bool) (mode : string)
  : result Puzzle * rng :=
  let '(engine1, s1) := __init__ (Some sd1) s0 in
  let '(engine2, s2) := __init__ sd2 s1 in
  generate_grid engine1 size req dist allow mode s2.

End Runs.

(** Instance isolation as the specification words it: whatever engine is
    constructed in between, the first engine generates what it would have
    generated alone. *)
Definition instances_isolated (RT : PyRuntime) : Prop :=
  forall s0 sd1 sd2 size req dist allow mode,
    (interleaved_run s0 sd1 sd2 size req dist allow mode).1 =
    (fresh_run s0 sd1 size req dist allow mode).1.

(** ** Sample runs on the digit generator *)

(** Seed 32 spells the draws 0, 0, 0 (row 0, column 0, East) and 1, 0, 0
    (row 1, column 0, East); every later draw is 0, the letter F. *)
Definition two_rows_puzzle : Puzzle :=
  mkPuzzle
    [ [Some "F"; Some "U"; Some "C"; Some "K"];
      [Some "F"; Some "U"; Some "C"; Some "K"];
      [Some "F"; Some "F"; Some "F"; Some "F"];
      [Some "F"; Some "F"; Some "F"; Some "F"] ]
    2
    [ mkMatch (0, 0) "E" [(0, 0); (0, 1); (0, 2); (0, 3)];
      mkMatch (1, 0) "E" [(1, 0); (1, 1); (1, 2); (1, 3)] ]
    (mkMeta 4 "even" false "horizontal" (Some 32)).


(** ** Predicates of the further properties *)

(** Every cell of [g'] is the cell of [g], or a letter of the alphabet
    written over an empty cell. *)
Definition grid_fills (g g' : Grid) : Prop :=
  forall r c, 0 <= r -> 0 <= c ->
    grid_get g' r c = grid_get g r c \/
    (grid_get g r c = Some None /\
     exists x, x ∈ LETTERS /\ grid_get g' r c = Some (Some x)).

(** The letters a grid holds so far are letters of the alphabet. *)
Definition letters_only (g : Grid) : Prop :=
  forall r c x, 0 <= r -> 0 <= c -> grid_get g r c = Some (Some x) -> x ∈ LETTERS.

(** An [n] by [n] grid whose every cell is a letter of the alphabet. *)
Definition letter_grid (n : nat) (g : Grid) : Prop :=
  length g = n /\
  Forall (fun row : list cell =>
            length row = n /\
            Forall (fun c : cell => exists x, c = Some x /\ x ∈ LETTERS) row) g.

(** The strings of the given cells, joined in order; [None] when a cell
    is outside the grid or empty. *)
Fixpoint read_cells (g : Grid) (cs : list coord) : option string :=
  match cs with
  | [] => Some ""
  | (r, c) :: rest =>
      match grid_get g r c, read_cells g rest with
      | Some (Some x), Some w => Some (String.append x w)
      | _, _ => None
      end
  end.

(** [m] is a reading of the target word in [g]: its cells are the four
    cells from its start along its direction, an allowed one, they lie in
    the grid, and their strings spell the word. *)
Definition reads_word (size : Z) (dirs : list (string * (Z * Z))) (g : Grid)
    (m : Match) : Prop :=
  exists row col dr dc,
    start m = (row, col) /\ (direction m, (dr, dc)) ∈ dirs /\
    cells m = line row col dr dc word_letters /\
    Forall (fun x : coord => 0 <= x.1 < size /\ 0 <= x.2 < size) (cells m) /\
    read_cells g (cells m) = Some TARGET_WORD.

(** ** The command line *)

(** The parsed arguments [generate_puzzle] reads ([--seed] is a string). *)
Record Args := mkArgs {
  args_size : Z;
  args_exact : option Z;
  args_min : Z;
  args_max : Z;
  args_weighted : bool;
  args_seed : option string;
  args_no_overlap : bool;
  args_directions : string
}.

Section CommandLine.
Context `{RT : PyRuntime}.

(** [CLI.generate_puzzle] *)
Definition generate_puzzle (args : Args) (s0 : rng) : result Puzzle * rng :=
  let '(engine, s) := __init__ (option_map SeedStr (args_seed args)) s0 in
  let requested_count :=
    match args_exact args with
    | Some n => Exact n
    | None => Ranged (args_min args) (args_max args)
    end in
  let distribution_mode := if args_weighted args then "weighted" else "even" in
  let allow_overlap := if args_no_overlap args then false else true in
  generate_grid engine (args_size args) requested_count distribution_mode
    allow_overlap (args_directions args) s.

(** [DailySeed.get_daily_seed], given the UTC date as [%Y-%m-%d]. *)
Definition get_daily_seed (salt utc_date : string) : string :=
  String.append salt (String.append "-" utc_date).

(** The [DailyArgs] that [daily_game] builds from its own arguments. *)
Definition DailyArgs (size : Z) (weighted : bool) (utc_date : string) : Args :=
  mkArgs size None 0 5 weighted (Some (get_daily_seed "hmf" utc_date)) false "all".

(** The puzzle [daily_game] generates. *)
Definition daily_puzzle (size : Z) (weighted : bool) (utc_date : string)
    (s0 : rng) : result Puzzle * rng :=
  generate_puzzle (DailyArgs size weighted utc_date) s0.

End CommandLine.

(** ** The renderer *)

Definition newline : string := String (Ascii.ascii_of_nat 10) "".

(** [f"{x}"] for a cell: an empty cell prints as [None]. *)
Definition fmt_cell (c : cell) : string :=
  match c with
  | Some x => x
  | None => "None"
  end.

(** [[f(x) for x in l]], stopping at the first exception. *)
Fixpoint map_each {A B} (f : A -> result B) (l : list A) : result (list B) :=
  match l with
  | [] => Ok []
  | x :: rest =>
      try! y := f x in
      try! ys := map_each f rest in
      Ok (y :: ys)
  end.

(** [" ".join(row)]: every item has to be a [str]. *)
Definition join_row (row : list cell) : result string :=
  try! items := map_each (fun c : cell =>
                            match c with
                            | Some x => Ok x
                            | None => Raise TypeError
                            end) row in
  Ok (String.concat " " items).

(** [GridRenderer.render_grid] *)
Definition render_grid (g : Grid) : result string :=
  try! lines := map_each join_row g in
  Ok (String.concat newline lines).

(** The set [highlight_cells], as the list of the cells added to it. *)
Definition highlight_cells (ms : list Match) : list coord :=
  concat (map cells ms).

(** One entry of [line_parts]. *)
Definition highlight_part (g : Grid) (hl : list coord) (row col : Z) : result string :=
  match grid_get g row col with
  | None => Raise IndexError
  | Some c =>
      Ok (if bool_decide ((row, col) ∈ hl)
          then String.append "[" (String.append (fmt_cell c) "]")
          else String.append " " (String.append (fmt_cell c) " "))
  end.

(** [GridRenderer.render_highlighted_grid] *)
Definition render_highlighted_grid (g : Grid) (ms : list Match) : result string :=
  let size := Z.of_nat (length g) in
  let hl := highlight_cells ms in
  try! lines :=
    map_each (fun row =>
      try! line_parts := map_each (highlight_part g hl row) (range size) in
      Ok (String.concat "" line_parts)) (range size) in
  Ok (String.concat newline lines).

(** How often a character occurs in a string. *)
Fixpoint occurrences (a : Ascii.ascii) (s : string) : nat :=
  match s with
  | EmptyString => 0
  | String b rest => (if Ascii.eqb a b then 1 else 0) + occurrences a rest
  end.

(** The cells of an [n] by [n] grid that belong to some match. *)
Definition highlighted_in (n : nat) (ms : list Match) : list coord :=
  filter (fun x : coord => x ∈ highlight_cells ms) (all_coords (Z.of_nat n)).

Definition newline_char : Ascii.ascii := Ascii.ascii_of_nat 10.

(** [text.split("\n")]: the lines of a text. *)
Fixpoint split_lines (text : string) : list string :=
  match text with
  | EmptyString => [EmptyString]
  | String a rest =>
      if Ascii.eqb newline_char a then EmptyString :: split_lines rest
      else match split_lines rest with
           | l :: ls => String a l :: ls
           | [] => [String a EmptyString]
           end
  end.

(** [text] is [lines] joined by newlines, every line [width] characters
    long. *)
Definition lines_of_width (width : nat) (lines : list string) (text : string)
  : Prop :=
  text = String.concat newline lines /\
  (lines <> [] -> split_lines text = lines) /\
  Forall (fun l => String.length l = width /\ occurrences newline_char l = 0%nat)
    lines.

(** * Properties *)

Section GridFacts.

Lemma in_bounds_spec x size : in_bounds x size = true <-> 0 <= x < size.
Proof. unfold in_bounds. rewrite andb_true_iff, Z.leb_le, Z.ltb_lt. tauto. Qed.

Lemma py_index_nonneg {A} (l : list A) i :
  0 <= i -> py_index l i = l !! Z.to_nat i.
Proof. intros Hi. unfold py_index. destruct (Z.leb_spec 0 i); [done | lia]. Qed.

Lemma py_setitem_inrange {A} (l : list A) i x :
  0 <= i < Z.of_nat (length l) ->
  py_setitem l i x = Some (<[Z.to_nat i := x]> l).
Proof.
  intros Hi. unfold py_setitem.
  destruct (Z.leb_spec 0 i); [| lia].
  destruct (Z.ltb_spec i (Z.of_nat (length l))); [done | lia].
Qed.

Lemma grid_get_total n g r c :
  wf_grid n g -> 0 <= r < Z.of_nat n -> 0 <= c < Z.of_nat n ->
  exists x, grid_get g r c = Some x.
Proof.
  intros [Hlen Hrows] Hr Hc. unfold grid_get.
  rewrite py_index_nonneg by lia.
  destruct (lookup_lt_is_Some_2 g (Z.to_nat r)) as [row Hrow]; [lia |].
  rewrite Hrow, py_index_nonneg by lia.
  assert (length row = n) as Hl.
  { rewrite Forall_lookup in Hrows. eauto. }
  destruct (lookup_lt_is_Some_2 row (Z.to_nat c)) as [x Hx]; [lia | eauto].
Qed.

Lemma grid_set_spec n g r c x :
  wf_grid n g -> 0 <= r < Z.of_nat n -> 0 <= c < Z.of_nat n ->
  exists g',
    grid_set g r c x = Some g' /\ wf_grid n g' /\
    grid_get g' r c = Some x /\
    forall r' c', 0 <= r' -> 0 <= c' -> (r', c') <> (r, c) ->
                  grid_get g' r' c' = grid_get g r' c'.
Proof.
  intros [Hlen Hrows] Hr Hc. unfold grid_set.
  rewrite py_index_nonneg by lia.
  destruct (lookup_lt_is_Some_2 g (Z.to_nat r)) as [row Hrow]; [lia |].
  assert (length row = n) as Hl.
  { rewrite Forall_lookup in Hrows. eauto. }
  rewrite Hrow, py_setitem_inrange by lia.
  rewrite py_setitem_inrange by lia.
  eexists; split; [reflexivity |]. split; [| split].
  - split; [by rewrite length_insert |].
    apply Forall_insert; [done | by rewrite length_insert].
  - unfold grid_get. rewrite !py_index_nonneg by lia.
    rewrite list_lookup_insert_eq by lia.
    rewrite py_index_nonneg by lia.
    apply list_lookup_insert_eq. lia.
  - intros r' c' Hr' Hc' Hne. unfold grid_get.
    rewrite !py_index_nonneg by lia.
    destruct (decide (Z.to_nat r' = Z.to_nat r)) as [Heq | Hneq].
    + rewrite Heq, list_lookup_insert_eq, Hrow by lia.
      rewrite !py_index_nonneg by lia.
      apply list_lookup_insert_ne. intros Hcc.
      apply Hne. f_equal; lia.
    + by rewrite list_lookup_insert_ne.
Qed.

End GridFacts.

(** ** The scanner *)

Section ScannerFacts.

Lemma for_each_inv {A S} (P : S -> Prop) (l : list A) body s s' :
  for_each l body s = Ok s' -> P s ->
  (forall s x s', x ∈ l -> body s x = Ok s' -> P s -> P s') -> P s'.
Proof.
  revert s. induction l as [| x l IH]; simpl; intros s Hrun Hs Hbody.
  - by simplify_eq.
  - destruct (body s x) as [s1 | e] eqn:Hx; simpl in Hrun; [| done].
    apply (IH s1); [done | |].
    + eapply Hbody; [| exact Hx | exact Hs]. left.
    + intros s2 y s3 Hy. apply Hbody. by right.
Qed.

Lemma for_each_total {A S} (P : S -> Prop) (l : list A) body s :
  P s ->
  (forall s x, x ∈ l -> P s -> exists s', body s x = Ok s' /\ P s') ->
  exists s', for_each l body s = Ok s' /\ P s'.
Proof.
  revert s. induction l as [| x l IH]; simpl; intros s Hs Hbody.
  - eauto.
  - destruct (Hbody s x) as (s1 & Hx & Hs1); [left | done |].
    rewrite Hx. simpl. apply IH; [done |].
    intros s2 y Hy. apply Hbody. by right.
Qed.

(** What the iteration at [x] establishes survives the later iterations. *)
Lemma for_each_visit {A S} (Q : S -> Prop) (l : list A) body s s' x :
  for_each l body s = Ok s' -> x ∈ l ->
  (forall s s', body s x = Ok s' -> Q s') ->
  (forall s y s', body s y = Ok s' -> Q s -> Q s') -> Q s'.
Proof.
  intros Hrun Hin Hat Hkeep. revert s Hrun.
  induction Hin as [x l | x y l Hin IH]; simpl; intros s Hrun.
  - destruct (body s x) as [s1 | e] eqn:Hx; simpl in Hrun; [| done].
    eapply (for_each_inv Q); [exact Hrun | by eapply Hat |].
    intros s2 z s3 _. apply Hkeep.
  - destruct (body s y) as [s1 | e] eqn:Hy; simpl in Hrun; [| done].
    by apply (IH Hat s1).
Qed.

Lemma is_duplicate_spec k ms :
  _is_duplicate_match k ms = true <-> k ∈ map key ms.
Proof.
  unfold _is_duplicate_match. induction ms as [| m ms IH]; simpl.
  - split; [done | intros Hin; by apply elem_of_nil in Hin].
  - rewrite orb_true_iff, IH, bool_decide_eq_true, elem_of_cons.
    unfold key. split; (intros [Hk | Hk]; [left | right]); done.
Qed.

Lemma scan_step_keys g size row col ms d ms' :
  scan_step g size row col ms d = Ok ms' ->
  (NoDup (map key ms) -> NoDup (map key ms')) /\
  (forall k, k ∈ map key ms -> k ∈ map key ms') /\
  (forall cs, _check_word_at_position g row col d.2.1 d.2.2 size = Ok (Some cs) ->
              sorted cs ∈ map key ms').
Proof.
  destruct d as [dir_name [dr dc]]. unfold scan_step. simpl.
  destruct (_check_word_at_position g row col dr dc size) as [[cs |] | e];
    simpl; [| intros; simplify_eq; naive_solver | done].
  destruct (_is_duplicate_match (_normalize_match cs) ms) eqn:Hdup; simpl;
    intros ?; simplify_eq.
  - apply is_duplicate_spec in Hdup. naive_solver.
  - assert (_normalize_match cs ∉ map key ms) as Hnew.
    { intros Hin%is_duplicate_spec. congruence. }
    rewrite map_app. simpl. unfold key at 2 4 6. simpl.
    split; [| split].
    + intros Hnd. apply NoDup_app. split; [done |]. split.
      * intros k Hk Hin. apply list_elem_of_singleton in Hin. by subst.
      * apply NoDup_singleton.
    + intros k Hk. apply elem_of_app. by left.
    + intros cs' ?. simplify_eq. apply elem_of_app. right.
      by apply list_elem_of_singleton.
Qed.

Lemma grid_get_full n g r c :
  wf_grid n g -> full_grid g -> 0 <= r < Z.of_nat n -> 0 <= c < Z.of_nat n ->
  exists s, grid_get g r c = Some (Some s).
Proof.
  intros Hwf Hfull Hr Hc.
  destruct (grid_get_total n g r c Hwf Hr Hc) as [x Hx].
  unfold grid_get in Hx. rewrite py_index_nonneg in Hx by lia.
  destruct (g !! Z.to_nat r) as [row |] eqn:Hrow; [| done].
  rewrite py_index_nonneg in Hx by lia.
  unfold full_grid in Hfull. rewrite Forall_lookup in Hfull.
  specialize (Hfull _ _ Hrow). rewrite Forall_lookup in Hfull.
  destruct (Hfull _ _ Hx) as [s ->]. unfold grid_get.
  rewrite py_index_nonneg, Hrow, py_index_nonneg by lia. eauto.
Qed.

Lemma check_word_loop_total n g row col dr dc idx acc word :
  wf_grid n g -> full_grid g ->
  exists o, check_word_loop g row col dr dc (Z.of_nat n) idx acc word = Ok o.
Proof.
  intros Hwf Hfull. revert acc word.
  induction idx as [| i idx IH]; simpl; intros acc word; [eauto |].
  destruct (in_bounds (row + dr * i) (Z.of_nat n)) eqn:Hr; simpl; [| eauto].
  destruct (in_bounds (col + dc * i) (Z.of_nat n)) eqn:Hc; simpl; [| eauto].
  apply in_bounds_spec in Hr, Hc.
  destruct (grid_get_full n g _ _ Hwf Hfull Hr Hc) as [s ->]. apply IH.
Qed.

Lemma scan_step_total n g row col ms d :
  wf_grid n g -> full_grid g ->
  exists ms', scan_step g (Z.of_nat n) row col ms d = Ok ms'.
Proof.
  intros Hwf Hfull. destruct d as [dir_name [dr dc]]. unfold scan_step.
  unfold _check_word_at_position.
  destruct (check_word_loop_total n g row col dr dc
              (range (Z.of_nat (String.length TARGET_WORD))) [] "" Hwf Hfull)
    as [o ->]. simpl.
  destruct o; [| eauto]. destruct (negb _); eauto.
Qed.

(** The three nested loops of [scan_grid] as one statement about the
    accumulated list of matches. *)
Lemma scan_loops_inv (P : list Match -> Prop) g size dirs ms ms' :
  for_each (range size) (fun ms row =>
    for_each (range size) (fun ms col =>
      for_each dirs (scan_step g size row col) ms) ms) ms = Ok ms' ->
  P ms ->
  (forall ms row col d ms', scan_step g size row col ms d = Ok ms' -> P ms -> P ms') ->
  P ms'.
Proof.
  intros Hrun Hs Hstep.
  eapply (for_each_inv P); [exact Hrun | exact Hs |].
  intros ms1 row ms2 _ Hrow Hms1.
  eapply (for_each_inv P); [exact Hrow | exact Hms1 |].
  intros ms3 col ms4 _ Hcol Hms3.
  eapply (for_each_inv P); [exact Hcol | exact Hms3 |].
  intros ms5 d ms6 _. apply Hstep.
Qed.

Lemma scan_grid_ok g mode r :
  scan_grid g mode = Ok r ->
  count r = Z.of_nat (length (scan_matches r)) /\ NoDup (map key (scan_matches r)).
Proof.
  unfold scan_grid. intros Hscan.
  destruct (for_each _ _ _) as [ms |] eqn:Hrun; simpl in Hscan; [| done].
  simplify_eq. simpl. split; [done |].
  eapply (scan_loops_inv (fun ms => NoDup (map key ms))); [exact Hrun | |].
  - simpl. apply NoDup_nil_2.
  - intros ms1 row col d ms2 Hstep. by apply scan_step_keys in Hstep as [? _].
Qed.

Lemma scan_grid_total n g mode :
  wf_grid n g -> full_grid g -> exists r, scan_grid g mode = Ok r.
Proof.
  intros Hwf Hfull. unfold scan_grid.
  assert (length g = n) as -> by apply Hwf.
  edestruct (for_each_total (fun _ : list Match => True) (range (Z.of_nat n)))
    as (ms & -> & _); [done | | simpl; eauto].
  intros ms row _ _. apply for_each_total; [done |].
  intros ms1 col _ _. apply for_each_total; [done |].
  intros ms2 d _ _.
  destruct (scan_step_total n g row col ms2 d Hwf Hfull) as [ms3 ->]. eauto.
Qed.

(** C5. On every fully populated N x N grid and for every directions mode,
    [scan_grid] returns a result, and no two of the matches it returns (at
    different positions of the list) have the same canonical key, the sorted
    tuple of their cells. *)
Theorem scan_grid_no_duplicate_keys n (g : Grid) (mode : string) :
  wf_grid n g -> full_grid g ->
  exists r,
    scan_grid g mode = Ok r /\
    NoDup (map key (scan_matches r)) /\
    forall i j m1 m2,
      scan_matches r !! i = Some m1 -> scan_matches r !! j = Some m2 ->
      i <> j -> sorted (cells m1) <> sorted (cells m2).
Proof.
  intros Hwf Hfull.
  destruct (scan_grid_total n g mode Hwf Hfull) as [r Hr].
  exists r. split; [done |].
  destruct (scan_grid_ok g mode r Hr) as [_ Hnd]. split; [done |].
  intros i j m1 m2 Hi Hj Hne Hkey.
  apply Hne. eapply NoDup_lookup; [exact Hnd | |].
  - rewrite list_lookup_fmap_Some. eauto.
  - rewrite list_lookup_fmap_Some. exists m2. split; [done |].
    unfold key, _normalize_match. done.
Qed.

Lemma g4_wf : wf_grid 4 g4 /\ full_grid g4.
Proof.
  split; [split; [done |] |]; unfold g4; simpl; repeat constructor; eauto.
Qed.

Lemma scan_grid_no_duplicate_keys_witness :
  (wf_grid 4 g4 /\ full_grid g4) /\
  exists r,
    scan_grid g4 "all" = Ok r /\
    NoDup (map key (scan_matches r)) /\
    forall i j m1 m2,
      scan_matches r !! i = Some m1 -> scan_matches r !! j = Some m2 ->
      i <> j -> sorted (cells m1) <> sorted (cells m2).
Proof.
  split; [exact g4_wf |].
  exact (scan_grid_no_duplicate_keys 4%nat g4 "all" (proj1 g4_wf) (proj2 g4_wf)).
Defined.

(** C6 (as the code has it). Scanning the 4 x 4 grid whose rows are each
    F, U, C, K with all eight directions reports six matches: the four rows
    read East, the main diagonal read South-East from the top-left corner and
    the anti-diagonal read North-East from the bottom-left corner. *)
Theorem scan_four_rows_all_directions :
  scan_grid g4 "all" =
  Ok (mkScan 6
        [ mkMatch (0, 0) "E" [(0, 0); (0, 1); (0, 2); (0, 3)];
          mkMatch (0, 0) "SE" [(0, 0); (1, 1); (2, 2); (3, 3)];
          mkMatch (1, 0) "E" [(1, 0); (1, 1); (1, 2); (1, 3)];
          mkMatch (2, 0) "E" [(2, 0); (2, 1); (2, 2); (2, 3)];
          mkMatch (3, 0) "NE" [(3, 0); (2, 1); (1, 2); (0, 3)];
          mkMatch (3, 0) "E" [(3, 0); (3, 1); (3, 2); (3, 3)] ]) /\
  scan_count g4 "all" = Some 6.
Proof. split; vm_compute; reflexivity. Qed.

(** C6 as stated fails: the count of that scan is not 4. *)
Lemma scan_four_rows_count_is_not_4 : scan_count g4 "all" <> Some 4.
Proof. vm_compute. discriminate. Qed.

End ScannerFacts.

(** ** The generator: what a returned puzzle satisfies *)

Section GeneratorFacts.
Context `{RT : PyRuntime}.

Lemma bind_ok {A B} (m : M A) (k : A -> M B) s b s' :
  bind m k s = (Ok b, s') ->
  exists a s1, m s = (Ok a, s1) /\ k a s1 = (Ok b, s').
Proof.
  unfold bind. destruct (m s) as [[a | e] s1]; [eauto | done].
Qed.

Lemma retry_loop_ok n body s p s' :
  retry_loop n body s = (Ok p, s') ->
  exists k s1, (k < n)%nat /\ attempts_fail body k s s1 /\
               body s1 = (Ok (Some p), s').
Proof.
  revert s. induction n as [| n IH]; simpl; intros s Hrun; [done |].
  destruct (body s) as [[[q |] | e] s1] eqn:Hbody.
  - simplify_eq. exists 0%nat, s. split; [lia |]. split; [constructor | done].
  - destruct (IH _ Hrun) as (k & s2 & Hk & Hfail & Hlast).
    exists (S k), s2. split; [lia |]. split; [| done].
    econstructor; [| exact Hfail]. by left.
  - destruct e; try done.
    destruct (IH _ Hrun) as (k & s2 & Hk & Hfail & Hlast).
    exists (S k), s2. split; [lia |]. split; [| done].
    econstructor; [| exact Hfail]. right. eauto.
Qed.

Lemma retry_loop_exhausted n body s s' :
  attempts_fail body n s s' ->
  retry_loop n body s = (Raise (RuntimeError capacity_message), s').
Proof.
  induction 1 as [s | n s s1 s2 Hfail _ IH]; simpl; [done |].
  destruct Hfail as [-> | [msg ->]]; exact IH.
Qed.

Lemma attempt_some self size t dist allow mode dirs s p s' :
  attempt self size t dist allow mode dirs s = (Ok (Some p), s') ->
  exists r,
    scan_grid (grid p) mode = Ok r /\ count r = t /\
    p = mkPuzzle (grid p) t (scan_matches r)
          (mkMeta size dist allow mode (seed self)).
Proof.
  unfold attempt. intros Hrun.
  apply bind_ok in Hrun as ([g1 ms1] & s1 & _ & Hrun).
  apply bind_ok in Hrun as (g2 & s2 & _ & Hrun).
  apply bind_ok in Hrun as (r & s3 & Hscan & Hrun).
  unfold lift in Hscan. simplify_eq.
  destruct (Z.eqb_spec (count r) t) as [Hc | Hc]; unfold ret in Hrun; [| done].
  simplify_eq. simpl. eauto.
Qed.

Lemma generate_grid_ok self size req dist allow mode s p s' :
  generate_grid self size req dist allow mode s = (Ok p, s') ->
  exists t s0 s1 r,
    match req with
    | Ranged lo hi => randint lo hi s = (Ok t, s0)
    | Exact n => t = n /\ s0 = s
    end /\
    attempt self size t dist allow mode (_get_allowed_directions mode) s1
      = (Ok (Some p), s') /\
    scan_grid (grid p) mode = Ok r /\ count r = t /\
    p = mkPuzzle (grid p) t (scan_matches r)
          (mkMeta size dist allow mode (seed self)).
Proof.
  unfold generate_grid. intros Hrun.
  apply bind_ok in Hrun as (t & s0 & Hdraw & Hrun).
  apply retry_loop_ok in Hrun as (k & s1 & _ & _ & Hlast).
  destruct (attempt_some _ _ _ _ _ _ _ _ _ _ Hlast) as (r & Hscan & Hc & Hp).
  exists t, s0, s1, r. split; [| done].
  destruct req; [| done]. unfold ret in Hdraw. by simplify_eq.
Qed.

(** C1. Every puzzle [generate_grid] returns, whatever the size, requested
    count, distribution mode, overlap flag and directions mode, has as many
    entries in [matches] as its [true_count], and a further call of
    [scan_grid] on its grid with its own directions mode returns that same
    count (and those same matches). *)
Theorem generate_grid_round_trip self size req dist allow mode s p s' :
  generate_grid self size req dist allow mode s = (Ok p, s') ->
  Z.of_nat (length (matches p)) = true_count p /\
  exists r,
    scan_grid (grid p) (meta_directions_mode (metadata p)) = Ok r /\
    count r = true_count p /\ scan_matches r = matches p.
Proof.
  intros Hgen.
  destruct (generate_grid_ok _ _ _ _ _ _ _ _ _ Hgen)
    as (t & s0 & s1 & r & _ & _ & Hscan & Hc & Hp).
  destruct (scan_grid_ok _ _ _ Hscan) as [Hlen _].
  rewrite Hp. simpl. split; [congruence | eauto].
Qed.


(** C7. With [requested_count = (min, max)] and [min <= max] the target is
    drawn once, by [randint(min, max)], before the first attempt; it lies in
    [min, max]; all 25 iterations of the retry loop run the same attempt with
    that one target; and a returned puzzle has that target as [true_count],
    hence a [true_count] in [min, max]. *)
Theorem generate_grid_ranged_target self size lo hi dist allow mode s :
  lo <= hi ->
  let draw := randbelow (hi + 1 - lo) s in
  let target := lo + draw.1 in
  randint lo hi s = (Ok target, draw.2) /\
  lo <= target <= hi /\
  generate_grid self size (Ranged lo hi) dist allow mode s =
    retry_loop max_retries
      (attempt self size target dist allow mode (_get_allowed_directions mode))
      draw.2 /\
  forall p s',
    generate_grid self size (Ranged lo hi) dist allow mode s = (Ok p, s') ->
    true_count p = target /\ lo <= true_count p <= hi.
Proof.
  intros Hle draw target.
  assert (randint lo hi s = (Ok target, draw.2)) as Hdraw.
  { unfold randint. destruct (Z.ltb_spec 0 (hi + 1 - lo)); [| lia].
    subst target draw. by destruct (randbelow _ s). }
  assert (lo <= target <= hi) as Hin.
  { pose proof (randbelow_range (hi + 1 - lo) s). subst target draw.
    simpl in *. lia. }
  assert (generate_grid self size (Ranged lo hi) dist allow mode s =
          retry_loop max_retries
            (attempt self size target dist allow mode
               (_get_allowed_directions mode)) draw.2) as Hgen.
  { unfold generate_grid, bind. by rewrite Hdraw. }
  split; [done |]. split; [done |]. split; [done |].
  intros p s' Hrun. rewrite Hgen in Hrun.
  apply retry_loop_ok in Hrun as (k & s1 & _ & _ & Hlast).
  destruct (attempt_some _ _ _ _ _ _ _ _ _ _ Hlast) as (r & _ & _ & ->).
  simpl. done.
Qed.

(** C10. With [requested_count = (min, max)] and [min > max] the range draw
    raises [ValueError] before any attempt: [generate_grid] raises that
    [ValueError] itself, having drawn nothing, and not the [RuntimeError] of
    an exhausted retry loop. *)
Theorem generate_grid_inverted_range self size lo hi dist allow mode s :
  hi < lo ->
  randint lo hi s = (Raise (ValueError "empty range for randrange()"), s) /\
  generate_grid self size (Ranged lo hi) dist allow mode s =
    (Raise (ValueError "empty range for randrange()"), s) /\
  forall msg s',
    generate_grid self size (Ranged lo hi) dist allow mode s <>
      (Raise (RuntimeError msg), s').
Proof.
  intros Hlt.
  assert (randint lo hi s = (Raise (ValueError "empty range for randrange()"), s))
    as Hdraw.
  { unfold randint. destruct (Z.ltb_spec 0 (hi + 1 - lo)); [lia | done]. }
  assert (generate_grid self size (Ranged lo hi) dist allow mode s =
          (Raise (ValueError "empty range for randrange()"), s)) as Hgen.
  { unfold generate_grid, bind. by rewrite Hdraw. }
  split; [done |]. split; [done |]. intros msg s'. by rewrite Hgen.
Qed.

(** C2. Two runs that each construct a fresh engine with the same seed (an
    integer or a string) and call [generate_grid] with the same parameters
    give the same outcome, whatever state the stream was in before either
    run: the same grid, [true_count] and matches, or the same exception.
    That outcome is the one of [generate_grid] on the stream as
    [random.seed] leaves it for the integer of the seed. *)
Theorem fresh_run_deterministic sd size req dist allow mode (s0 s0' : rng) :
  fresh_run s0 sd size req dist allow mode =
    fresh_run s0' sd size req dist allow mode /\
  fresh_run s0 sd size req dist allow mode =
    generate_grid (mkEngine (Some (seed_int sd))) size req dist allow mode
      (seed_rng (seed_int sd)).
Proof.
  assert (forall s, __init__ (Some sd) s
                    = (mkEngine (Some (seed_int sd)), seed_rng (seed_int sd)))
    as Hinit by (intros s1; destruct sd; reflexivity).
  unfold fresh_run. rewrite (Hinit s0), (Hinit s0'). split; reflexivity.
Qed.

End GeneratorFacts.

(** ** Placement and filling *)

Section PlacementFacts.
Context `{RT : PyRuntime}.

Lemma elem_of_range x n : x ∈ range n <-> 0 <= x < n.
Proof.
  unfold range. rewrite list_elem_of_In, in_map_iff. split.
  - intros (k & <- & Hk%in_seq). lia.
  - intros Hx. exists (Z.to_nat x). split; [lia |]. apply in_seq. lia.
Qed.

Lemma allowed_directions_ok mode : dirs_ok (_get_allowed_directions mode).
Proof.
  unfold _get_allowed_directions.
  destruct (String.eqb mode "horizontal"); [| destruct (String.eqb mode "horiz_vert")];
    (split; [done |]); intros k Hk; simpl in Hk;
    repeat (apply elem_of_cons in Hk as [-> | Hk]);
    try (by apply elem_of_nil in Hk);
    (do 2 eexists; split; [reflexivity |]; split;
      [repeat first [apply list_elem_of_here | apply list_elem_of_further] | lia]).
Qed.

Lemma word_letters_eq : word_letters = [(0, "F"); (1, "U"); (2, "C"); (3, "K")].
Proof. reflexivity. Qed.

Lemma line_in_bounds size row col dr dc :
  0 <= row < size -> 0 <= col < size ->
  -1 <= dr <= 1 -> -1 <= dc <= 1 ->
  0 <= row + dr * 3 < size -> 0 <= col + dc * 3 < size ->
  Forall (fun il : Z * string =>
            0 <= row + dr * il.1 < size /\ 0 <= col + dc * il.1 < size)
         word_letters.
Proof.
  intros ? ? ? ? ? ?. rewrite word_letters_eq.
  repeat constructor; simpl; nia.
Qed.

Lemma line_NoDup row col dr dc :
  dr <> 0 \/ dc <> 0 -> NoDup (line row col dr dc word_letters).
Proof.
  intros Hd. rewrite word_letters_eq. unfold line. simpl.
  repeat (apply NoDup_cons; split);
    [.. | apply NoDup_nil_2];
    rewrite ?elem_of_cons, elem_of_nil; intros Hin;
    repeat (destruct Hin as [Hin | Hin]); try done; simplify_eq; lia.
Qed.

Lemma line_length row col dr dc : length (line row col dr dc word_letters) = 4%nat.
Proof. reflexivity. Qed.

Lemma elem_of_line x row col dr dc letters :
  x ∈ line row col dr dc letters <->
  exists il, il ∈ letters /\ x = (row + dr * il.1, col + dc * il.1).
Proof.
  unfold line. rewrite list_elem_of_In, in_map_iff.
  setoid_rewrite <- list_elem_of_In.
  split; intros (il & H1 & H2); exists il; done.
Qed.

Lemma can_place_loop_true g row col dr dc allow letters acc cs :
  can_place_loop g row col dr dc allow letters acc = Ok (true, cs) ->
  cs = acc ++ line row col dr dc letters /\
  Forall (fun il : Z * string =>
            grid_get g (row + dr * il.1) (col + dc * il.1) = Some None \/
            (allow = true /\
             grid_get g (row + dr * il.1) (col + dc * il.1) = Some (Some il.2)))
         letters.
Proof.
  revert acc. induction letters as [| [i letter] letters IH]; simpl; intros acc Hrun.
  - simplify_eq. by rewrite app_nil_r.
  - destruct (grid_get g (row + dr * i) (col + dc * i)) as [[x |] |] eqn:Hget;
      [| | done].
    + destruct allow; simpl in Hrun; [| done].
      destruct (String.eqb_spec x letter) as [-> | Hne]; simpl in Hrun; [| done].
      destruct (IH _ Hrun) as [-> Hall]. rewrite <- app_assoc. split; [done |].
      constructor; [| done]. simpl. by right.
    + destruct (IH _ Hrun) as [-> Hall]. rewrite <- app_assoc. split; [done |].
      constructor; [| done]. simpl. by left.
Qed.

Lemma can_place_loop_total size g row col dr dc allow letters acc :
  wf_grid (Z.to_nat size) g ->
  Forall (fun il : Z * string =>
            0 <= row + dr * il.1 < size /\ 0 <= col + dc * il.1 < size) letters ->
  exists b cs, can_place_loop g row col dr dc allow letters acc = Ok (b, cs).
Proof.
  intros Hwf Hin. revert acc.
  induction Hin as [| [i letter] letters [Hr Hc] _ IH]; simpl; intros acc; [eauto |].
  simpl in Hr, Hc.
  destruct (grid_get_total _ g (row + dr * i) (col + dc * i) Hwf) as [x ->];
    [lia | lia |].
  destruct x as [x |]; [| apply IH].
  destruct (negb allow || negb (String.eqb x letter)); [eauto | apply IH].
Qed.

Lemma write_word_spec size g row col dr dc letters :
  wf_grid (Z.to_nat size) g ->
  Forall (fun il : Z * string =>
            0 <= row + dr * il.1 < size /\ 0 <= col + dc * il.1 < size) letters ->
  NoDup (line row col dr dc letters) ->
  exists g',
    write_word g row col dr dc letters = Ok g' /\
    wf_grid (Z.to_nat size) g' /\
    Forall (fun il : Z * string =>
              grid_get g' (row + dr * il.1) (col + dc * il.1) = Some (Some il.2))
           letters /\
    forall r c, 0 <= r -> 0 <= c -> (r, c) ∉ line row col dr dc letters ->
                grid_get g' r c = grid_get g r c.
Proof.
  intros Hwf Hin. revert g Hwf.
  induction Hin as [| [i letter] letters [Hr Hc] _ IH]; simpl; intros g Hwf Hnd.
  - exists g. split; [done |]. split; [done |]. split; [constructor | done].
  - simpl in Hr, Hc. apply NoDup_cons in Hnd as [Hhead Hnd].
    destruct (grid_set_spec _ g (row + dr * i) (col + dc * i) (Some letter) Hwf)
      as (g1 & -> & Hwf1 & Hsame & Hother); [lia | lia |].
    destruct (IH g1 Hwf1 Hnd) as (g' & -> & Hwf' & Hall & Hrest).
    exists g'. split; [done |]. split; [done |]. split.
    + constructor; [| done]. simpl. rewrite Hrest by (done || lia). done.
    + intros r c Hr0 Hc0 Hnot. apply not_elem_of_cons in Hnot as [Hne Hnot].
      rewrite Hrest by done. by apply Hother.
Qed.

Lemma placed_in_mono size dirs g g' m :
  grid_mono g g' -> placed_in size dirs g m -> placed_in size dirs g' m.
Proof.
  intros Hmono (row & col & dr & dc & Hs & Hd & Hr & Hc & Hcs & Hall).
  exists row, col, dr, dc. repeat (split; [done |]).
  eapply Forall_impl; [exact Hall |]. intros il (Hr' & Hc' & Hget).
  repeat (split; [done |]). apply Hmono; [lia | lia | done].
Qed.

Lemma placed_cell_filled size dirs g ms x :
  Forall (placed_in size dirs g) ms -> x ∈ concat (map cells ms) ->
  exists letter, 0 <= x.1 < size /\ 0 <= x.2 < size /\
                 grid_get g x.1 x.2 = Some (Some letter).
Proof.
  intros Hall Hx. apply list_elem_of_In, in_concat in Hx as (cs & Hcs & Hx).
  apply in_map_iff in Hcs as (m & <- & Hm).
  rewrite Forall_forall in Hall. apply list_elem_of_In in Hm.
  destruct (Hall m Hm) as (row & col & dr & dc & _ & _ & _ & _ & Hcells & Hread).
  rewrite Hcells in Hx. apply list_elem_of_In, elem_of_line in Hx as (il & Hil & ->).
  rewrite Forall_forall in Hread. destruct (Hread il Hil) as (? & ? & ?).
  simpl. eauto.
Qed.

Lemma concat_cells_snoc ms m :
  concat (map cells (ms ++ [m])) = concat (map cells ms) ++ cells m.
Proof. rewrite map_app, concat_app. simpl. by rewrite app_nil_r. Qed.

(** One successful placement keeps the invariant. *)
Lemma placement_step allow size dirs g ms row col dir_name dr dc cs g' :
  placement_inv allow size dirs g ms ->
  (dir_name, (dr, dc)) ∈ dirs ->
  -1 <= dr <= 1 -> -1 <= dc <= 1 -> dr <> 0 \/ dc <> 0 ->
  0 <= row < size -> 0 <= col < size ->
  0 <= row + dr * 3 < size -> 0 <= col + dc * 3 < size ->
  can_place_loop g row col dr dc allow word_letters [] = Ok (true, cs) ->
  write_word g row col dr dc word_letters = Ok g' ->
  placement_inv allow size dirs g' (ms ++ [mkMatch (row, col) dir_name cs]) /\
  grid_mono g g'.
Proof.
  intros (Hwf & Hplaced & Hdisj) Hdir Hdr Hdc Hnz Hrow Hcol Herow Hecol Hcan Hwrite.
  pose proof (line_in_bounds size row col dr dc Hrow Hcol Hdr Hdc Herow Hecol) as Hin.
  pose proof (line_NoDup row col dr dc Hnz) as Hnd.
  apply can_place_loop_true in Hcan as [-> Hfree]. simpl.
  destruct (write_word_spec size g row col dr dc word_letters Hwf Hin Hnd)
    as (g2 & Hw2 & Hwf' & Hnew & Hrest).
  rewrite Hwrite in Hw2. simplify_eq.
  assert (grid_mono g g2) as Hmono.
  { intros r c x Hr Hc Hget.
    destruct (decide ((r, c) ∈ line row col dr dc word_letters)) as [Hon | Hoff].
    - apply elem_of_line in Hon as (il & Hil & Heq). simplify_eq.
      rewrite Forall_forall in Hfree, Hnew.
      destruct (Hfree il Hil) as [Hnone | [_ Hsame]]; [congruence |].
      rewrite (Hnew il Hil). congruence.
    - rewrite Hrest by done. done. }
  split; [| done]. split; [done |]. split.
  - apply Forall_app. split.
    + eapply Forall_impl; [exact Hplaced |]. intros m. by apply placed_in_mono.
    + constructor; [| constructor].
      exists row, col, dr, dc. simpl. repeat (split; [done |]).
      rewrite Forall_forall in Hin, Hnew. apply Forall_forall. intros il Hil.
      destruct (Hin il Hil). eauto.
  - intros ->. rewrite concat_cells_snoc.
    change (NoDup (concat (map cells ms) ++ line row col dr dc word_letters)).
    apply NoDup_app. split; [by apply Hdisj |]. split; [| done].
    intros x Hold Hnew'.
    destruct (placed_cell_filled _ _ _ _ _ Hplaced Hold) as (letter & _ & _ & Hget).
    apply elem_of_line in Hnew' as (il & Hil & ->). simpl in Hget.
    rewrite Forall_forall in Hfree.
    destruct (Hfree il Hil) as [Hnone | [? _]]; congruence.
Qed.

Lemma randint_empty a b s :
  b < a -> randint a b s = (Raise (ValueError "empty range for randrange()"), s).
Proof. intros Hlt. unfold randint. destruct (Z.ltb_spec 0 (b + 1 - a)); [lia | done]. Qed.

Lemma randint_draws a b s :
  a <= b -> exists k s', randint a b s = (Ok k, s') /\ a <= k <= b.
Proof.
  intros Hle. unfold randint. destruct (Z.ltb_spec 0 (b + 1 - a)); [| lia].
  pose proof (randbelow_range (b + 1 - a) s) as Hk.
  destruct (randbelow (b + 1 - a) s) as [k s']. simpl in Hk.
  exists (a + k), s'. split; [done | lia].
Qed.

Lemma choice_draws {A} (l : list A) s :
  l <> [] -> exists x s', choice l s = (Ok x, s') /\ x ∈ l.
Proof.
  intros Hne. unfold choice. destruct l as [| y l]; [done |].
  set (seq := y :: l).
  pose proof (randbelow_range (Z.of_nat (length seq)) s) as Hk.
  destruct (randbelow (Z.of_nat (length seq)) s) as [k s']. simpl in Hk.
  rewrite py_index_nonneg by (simpl in Hk; lia).
  destruct (lookup_lt_is_Some_2 seq (Z.to_nat k)) as [x Hx]; [simpl in *; lia |].
  rewrite Hx. exists x, s'. split; [done |]. by eapply list_elem_of_lookup_2.
Qed.

Lemma place_try_cases allow size dirs g ms s :
  dirs_ok dirs -> placement_inv allow size dirs g ms ->
  (size < 1 /\
   place_try g size dirs allow ms s =
     (Raise (ValueError "empty range for randrange()"), s)) \/
  (1 <= size /\
   exists s',
     place_try g size dirs allow ms s = (Ok None, s') \/
     exists g' m,
       place_try g size dirs allow ms s = (Ok (Some (g', ms ++ [m])), s') /\
       placement_inv allow size dirs g' (ms ++ [m]) /\ grid_mono g g').
Proof.
  intros [Hne Hkeys] Hinv. unfold place_try, bind.
  destruct (decide (size < 1)) as [Hsmall | Hbig].
  { left. split; [done |]. rewrite randint_empty by lia. done. }
  right. split; [lia |].
  destruct (randint_draws 0 (size - 1) s) as (row & s1 & -> & Hrow); [lia |].
  destruct (randint_draws 0 (size - 1) s1) as (col & s2 & -> & Hcol); [lia |].
  destruct (choice_draws (keys dirs) s2) as (dir_name & s3 & -> & Hkey).
  { unfold keys. by destruct dirs. }
  destruct (Hkeys dir_name Hkey) as (dr & dc & -> & Hdir & Hdr & Hdc & Hnz).
  change (Z.of_nat (String.length TARGET_WORD) - 1) with 3.
  change (enumerate (chars TARGET_WORD)) with word_letters.
  exists s3.
  destruct (in_bounds (row + dr * 3) size) eqn:Her; cbn [andb negb]; [| by left].
  destruct (in_bounds (col + dc * 3) size) eqn:Hec; cbn [andb negb]; [| by left].
  apply in_bounds_spec in Her, Hec.
  assert (0 <= row < size) as Hrow' by lia.
  assert (0 <= col < size) as Hcol' by lia.
  pose proof (line_in_bounds size row col dr dc Hrow' Hcol' Hdr Hdc Her Hec) as Hin.
  destruct (can_place_loop_total size g row col dr dc allow word_letters []
              (proj1 Hinv) Hin) as (b & cs & Hcan).
  unfold lift, ret. rewrite Hcan. destruct b; [| by left]. right.
  destruct (write_word_spec size g row col dr dc word_letters (proj1 Hinv) Hin
              (line_NoDup row col dr dc Hnz)) as (g' & Hwrite & _).
  rewrite Hwrite. exists g', (mkMatch (row, col) dir_name cs). split; [done |].
  by eapply placement_step.
Qed.

Lemma place_word_loop_spec fuel allow size dirs g ms s :
  dirs_ok dirs -> placement_inv allow size dirs g ms -> 1 <= size ->
  exists s',
    place_word_loop fuel g size dirs allow ms s = (Ok (false, (g, ms)), s') \/
    exists g' m,
      place_word_loop fuel g size dirs allow ms s
        = (Ok (true, (g', ms ++ [m])), s') /\
      placement_inv allow size dirs g' (ms ++ [m]) /\ grid_mono g g'.
Proof.
  intros Hdirs Hinv Hsize. revert s.
  induction fuel as [| fuel IH]; simpl; intros s.
  - exists s. by left.
  - unfold bind.
    destruct (place_try_cases allow size dirs g ms s Hdirs Hinv)
      as [[? _] | (_ & s1 & [-> | (g' & m & -> & Hinv' & Hmono)])]; [lia | |].
    + apply IH.
    + exists s1. right. exists g', m. done.
Qed.

Lemma place_word_loop_empty fuel allow size dirs g ms s :
  dirs_ok dirs -> placement_inv allow size dirs g ms -> size < 1 ->
  place_word_loop (S fuel) g size dirs allow ms s =
    (Raise (ValueError "empty range for randrange()"), s).
Proof.
  intros Hdirs Hinv Hsize. simpl. unfold bind.
  destruct (place_try_cases allow size dirs g ms s Hdirs Hinv)
    as [[_ ->] | [? _]]; [done | lia].
Qed.

Lemma grid_mono_refl g : grid_mono g g.
Proof. by intros r c x _ _ ?. Qed.

Lemma grid_mono_trans g1 g2 g3 : grid_mono g1 g2 -> grid_mono g2 g3 -> grid_mono g1 g3.
Proof. intros H12 H23 r c x Hr Hc Hget. apply H23, H12; done. Qed.

(** The placement loop of an attempt either places every word, keeping
    the invariant, or raises [ValueError]. *)
Lemma place_words_spec k allow size dirs g ms s :
  dirs_ok dirs -> placement_inv allow size dirs g ms ->
  exists res s',
    place_words k g size dirs allow ms s = (res, s') /\
    match res with
    | Ok (g', ms') =>
        placement_inv allow size dirs g' ms' /\
        length ms' = (length ms + k)%nat /\ grid_mono g g'
    | Raise e => exists msg, e = ValueError msg
    end.
Proof.
  intros Hdirs. revert g ms s.
  induction k as [| k IH]; simpl; intros g ms s Hinv.
  - exists (Ok (g, ms)), s. split; [done |]. split; [done |].
    split; [lia | apply grid_mono_refl].
  - unfold bind, _place_word. change max_attempts with (S 999).
    destruct (decide (size < 1)) as [Hsmall | Hbig].
    { rewrite place_word_loop_empty by done.
      do 2 eexists. split; [reflexivity |]. simpl. eauto. }
    destruct (place_word_loop_spec (S 999) allow size dirs g ms s Hdirs Hinv)
      as (s1 & [-> | (g' & m & -> & Hinv' & Hmono)]); [lia | |].
    + simpl. unfold raise. do 2 eexists. split; [reflexivity |]. simpl. eauto.
    + simpl.
      destruct (IH g' (ms ++ [m]) s1 Hinv') as (res & s2 & -> & Hres).
      exists res, s2. split; [done |].
      destruct res as [[g2 ms2] | e]; [| done].
      destruct Hres as (Hinv2 & Hlen & Hmono2). split; [done |]. split.
      * rewrite Hlen, length_app. simpl. lia.
      * by eapply grid_mono_trans.
Qed.

Lemma empty_grid_inv allow size dirs :
  placement_inv allow size dirs (_create_empty_grid size) [].
Proof.
  unfold _create_empty_grid. split; [split |].
  - apply length_replicate.
  - apply Forall_replicate, length_replicate.
  - split; [constructor | intros _; constructor].
Qed.

(** ** Capacity *)

Lemma placed_cells_length size dirs g ms :
  Forall (placed_in size dirs g) ms ->
  length (concat (map cells ms)) = (4 * length ms)%nat.
Proof.
  induction 1 as [| m ms (row & col & dr & dc & _ & _ & _ & _ & Hcells & _) _ IH].
  - done.
  - simpl. rewrite length_app, IH, Hcells, line_length. lia.
Qed.

Lemma elem_of_all_coords x size :
  x ∈ all_coords size <-> 0 <= x.1 < size /\ 0 <= x.2 < size.
Proof.
  destruct x as [r c]. unfold all_coords.
  rewrite list_elem_of_In, in_prod_iff, <- !list_elem_of_In, !elem_of_range. done.
Qed.

(** Without overlap the words placed so far occupy four cells each, all
    different, inside the grid. *)
Lemma placement_capacity size dirs g ms :
  placement_inv false size dirs g ms ->
  (4 * length ms <= Z.to_nat size * Z.to_nat size)%nat.
Proof.
  intros (_ & Hplaced & Hnd). specialize (Hnd eq_refl).
  rewrite <- (placed_cells_length size dirs g ms Hplaced).
  transitivity (length (all_coords size)).
  - apply submseteq_length, NoDup_submseteq; [done |].
    intros x Hx. apply elem_of_all_coords.
    destruct (placed_cell_filled _ _ _ _ _ Hplaced Hx) as (_ & ? & ? & _). done.
  - unfold all_coords, range. rewrite length_prod, !length_map, !length_seq. done.
Qed.

Lemma attempt_over_capacity self size t dist mode dirs s :
  dirs_ok dirs -> size * size < 4 * t ->
  exists msg s',
    attempt self size t dist false mode dirs s = (Raise (ValueError msg), s').
Proof.
  intros Hdirs Hcap. unfold attempt, bind.
  destruct (place_words_spec (Z.to_nat t) false size dirs (_create_empty_grid size)
              [] s Hdirs (empty_grid_inv false size dirs))
    as (res & s1 & -> & Hres).
  destruct res as [[g ms] | e].
  - destruct Hres as (Hinv & Hlen & _).
    apply placement_capacity in Hinv. simpl in Hlen. nia.
  - destruct Hres as [msg ->]. eauto.
Qed.

Lemma attempts_always_fail body n :
  (forall s, exists msg s', body s = (Raise (ValueError msg), s')) ->
  forall s, exists s', attempts_fail body n s s'.
Proof.
  intros Hbody. induction n as [| n IH]; intros s.
  - exists s. constructor.
  - destruct (Hbody s) as (msg & s1 & Hs). destruct (IH s1) as [s2 Hrest].
    exists s2. econstructor; [| exact Hrest]. right. eauto.
Qed.

Lemma generate_grid_exact self size t dist allow mode s :
  generate_grid self size (Exact t) dist allow mode s =
  retry_loop max_retries
    (attempt self size t dist allow mode (_get_allowed_directions mode)) s.
Proof. reflexivity. Qed.

(** Without overlap, a count of words that needs more cells than the
    grid has exhausts the retry loop, whatever the stream gives. *)
Lemma generate_grid_over_capacity self size t dist mode s :
  size * size < 4 * t ->
  exists s',
    generate_grid self size (Exact t) dist false mode s =
      (Raise (RuntimeError capacity_message), s').
Proof.
  intros Hcap. rewrite generate_grid_exact.
  destruct (attempts_always_fail
              (attempt self size t dist false mode (_get_allowed_directions mode))
              max_retries) with (s := s) as [s' Hfail].
  { intros s0. apply attempt_over_capacity; [apply allowed_directions_ok | done]. }
  exists s'. by apply retry_loop_exhausted.
Qed.

(** C3. A call of [generate_grid] with a fixed count makes at most 25
    attempts: a puzzle it returns is the result of attempt [k + 1] for some
    [k < 25], after [k] failed attempts; when 25 attempts in a row fail (a
    word finds no place and [ValueError] is raised, or the scan count differs
    from the target) it raises [RuntimeError] with the message that names
    the remedies; and with size 4, count 10 and no overlap it always raises
    that error. *)
Theorem generate_grid_retry_budget self size t dist allow mode s :
  let body := attempt self size t dist allow mode (_get_allowed_directions mode) in
  (forall p s',
     generate_grid self size (Exact t) dist allow mode s = (Ok p, s') ->
     exists k s1, (k < 25)%nat /\ attempts_fail body k s s1 /\
                  body s1 = (Ok (Some p), s')) /\
  (forall s',
     attempts_fail body 25 s s' ->
     generate_grid self size (Exact t) dist allow mode s =
       (Raise (RuntimeError capacity_message), s')) /\
  (mentions "smaller grid" capacity_message = true /\
   mentions "allow overlap" capacity_message = true /\
   mentions "reduce count" capacity_message = true /\
   mentions "even distribution" capacity_message = true) /\
  exists s',
    generate_grid self 4 (Exact 10) dist false mode s =
      (Raise (RuntimeError capacity_message), s').
Proof.
  intros body. split; [| split; [| split]].
  - intros p s' Hgen. rewrite generate_grid_exact in Hgen.
    apply retry_loop_ok in Hgen. exact Hgen.
  - intros s' Hfail. rewrite generate_grid_exact.
    apply retry_loop_exhausted. exact Hfail.
  - by vm_compute.
  - apply generate_grid_over_capacity. lia.
Qed.

(** ** Filling keeps the placed words *)

Lemma for_eachM_inv {A S} (P : S -> Prop) (l : list A) (body : S -> A -> M S)
    s t s' t' :
  for_eachM l body s t = (Ok s', t') -> P s ->
  (forall s x t s' t', x ∈ l -> body s x t = (Ok s', t') -> P s -> P s') -> P s'.
Proof.
  revert s t. induction l as [| x l IH]; simpl; intros s t Hrun Hs Hbody.
  - unfold ret in Hrun. by simplify_eq.
  - apply bind_ok in Hrun as (s1 & t1 & Hx & Hrun).
    apply (IH s1 t1); [done | |].
    + eapply Hbody; [| exact Hx | exact Hs]. left.
    + intros s2 y t2 s3 t3 Hy. apply Hbody. by right.
Qed.

Lemma fill_cell_spec size weights row g col t g' t' :
  wf_grid (Z.to_nat size) g -> 0 <= row < size -> 0 <= col < size ->
  fill_cell weights row g col t = (Ok g', t') ->
  wf_grid (Z.to_nat size) g' /\ grid_mono g g'.
Proof.
  intros Hwf Hrow Hcol. unfold fill_cell.
  destruct (grid_get g row col) as [[x |] |] eqn:Hget; unfold ret, raise;
    intros Hrun; [| | done].
  - simplify_eq. split; [done | apply grid_mono_refl].
  - apply bind_ok in Hrun as (x & t1 & _ & Hrun).
    destruct (grid_set_spec _ g row col (Some x) Hwf)
      as (g1 & Hset & Hwf1 & _ & Hother); [lia | lia |].
    rewrite Hset in Hrun. simplify_eq. split; [done |].
    intros r c y Hr Hc Hy. rewrite Hother; [done | done | done |].
    intros ?. simplify_eq.
Qed.

Lemma fill_grid_spec size dist g t g' t' :
  wf_grid (Z.to_nat size) g ->
  _fill_grid g size dist t = (Ok g', t') ->
  wf_grid (Z.to_nat size) g' /\ grid_mono g g'.
Proof.
  intros Hwf Hrun. unfold _fill_grid in Hrun.
  eapply (for_eachM_inv (fun g1 => wf_grid (Z.to_nat size) g1 /\ grid_mono g g1));
    [exact Hrun | split; [done | apply grid_mono_refl] |].
  intros g1 row t1 g2 t2 Hrow%elem_of_range Hinner Hg1.
  eapply (for_eachM_inv (fun g3 => wf_grid (Z.to_nat size) g3 /\ grid_mono g g3));
    [exact Hinner | done |].
  intros g3 col t3 g4 t4 Hcol%elem_of_range Hcell [Hwf3 Hmono3].
  destruct (fill_cell_spec size _ row g3 col t3 g4 t4 Hwf3 Hrow Hcol Hcell)
    as [Hwf4 Hmono4].
  split; [done |]. by eapply grid_mono_trans.
Qed.

(** ** The scan finds every placed word *)

Lemma check_word_finds size g row col dr dc :
  Forall (fun il : Z * string =>
            0 <= row + dr * il.1 < size /\ 0 <= col + dc * il.1 < size /\
            grid_get g (row + dr * il.1) (col + dc * il.1) = Some (Some il.2))
         word_letters ->
  _check_word_at_position g row col dr dc size
    = Ok (Some (line row col dr dc word_letters)).
Proof.
  rewrite word_letters_eq. intros Hall.
  apply Forall_cons in Hall as [(Hr0 & Hc0 & Hg0) Hall].
  apply Forall_cons in Hall as [(Hr1 & Hc1 & Hg1) Hall].
  apply Forall_cons in Hall as [(Hr2 & Hc2 & Hg2) Hall].
  apply Forall_cons in Hall as [(Hr3 & Hc3 & Hg3) _].
  simpl in *.
  unfold _check_word_at_position.
  change (range (Z.of_nat (String.length TARGET_WORD))) with [0; 1; 2; 3].
  cbn [check_word_loop].
  rewrite !(proj2 (in_bounds_spec _ _)) by done. cbn [andb negb].
  rewrite Hg0, Hg1, Hg2, Hg3. reflexivity.
Qed.

Lemma scan_step_keeps g size row col ms d ms' k :
  scan_step g size row col ms d = Ok ms' -> k ∈ map key ms -> k ∈ map key ms'.
Proof. intros Hstep. apply scan_step_keys in Hstep as (_ & Hkeep & _). apply Hkeep. Qed.

Lemma scan_finds_placed size mode g m r :
  placed_in size (_get_allowed_directions mode) g m ->
  length g = Z.to_nat size ->
  scan_grid g mode = Ok r ->
  key m ∈ map key (scan_matches r).
Proof.
  intros (row & col & dr & dc & _ & Hdir & Hrow & Hcol & Hcells & Hread) Hlen Hscan.
  unfold scan_grid in Hscan.
  replace (Z.of_nat (length g)) with size in Hscan by lia.
  destruct (for_each _ _ _) as [ms |] eqn:Hrun; simpl in Hscan; [| done].
  simplify_eq. simpl.
  set (Q := fun ms : list Match => key m ∈ map key ms).
  assert (forall r0 c0 ms1 ms2,
            for_each (_get_allowed_directions mode) (scan_step g size r0 c0) ms1
              = Ok ms2 -> Q ms1 -> Q ms2) as Hdirs_keep.
  { intros r0 c0 ms1 ms2 Hloop Hq.
    eapply (for_each_inv Q); [exact Hloop | exact Hq |].
    intros ms3 d ms4 _ Hstep Hq3. unfold Q in *. by eapply scan_step_keeps. }
  assert (forall r0 ms1 ms2,
            for_each (range size) (fun ms col =>
              for_each (_get_allowed_directions mode) (scan_step g size r0 col) ms)
              ms1 = Ok ms2 -> Q ms1 -> Q ms2) as Hcols_keep.
  { intros r0 ms1 ms2 Hloop Hq.
    eapply (for_each_inv Q); [exact Hloop | exact Hq |].
    intros ms3 c0 ms4 _. apply Hdirs_keep. }
  eapply (for_each_visit Q _ _ _ _ row); [exact Hrun | by apply elem_of_range | |].
  - intros ms1 ms2 Hrowloop.
    eapply (for_each_visit Q _ _ _ _ col);
      [exact Hrowloop | by apply elem_of_range | |].
    + intros ms3 ms4 Hcolloop.
      eapply (for_each_visit Q _ _ _ _ (direction m, (dr, dc)));
        [exact Hcolloop | exact Hdir | |].
      * intros ms5 ms6 Hstep. apply scan_step_keys in Hstep as (_ & _ & Hfound).
        unfold Q, key at 1, _normalize_match. rewrite Hcells. apply Hfound.
        simpl. by apply check_word_finds.
      * intros ms5 d ms6 Hstep Hq5. unfold Q in *. by eapply scan_step_keeps.
    + intros ms3 c0 ms4. apply Hdirs_keep.
  - intros ms1 r0 ms2. apply Hcols_keep.
Qed.

(** ** Without overlap the matches of a puzzle are the placed words *)

Lemma key_Permutation m : key m ≡ₚ cells m.
Proof. unfold key, _normalize_match, sorted. apply merge_sort_Permutation. Qed.

Lemma concat_key_Permutation ms :
  concat (map key ms) ≡ₚ concat (map cells ms).
Proof.
  induction ms as [| m ms IH]; simpl; [done |].
  by rewrite IH, (key_Permutation m).
Qed.

Lemma concat_Permutation {A} (ls ks : list (list A)) :
  ls ≡ₚ ks -> concat ls ≡ₚ concat ks.
Proof.
  induction 1 as [| l ls ks _ IH | l k ls | ls ks js _ IH1 _ IH2]; simpl.
  - done.
  - by rewrite IH.
  - rewrite !app_assoc. f_equiv. apply Permutation_app_comm.
  - by rewrite IH1.
Qed.

Lemma placed_keys_NoDup (ps : list Match) :
  NoDup (concat (map cells ps)) -> Forall (fun p => cells p <> []) ps ->
  NoDup (map key ps).
Proof.
  induction ps as [| p ps IH]; simpl; intros Hnd Hne; [constructor |].
  apply NoDup_app in Hnd as (_ & Hdisj & Hnd).
  apply Forall_cons in Hne as [Hp Hne].
  constructor; [| by apply IH].
  intros Hin. apply list_elem_of_In, in_map_iff in Hin as (q & Hkey & Hq).
  destruct (cells p) as [| x cs] eqn:Hcells; [done |].
  apply (Hdisj x); [left |].
  apply list_elem_of_In, in_concat. exists (cells q). split; [by apply in_map |].
  apply list_elem_of_In. rewrite <- (key_Permutation q), Hkey, (key_Permutation p).
  rewrite Hcells. left.
Qed.

Lemma NoDup_concat_disjoint {A} (ls : list (list A)) i j a b x :
  NoDup (concat ls) -> ls !! i = Some a -> ls !! j = Some b -> i <> j ->
  x ∈ a -> x ∉ b.
Proof.
  revert i j. induction ls as [| l ls IH]; intros i j Hnd Hi Hj Hne Ha Hb; [done |].
  simpl in Hnd. apply NoDup_app in Hnd as (_ & Hdisj & Hnd).
  assert (forall k c, ls !! k = Some c -> x ∈ c -> x ∈ concat ls) as Hin.
  { intros k c Hk Hc. apply list_elem_of_In, in_concat. exists c.
    split; [| by apply list_elem_of_In].
    apply list_elem_of_In. by eapply list_elem_of_lookup_2. }
  destruct i as [| i], j as [| j]; simpl in Hi, Hj; simplify_eq.
  - by eapply Hdisj, Hin.
  - by eapply Hdisj, Hin.
  - eapply (IH i j); eauto.
Qed.

(** What a successful attempt leaves: the placed words, still in the
    filled grid the scan has counted. *)
Lemma attempt_placed self size t dist allow mode s p s' :
  attempt self size t dist allow mode (_get_allowed_directions mode) s
    = (Ok (Some p), s') ->
  exists ps,
    placement_inv allow size (_get_allowed_directions mode) (grid p) ps /\
    length ps = Z.to_nat t.
Proof.
  intros Hrun. unfold attempt in Hrun.
  apply bind_ok in Hrun as ([g1 ps] & s1 & Hplace & Hrun).
  apply bind_ok in Hrun as (g2 & s2 & Hfill & Hrun).
  apply bind_ok in Hrun as (r & s3 & _ & Hrun).
  destruct (place_words_spec (Z.to_nat t) allow size (_get_allowed_directions mode)
              (_create_empty_grid size) [] s (allowed_directions_ok mode)
              (empty_grid_inv allow size _)) as (res & s1' & Hplace' & Hres).
  rewrite Hplace in Hplace'. injection Hplace' as <- <-.
  destruct Hres as ((Hwf & Hplaced & Hdisj) & Hlen & _).
  destruct (fill_grid_spec size dist g1 s1 g2 s2 Hwf Hfill) as [Hwf2 Hmono].
  destruct (count r =? t); unfold ret in Hrun; [| done].
  injection Hrun as <- <-. simpl.
  exists ps. split; [| done]. split; [done |]. split; [| done].
  eapply Forall_impl; [exact Hplaced |]. intros m. by apply placed_in_mono.
Qed.

(** C4. In every puzzle [generate_grid] returns with [allow_overlap] false,
    the cell lists of the matches are pairwise disjoint: no cell occurs twice
    in their concatenation, so no cell belongs to two different matches. *)
Theorem generate_grid_no_overlap_disjoint self size req dist mode s p s' :
  generate_grid self size req dist false mode s = (Ok p, s') ->
  NoDup (concat (map cells (matches p))) /\
  forall i j m1 m2 x,
    matches p !! i = Some m1 -> matches p !! j = Some m2 -> i <> j ->
    x ∈ cells m1 -> x ∉ cells m2.
Proof.
  intros Hgen.
  destruct (generate_grid_ok _ _ _ _ _ _ _ _ _ Hgen)
    as (t & s0 & s1 & r & _ & Hattempt & Hscan & Hcount & Hp).
  destruct (attempt_placed _ _ _ _ _ _ _ _ _ Hattempt)
    as (ps & (Hwf & Hplaced & Hdisj) & Hlen).
  specialize (Hdisj eq_refl).
  destruct (scan_grid_ok _ _ _ Hscan) as [Hrlen Hrnd].
  assert (matches p = scan_matches r) as Hms by (rewrite Hp; done).
  rewrite <- Hms in Hrlen, Hrnd.
  assert (NoDup (map key ps)) as Hpnd.
  { apply placed_keys_NoDup; [done |].
    eapply Forall_impl; [exact Hplaced |].
    intros m (row & col & dr & dc & _ & _ & _ & _ & Hcells & _) Hnil.
    rewrite Hcells in Hnil. discriminate Hnil. }
  assert (map key ps ≡ₚ map key (matches p)) as Hperm.
  { apply submseteq_length_Permutation.
    - apply NoDup_submseteq; [done |]. intros k Hk.
      apply list_elem_of_In, in_map_iff in Hk as (m & <- & Hm).
      rewrite Hms. eapply scan_finds_placed; [| apply Hwf | exact Hscan].
      rewrite Forall_forall in Hplaced. apply Hplaced. by apply list_elem_of_In.
    - rewrite !length_map. lia. }
  assert (NoDup (concat (map cells (matches p)))) as Hnd.
  { rewrite <- concat_key_Permutation, <- (concat_Permutation _ _ Hperm),
      concat_key_Permutation. done. }
  split; [done |].
  intros i j m1 m2 x Hi Hj Hne.
  apply (NoDup_concat_disjoint (map cells (matches p)) i j); [done | | | done].
  - change (map cells (matches p)) with (cells <$> matches p).
    by rewrite list_lookup_fmap, Hi.
  - change (map cells (matches p)) with (cells <$> matches p).
    by rewrite list_lookup_fmap, Hj.
Qed.

(** ** One stream for all engines *)

Lemma attempt_core e e' size t dist allow mode dirs s :
  (attempt e size t dist allow mode dirs s).2 =
    (attempt e' size t dist allow mode dirs s).2 /\
  map_result (option_map puzzle_core) (attempt e size t dist allow mode dirs s).1 =
    map_result (option_map puzzle_core) (attempt e' size t dist allow mode dirs s).1.
Proof.
  unfold attempt, bind.
  destruct (place_words _ _ _ _ _ _ s) as [[[g1 ps] | ex] s1]; [| done].
  destruct (_fill_grid g1 size dist s1) as [[g2 | ex] s2]; [| done].
  unfold lift. destruct (scan_grid g2 mode) as [r | ex]; [| done].
  destruct (count r =? t); done.
Qed.

Lemma retry_loop_core n (b b' : M (option Puzzle)) :
  (forall s, (b s).2 = (b' s).2 /\
             map_result (option_map puzzle_core) (b s).1 =
               map_result (option_map puzzle_core) (b' s).1) ->
  forall s, (retry_loop n b s).2 = (retry_loop n b' s).2 /\
            map_result puzzle_core (retry_loop n b s).1 =
              map_result puzzle_core (retry_loop n b' s).1.
Proof.
  intros Hb. induction n as [| n IH]; intros s; simpl; [done |].
  destruct (Hb s) as [Hs Hr].
  destruct (b s) as [[[p |] | ex] s1], (b' s) as [[[p' |] | ex'] s1'];
    simpl in *; simplify_eq; try done.
  - split; [done |]. unfold puzzle_core in *. congruence.
  - destruct ex'; done.
Qed.

Lemma generate_grid_core e e' size req dist allow mode s :
  map_result puzzle_core (generate_grid e size req dist allow mode s).1 =
  map_result puzzle_core (generate_grid e' size req dist allow mode s).1.
Proof.
  unfold generate_grid, bind.
  destruct (match req with
            | Exact n => ret n
            | Ranged lo hi => randint lo hi
            end s) as [[t | ex] s1]; [| done].
  apply retry_loop_core. intros s2. apply attempt_core.
Qed.

(** C9 (as the code has it). The stream is the one of the [random] module,
    shared by all engines. Constructing a second engine with a seed between
    the construction of the first and its [generate_grid] re-seeds that
    stream: the first engine then returns the grid, [true_count] and matches
    (or raises the exception) that a fresh engine with the second seed
    returns. It is therefore the result of the first engine's own seed
    exactly when fresh engines with the two seeds generate the same (as they
    do when the seeds are equal). A second engine constructed without a seed
    does not touch the stream and leaves the result of the first, and the
    stream after it, unchanged. *)
Theorem interleaved_engine_shares_stream s0 sd1 sd2 size req dist allow mode :
  map_result puzzle_core
    (interleaved_run s0 sd1 (Some sd2) size req dist allow mode).1 =
  map_result puzzle_core (fresh_run s0 sd2 size req dist allow mode).1 /\
  (map_result puzzle_core
     (interleaved_run s0 sd1 (Some sd2) size req dist allow mode).1 =
   map_result puzzle_core (fresh_run s0 sd1 size req dist allow mode).1 <->
   map_result puzzle_core (fresh_run s0 sd2 size req dist allow mode).1 =
   map_result puzzle_core (fresh_run s0 sd1 size req dist allow mode).1) /\
  interleaved_run s0 sd1 None size req dist allow mode =
  fresh_run s0 sd1 size req dist allow mode.
Proof.
  assert (map_result puzzle_core
            (interleaved_run s0 sd1 (Some sd2) size req dist allow mode).1 =
          map_result puzzle_core (fresh_run s0 sd2 size req dist allow mode).1)
    as Hshared.
  { unfold interleaved_run, fresh_run, __init__. apply generate_grid_core. }
  split; [exact Hshared |]. split; [by rewrite Hshared | reflexivity].
Qed.

End PlacementFacts.

(** ** The statements at sample inputs *)

Section Samples.

(** C9 as stated fails: on the digit generator, an engine seeded 0 fills a
    4 x 4 grid with F alone, but with U in the first cell once an engine
    seeded 1 has been constructed in between. *)
Lemma instances_not_isolated : ~ instances_isolated digits_runtime.
Proof.
  intros Hiso.
  specialize (Hiso 0 (SeedInt 0) (Some (SeedInt 1)) 4 (Exact 0) "even" true "all").
  vm_compute in Hiso. discriminate Hiso.
Qed.

Lemma two_rows_run :
  generate_grid (RT := digits_runtime) (mkEngine (Some 32)) 4 (Exact 2) "even" false
    "horizontal" 32 = (Ok two_rows_puzzle, 0).
Proof. vm_compute. reflexivity. Qed.


Lemma generate_grid_round_trip_witness :
  generate_grid (RT := digits_runtime) (mkEngine (Some 32)) 4 (Exact 2) "even" false
    "horizontal" 32 = (Ok two_rows_puzzle, 0) /\
  (Z.of_nat (length (matches two_rows_puzzle)) = true_count two_rows_puzzle /\
   exists r,
     scan_grid (grid two_rows_puzzle)
       (meta_directions_mode (metadata two_rows_puzzle)) = Ok r /\
     count r = true_count two_rows_puzzle /\
     scan_matches r = matches two_rows_puzzle).
Proof.
  split; [exact two_rows_run |].
  exact (generate_grid_round_trip (RT := digits_runtime) _ _ _ _ _ _ _ _ _
           two_rows_run).
Defined.

Lemma generate_grid_no_overlap_disjoint_witness :
  generate_grid (RT := digits_runtime) (mkEngine (Some 32)) 4 (Exact 2) "even" false
    "horizontal" 32 = (Ok two_rows_puzzle, 0) /\
  (NoDup (concat (map cells (matches two_rows_puzzle))) /\
   forall i j m1 m2 x,
     matches two_rows_puzzle !! i = Some m1 ->
     matches two_rows_puzzle !! j = Some m2 -> i <> j ->
     x ∈ cells m1 -> x ∉ cells m2).
Proof.
  split; [exact two_rows_run |].
  exact (generate_grid_no_overlap_disjoint (RT := digits_runtime) _ _ _ _ _ _ _ _
           two_rows_run).
Defined.


Lemma generate_grid_ranged_target_witness :
  1 <= 2 /\
  (let draw := @randbelow digits_runtime (2 + 1 - 1) 65 in
   let target := 1 + draw.1 in
   randint 1 2 65 = (Ok target, draw.2) /\
   1 <= target <= 2 /\
   generate_grid (mkEngine (Some 65)) 4 (Ranged 1 2) "even" false "horizontal" 65 =
     retry_loop max_retries
       (attempt (mkEngine (Some 65)) 4 target "even" false "horizontal"
          (_get_allowed_directions "horizontal")) draw.2 /\
   forall p s',
     generate_grid (mkEngine (Some 65)) 4 (Ranged 1 2) "even" false "horizontal" 65
       = (Ok p, s') ->
     true_count p = target /\ 1 <= true_count p <= 2).
Proof.
  split; [lia |].
  apply (generate_grid_ranged_target (RT := digits_runtime) (mkEngine (Some 65)) 4 1 2
           "even" false "horizontal" 65). lia.
Defined.

Lemma generate_grid_inverted_range_witness :
  1 < 3 /\
  (randint (RT := digits_runtime) 3 1 7 =
     (Raise (ValueError "empty range for randrange()"), 7) /\
   generate_grid (mkEngine (Some 7)) 10 (Ranged 3 1) "even" true "all" 7 =
     (Raise (ValueError "empty range for randrange()"), 7) /\
   forall msg s',
     generate_grid (mkEngine (Some 7)) 10 (Ranged 3 1) "even" true "all" 7 <>
       (Raise (RuntimeError msg), s')).
Proof.
  split; [lia |].
  apply (generate_grid_inverted_range (RT := digits_runtime) (mkEngine (Some 7)) 10 3 1
           "even" true "all" 7). lia.
Defined.

End Samples.

(** * Further properties of the engine *)

Section EngineSafety.
Context `{RT : PyRuntime}.

Lemma grid_fills_refl g : grid_fills g g.
Proof. intros r c _ _. by left. Qed.

Lemma grid_fills_trans g1 g2 g3 :
  grid_fills g1 g2 -> grid_fills g2 g3 -> grid_fills g1 g3.
Proof.
  intros H12 H23 r c Hr Hc.
  destruct (H23 r c Hr Hc) as [H3 | (H2 & x & Hx & H3)].
  - rewrite H3. by apply H12.
  - destruct (H12 r c Hr Hc) as [H1 | (_ & y & _ & H1)]; [| congruence].
    right. split; [congruence | eauto].
Qed.

Lemma grid_fills_letters g g' :
  grid_fills g g' -> letters_only g -> letters_only g'.
Proof.
  intros Hfill Hg r c x Hr Hc Hget.
  destruct (Hfill r c Hr Hc) as [Hsame | (_ & y & Hy & Hnew)].
  - rewrite Hsame in Hget. exact (Hg r c x Hr Hc Hget).
  - congruence.
Qed.

Lemma word_letters_alphabet il : il ∈ word_letters -> il.2 ∈ LETTERS.
Proof.
  rewrite word_letters_eq. intros Hil.
  repeat (apply elem_of_cons in Hil as [-> | Hil]);
    [.. | by apply elem_of_nil in Hil]; simpl;
    repeat first [apply list_elem_of_here | apply list_elem_of_further].
Qed.

(** What a successful iteration of [_place_word] has done. *)
Lemma place_try_success allow size dirs g ms s g' ms' s' :
  place_try g size dirs allow ms s = (Ok (Some (g', ms')), s') ->
  exists row col dir_name dr dc cs,
    dir_name ∈ keys dirs /\ dict_get dirs dir_name = Some (dr, dc) /\
    0 <= row < size /\ 0 <= col < size /\
    0 <= row + dr * 3 < size /\ 0 <= col + dc * 3 < size /\
    can_place_loop g row col dr dc allow word_letters [] = Ok (true, cs) /\
    write_word g row col dr dc word_letters = Ok g' /\
    ms' = ms ++ [mkMatch (row, col) dir_name cs].
Proof.
  unfold place_try. intros Hrun.
  apply bind_ok in Hrun as (row & s1 & Hrow & Hrun).
  apply bind_ok in Hrun as (col & s2 & Hcol & Hrun).
  apply bind_ok in Hrun as (dir_name & s3 & Hdir & Hrun).
  assert (forall v t v' t', randint 0 (size - 1) t = (Ok v, t') -> v' = v ->
                            0 <= v' < size) as Hdraw.
  { intros v t v' t' Hv ->.
    destruct (decide (size < 1)) as [Hsmall | Hbig].
    - rewrite randint_empty in Hv by lia. done.
    - destruct (randint_draws 0 (size - 1) t) as (k & t1 & Hk & Hbound); [lia |].
      rewrite Hk in Hv. simplify_eq. lia. }
  assert (dir_name ∈ keys dirs) as Hkey.
  { destruct (decide (keys dirs = [])) as [Hnil | Hne].
    - unfold choice in Hdir. rewrite Hnil in Hdir. done.
    - destruct (choice_draws (keys dirs) s2 Hne) as (x & t & Hx & Hin).
      rewrite Hx in Hdir. by simplify_eq. }
  destruct (dict_get dirs dir_name) as [[dr dc] |] eqn:Hget; [| done].
  change (Z.of_nat (String.length TARGET_WORD) - 1) with 3 in Hrun.
  change (enumerate (chars TARGET_WORD)) with word_letters in Hrun.
  destruct (in_bounds (row + dr * 3) size) eqn:Her; cbn [andb negb] in Hrun;
    [| done].
  destruct (in_bounds (col + dc * 3) size) eqn:Hec; cbn [andb negb] in Hrun;
    [| done].
  apply in_bounds_spec in Her, Hec.
  apply bind_ok in Hrun as ([can cs] & s4 & Hcan & Hrun).
  unfold lift in Hcan. destruct can; [| done].
  apply bind_ok in Hrun as (g1 & s5 & Hwrite & Hrun).
  unfold lift in Hwrite. unfold ret in Hrun. simplify_eq.
  exists row, col, dir_name, dr, dc, cs.
  repeat (split; [by eauto |]). done.
Qed.

Lemma placement_fills allow size g row col dr dc cs g' :
  wf_grid (Z.to_nat size) g ->
  -1 <= dr <= 1 -> -1 <= dc <= 1 -> dr <> 0 \/ dc <> 0 ->
  0 <= row < size -> 0 <= col < size ->
  0 <= row + dr * 3 < size -> 0 <= col + dc * 3 < size ->
  can_place_loop g row col dr dc allow word_letters [] = Ok (true, cs) ->
  write_word g row col dr dc word_letters = Ok g' ->
  wf_grid (Z.to_nat size) g' /\ grid_fills g g' /\
  cs = line row col dr dc word_letters.
Proof.
  intros Hwf Hdr Hdc Hnz Hrow Hcol Herow Hecol Hcan Hwrite.
  pose proof (line_in_bounds size row col dr dc Hrow Hcol Hdr Hdc Herow Hecol) as Hin.
  apply can_place_loop_true in Hcan as [-> Hfree].
  destruct (write_word_spec size g row col dr dc word_letters Hwf Hin
              (line_NoDup row col dr dc Hnz)) as (g2 & Hw2 & Hwf' & Hnew & Hrest).
  rewrite Hwrite in Hw2. simplify_eq. split; [done |]. split; [| done].
  intros r c Hr Hc.
  destruct (decide ((r, c) ∈ line row col dr dc word_letters)) as [Hon | Hoff].
  - apply elem_of_line in Hon as (il & Hil & Heq). simplify_eq.
    rewrite Forall_forall in Hfree, Hnew. rewrite (Hnew il Hil).
    destruct (Hfree il Hil) as [Hnone | [_ Hsame]]; [| by left].
    right. split; [done |]. exists il.2. split; [| done].
    by apply word_letters_alphabet.
  - left. by apply Hrest.
Qed.

Lemma place_try_fills allow size dirs g ms s g' ms' s' :
  dirs_ok dirs -> wf_grid (Z.to_nat size) g ->
  place_try g size dirs allow ms s = (Ok (Some (g', ms')), s') ->
  wf_grid (Z.to_nat size) g' /\ grid_fills g g'.
Proof.
  intros [_ Hkeys] Hwf Hrun.
  apply place_try_success in Hrun
    as (row & col & dir_name & dr & dc & cs & Hkey & Hget & Hrow & Hcol & Her & Hec
        & Hcan & Hwrite & _).
  destruct (Hkeys dir_name Hkey) as (dr' & dc' & Hget' & _ & Hdr & Hdc & Hnz).
  rewrite Hget in Hget'. simplify_eq.
  destruct (placement_fills allow size g row col dr' dc' cs g' Hwf Hdr Hdc Hnz
              Hrow Hcol Her Hec Hcan Hwrite) as (? & ? & _). done.
Qed.

Lemma place_word_loop_fills fuel allow size dirs g ms s b g' ms' s' :
  dirs_ok dirs -> wf_grid (Z.to_nat size) g ->
  place_word_loop fuel g size dirs allow ms s = (Ok (b, (g', ms')), s') ->
  wf_grid (Z.to_nat size) g' /\ grid_fills g g'.
Proof.
  intros Hdirs Hwf. revert s.
  induction fuel as [| fuel IH]; simpl; intros s Hrun.
  - unfold ret in Hrun. simplify_eq. split; [done | apply grid_fills_refl].
  - apply bind_ok in Hrun as (o & s1 & Htry & Hrun).
    destruct o as [[g1 ms1] |]; [| by eapply IH].
    unfold ret in Hrun. simplify_eq. by eapply place_try_fills.
Qed.

Lemma place_words_fills k allow size dirs g ms s g' ms' s' :
  dirs_ok dirs -> wf_grid (Z.to_nat size) g ->
  place_words k g size dirs allow ms s = (Ok (g', ms'), s') ->
  wf_grid (Z.to_nat size) g' /\ grid_fills g g'.
Proof.
  intros Hdirs. revert g ms s.
  induction k as [| k IH]; simpl; intros g ms s Hwf Hrun.
  - unfold ret in Hrun. simplify_eq. split; [done | apply grid_fills_refl].
  - apply bind_ok in Hrun as ([placed [g1 ms1]] & s1 & Hplace & Hrun).
    destruct placed; simpl in Hrun; [| done].
    destruct (place_word_loop_fills _ _ _ _ _ _ _ _ _ _ _ Hdirs Hwf Hplace)
      as [Hwf1 Hfill1].
    destruct (IH _ _ _ Hwf1 Hrun) as [Hwf' Hfill']. split; [done |].
    by eapply grid_fills_trans.
Qed.

(** ** The fill stage returns, and fills *)

Lemma for_eachM_total {A S} (P : S -> Prop) (Q : A -> S -> Prop) (l : list A)
    (body : S -> A -> M S) s t :
  P s ->
  (forall s x t, x ∈ l -> P s ->
     exists s' t', body s x t = (Ok s', t') /\ P s' /\ Q x s' /\
                   forall y, Q y s -> Q y s') ->
  exists s' t',
    for_eachM l body s t = (Ok s', t') /\ P s' /\
    (forall x, x ∈ l -> Q x s') /\ (forall y, Q y s -> Q y s').
Proof.
  revert s t. induction l as [| x l IH]; simpl; intros s t Hs Hbody.
  - exists s, t. unfold ret. split; [done |]. split; [done |].
    split; [| done]. intros x Hx. by apply elem_of_nil in Hx.
  - destruct (Hbody s x t) as (s1 & t1 & Hx & Hs1 & Hq & Hkeep); [left | done |].
    destruct (IH s1 t1 Hs1) as (s2 & t2 & Hrun & Hs2 & Hall & Hkeep2).
    { intros s3 y t3 Hy. apply Hbody. by right. }
    exists s2, t2. unfold bind. rewrite Hx. split; [done |]. split; [done |].
    split.
    + intros y Hy. apply elem_of_cons in Hy as [-> | Hy]; [by apply Hkeep2 | eauto].
    + intros y Hy. eauto.
Qed.

Lemma fill_weights_ok dist :
  fill_weights dist <> [] /\ forall x, x ∈ fill_weights dist -> x ∈ LETTERS.
Proof.
  unfold fill_weights. destruct (String.eqb dist "weighted"); (split; [done |]);
    intros x Hx; simpl in Hx;
    repeat (apply elem_of_cons in Hx as [-> | Hx]);
    try (by apply elem_of_nil in Hx);
    repeat first [apply list_elem_of_here | apply list_elem_of_further].
Qed.

Lemma fill_cell_total size dist row g col t :
  wf_grid (Z.to_nat size) g -> 0 <= row < size -> 0 <= col < size ->
  exists g' t',
    fill_cell (fill_weights dist) row g col t = (Ok g', t') /\
    wf_grid (Z.to_nat size) g' /\ grid_fills g g' /\
    exists x, grid_get g' row col = Some (Some x).
Proof.
  intros Hwf Hrow Hcol. unfold fill_cell.
  destruct (grid_get_total _ g row col Hwf) as [x Hget]; [lia | lia |].
  rewrite Hget. destruct x as [x |].
  - exists g, t. unfold ret. split; [done |]. split; [done |].
    split; [apply grid_fills_refl | eauto].
  - destruct (fill_weights_ok dist) as [Hne Hsub].
    destruct (choice_draws (fill_weights dist) t Hne) as (x & t1 & Hx & Hin).
    destruct (grid_set_spec _ g row col (Some x) Hwf)
      as (g1 & Hset & Hwf1 & Hsame & Hother); [lia | lia |].
    exists g1, t1. unfold bind, ret. rewrite Hx, Hset.
    split; [done |]. split; [done |]. split; [| eauto].
    intros r c Hr Hc. destruct (decide ((r, c) = (row, col))) as [Heq | Hne'].
    + simplify_eq. right. split; [done |]. exists x. split; [by apply Hsub | done].
    + left. by apply Hother.
Qed.

Lemma fill_grid_total size dist g t :
  wf_grid (Z.to_nat size) g ->
  exists g' t',
    _fill_grid g size dist t = (Ok g', t') /\
    wf_grid (Z.to_nat size) g' /\ grid_fills g g' /\
    forall r c, 0 <= r < size -> 0 <= c < size ->
                exists x, grid_get g' r c = Some (Some x).
Proof.
  intros Hwf. unfold _fill_grid.
  set (P := fun g0 (g1 : Grid) => wf_grid (Z.to_nat size) g1 /\ grid_fills g0 g1).
  set (Qcol := fun (r c : Z) (g1 : Grid) =>
                 0 <= r -> 0 <= c -> exists x, grid_get g1 r c = Some (Some x)).
  set (Qrow := fun (r : Z) (g1 : Grid) =>
                 forall c, 0 <= c < size -> Qcol r c g1).
  assert (forall g1 g2 r c, grid_fills g1 g2 -> Qcol r c g1 -> Qcol r c g2) as Hkeep.
  { intros g1 g2 r c Hf Hq Hr Hc. destruct (Hq Hr Hc) as [x Hx].
    destruct (Hf r c Hr Hc) as [-> | (? & ?)]; [eauto | congruence]. }
  destruct (for_eachM_total (P g) Qrow (range size)
              (fun g1 row => for_eachM (range size)
                               (fill_cell (fill_weights dist) row) g1) g t)
    as (g' & t' & Hrun & [Hwf' Hfill'] & Hall & _).
  { split; [done | apply grid_fills_refl]. }
  { intros g1 row t1 Hrow%elem_of_range [Hwf1 Hfill1].
    destruct (for_eachM_total (P g1) (Qcol row) (range size)
                (fill_cell (fill_weights dist) row) g1 t1)
      as (g2 & t2 & Hinner & [Hwf2 Hfill2] & Hcols & _).
    { split; [done | apply grid_fills_refl]. }
    { intros g3 col t3 Hcol%elem_of_range [Hwf3 Hfill3].
      destruct (fill_cell_total size dist row g3 col t3 Hwf3 Hrow Hcol)
        as (g4 & t4 & Hcell & Hwf4 & Hfill4 & Hfilled).
      exists g4, t4. split; [done |]. split.
      { split; [done | by eapply grid_fills_trans]. }
      split; [by intros _ _ |]. intros y. by apply Hkeep. }
    exists g2, t2. split; [done |]. split.
    { split; [done | by eapply grid_fills_trans]. }
    split.
    - intros c Hc. apply Hcols. by apply elem_of_range.
    - intros y Hy c Hc. eapply Hkeep; [exact Hfill2 | by apply Hy]. }
  exists g', t'. split; [done |]. split; [done |]. split; [done |].
  intros r c Hr Hc. apply (Hall r); [by apply elem_of_range | done | lia | lia].
Qed.

Lemma letter_grid_intro size g :
  wf_grid (Z.to_nat size) g -> letters_only g ->
  (forall r c, 0 <= r < size -> 0 <= c < size ->
               exists x, grid_get g r c = Some (Some x)) ->
  letter_grid (Z.to_nat size) g /\ full_grid g.
Proof.
  intros [Hlen Hrows] Hletters Hfull.
  assert (forall i row j (c : cell),
            g !! i = Some row -> row !! j = Some c ->
            exists x, c = Some x /\ x ∈ LETTERS) as Hcell.
  { intros i row j c Hi Hj.
    assert (length row = Z.to_nat size) as Hrow.
    { rewrite Forall_lookup in Hrows. eauto. }
    apply lookup_lt_Some in Hi as Hi', Hj as Hj'.
    assert (grid_get g (Z.of_nat i) (Z.of_nat j) = Some c) as Hget.
    { unfold grid_get. rewrite py_index_nonneg, Nat2Z.id, Hi by lia.
      rewrite py_index_nonneg, Nat2Z.id by lia. done. }
    destruct (Hfull (Z.of_nat i) (Z.of_nat j)) as [x Hx]; [lia | lia |].
    exists x. split; [congruence |].
    apply (Hletters (Z.of_nat i) (Z.of_nat j)); [lia | lia | done]. }
  split.
  - split; [done |]. apply Forall_lookup. intros i row Hi. split.
    + rewrite Forall_lookup in Hrows. eauto.
    + apply Forall_lookup. intros j c Hj. eauto.
  - apply Forall_lookup. intros i row Hi. apply Forall_lookup. intros j c Hj.
    destruct (Hcell i row j c Hi Hj) as (x & -> & _). eauto.
Qed.

Lemma empty_grid_letters size : letters_only (_create_empty_grid size).
Proof.
  intros r c x Hr Hc Hget. unfold grid_get, _create_empty_grid in Hget.
  rewrite py_index_nonneg in Hget by done.
  destruct (replicate _ _ !! Z.to_nat r) as [row |] eqn:Hrow; [| done].
  apply lookup_replicate in Hrow as [-> _].
  rewrite py_index_nonneg in Hget by done.
  apply lookup_replicate in Hget as [? _]. done.
Qed.

(** ** Every attempt ends in a puzzle, a miss or a [ValueError] *)

Lemma attempt_outcome self size t dist allow mode s :
  exists s',
    (exists p,
       attempt self size t dist allow mode (_get_allowed_directions mode) s
         = (Ok (Some p), s') /\
       letter_grid (Z.to_nat size) (grid p)) \/
    attempt self size t dist allow mode (_get_allowed_directions mode) s
      = (Ok None, s') \/
    exists msg,
      attempt self size t dist allow mode (_get_allowed_directions mode) s
        = (Raise (ValueError msg), s').
Proof.
  unfold attempt, bind.
  destruct (place_words_spec (Z.to_nat t) allow size (_get_allowed_directions mode)
              (_create_empty_grid size) [] s (allowed_directions_ok mode)
              (empty_grid_inv allow size _)) as (res & s1 & Hplace & Hres).
  rewrite Hplace. destruct res as [[g1 ms] | e].
  - destruct Hres as ((Hwf1 & _) & _).
    destruct (place_words_fills _ _ _ _ _ _ _ _ _ _ (allowed_directions_ok mode)
                (proj1 (empty_grid_inv allow size (_get_allowed_directions mode)))
                Hplace) as [_ Hfill1].
    destruct (fill_grid_total size dist g1 s1 Hwf1)
      as (g2 & s2 & -> & Hwf2 & Hfill2 & Hfull).
    assert (letters_only g2) as Hletters.
    { eapply grid_fills_letters; [exact Hfill2 |].
      eapply grid_fills_letters; [exact Hfill1 | apply empty_grid_letters]. }
    destruct (letter_grid_intro size g2 Hwf2 Hletters Hfull) as [Hlg Hfg].
    destruct (scan_grid_total _ g2 mode Hwf2 Hfg) as [r Hscan].
    unfold lift, ret. rewrite Hscan. exists s2.
    destruct (count r =? t); [left | right; by left].
    eexists. split; [reflexivity | done].
  - destruct Hres as [msg ->]. exists s1. right. right. eauto.
Qed.

Lemma retry_loop_outcome (P : Puzzle -> Prop) n (body : M (option Puzzle)) :
  (forall s, exists s',
     (exists p, body s = (Ok (Some p), s') /\ P p) \/
     body s = (Ok None, s') \/
     exists msg, body s = (Raise (ValueError msg), s')) ->
  forall s, exists s',
    (exists p, retry_loop n body s = (Ok p, s') /\ P p) \/
    retry_loop n body s = (Raise (RuntimeError capacity_message), s').
Proof.
  intros Hbody. induction n as [| n IH]; intros s; simpl.
  - exists s. by right.
  - destruct (Hbody s) as (s1 & [(p & -> & Hp) | [-> | (msg & ->)]]).
    + exists s1. left. eauto.
    + apply IH.
    + apply IH.
Qed.

Lemma generate_grid_ends self size req dist allow mode s :
  exists s',
    (exists p, generate_grid self size req dist allow mode s = (Ok p, s')) \/
    generate_grid self size req dist allow mode s
      = (Raise (RuntimeError capacity_message), s') \/
    (exists lo hi,
       req = Ranged lo hi /\ hi < lo /\
       generate_grid self size req dist allow mode s
         = (Raise (ValueError "empty range for randrange()"), s')).
Proof.
  assert (forall t s0, exists s',
            (exists p, generate_grid self size (Exact t) dist allow mode s0
                         = (Ok p, s')) \/
            generate_grid self size (Exact t) dist allow mode s0
              = (Raise (RuntimeError capacity_message), s')) as Hexact.
  { intros t s0. rewrite generate_grid_exact.
    destruct (retry_loop_outcome (fun _ => True) max_retries
                (attempt self size t dist allow mode (_get_allowed_directions mode)))
      with (s := s0) as (s' & [(p & Hp & _) | Hfail]).
    - intros s1.
      destruct (attempt_outcome self size t dist allow mode s1)
        as (s2 & [(p & Hp & _) | [Hn | Hv]]); exists s2; eauto.
    - exists s'. left. eauto.
    - exists s'. by right. }
  destruct req as [t | lo hi].
  - destruct (Hexact t s) as (s' & [Hok | Hfail]); exists s'; eauto.
  - assert (forall t s1, randint lo hi s = (Ok t, s1) ->
              generate_grid self size (Ranged lo hi) dist allow mode s =
              generate_grid self size (Exact t) dist allow mode s1) as Hdrawn.
    { intros t s1 Hdraw. rewrite generate_grid_exact.
      unfold generate_grid, bind. rewrite Hdraw. reflexivity. }
    destruct (decide (hi < lo)) as [Hinv | Hle].
    + exists s. right. right. exists lo, hi. split; [done |]. split; [done |].
      unfold generate_grid, bind. by rewrite randint_empty.
    + destruct (randint_draws lo hi s) as (t & s1 & Hdraw & _); [lia |].
      rewrite (Hdrawn t s1 Hdraw).
      destruct (Hexact t s1) as (s' & [Hok | Hfail]); exists s'; eauto.
Qed.

Lemma generate_grid_shape self size req dist allow mode s p s' :
  generate_grid self size req dist allow mode s = (Ok p, s') ->
  letter_grid (Z.to_nat size) (grid p).
Proof.
  intros Hgen.
  destruct (generate_grid_ok _ _ _ _ _ _ _ _ _ Hgen)
    as (t & s0 & s1 & r & _ & Hattempt & _).
  destruct (attempt_outcome self size t dist allow mode s1)
    as (s2 & [(q & Hq & Hgrid) | [Hn | (msg & Hv)]]); rewrite Hattempt in *.
  - by simplify_eq.
  - done.
  - done.
Qed.

(** X1. [generate_grid] ends in one of three ways only: it returns a
    puzzle, it raises the [RuntimeError] of the exhausted retry loop, or, for
    a range with [min > max], it raises the [ValueError] of the range draw.
    No [IndexError], [KeyError] or [TypeError] escapes it, for any size, count,
    modes and stream. *)
Theorem generate_grid_outcomes self size req dist allow mode s :
  exists s',
    (exists p, generate_grid self size req dist allow mode s = (Ok p, s')) \/
    generate_grid self size req dist allow mode s
      = (Raise (RuntimeError capacity_message), s') \/
    (exists lo hi,
       req = Ranged lo hi /\ hi < lo /\
       generate_grid self size req dist allow mode s
         = (Raise (ValueError "empty range for randrange()"), s')).
Proof. apply generate_grid_ends. Qed.

(** X2. The grid of every puzzle [generate_grid] returns has [size] rows
    of [size] cells, and every cell holds one of the letters F, U, C, K: no
    cell is left empty. *)
Theorem generate_grid_letter_grid self size req dist allow mode s p s' :
  generate_grid self size req dist allow mode s = (Ok p, s') ->
  letter_grid (Z.to_nat size) (grid p).
Proof. apply generate_grid_shape. Qed.

(** ** Counts and sizes no grid can satisfy *)

Lemma allowed_directions_unit mode d :
  d ∈ _get_allowed_directions mode ->
  -1 <= d.2.1 <= 1 /\ -1 <= d.2.2 <= 1 /\ (d.2.1 <> 0 \/ d.2.2 <> 0).
Proof.
  unfold _get_allowed_directions. intros Hd.
  destruct (String.eqb mode "horizontal"); [| destruct (String.eqb mode "horiz_vert")];
    simpl in Hd;
    repeat (apply elem_of_cons in Hd as [-> | Hd]);
    try (by apply elem_of_nil in Hd); simpl; lia.
Qed.

Lemma generate_grid_exact_ok self size t dist allow mode s p s' :
  generate_grid self size (Exact t) dist allow mode s = (Ok p, s') ->
  exists s1 ps,
    attempt self size t dist allow mode (_get_allowed_directions mode) s1
      = (Ok (Some p), s') /\
    placement_inv allow size (_get_allowed_directions mode) (grid p) ps /\
    length ps = Z.to_nat t /\
    true_count p = t /\ 0 <= t /\
    metadata p = mkMeta size dist allow mode (seed self).
Proof.
  intros Hgen.
  destruct (generate_grid_ok _ _ _ _ _ _ _ _ _ Hgen)
    as (t' & s0 & s1 & r & [-> ->] & Hattempt & Hscan & Hcount & Hp).
  destruct (attempt_placed _ _ _ _ _ _ _ _ _ Hattempt) as (ps & Hinv & Hlen).
  destruct (scan_grid_ok _ _ _ Hscan) as [Hrlen _].
  exists s1, ps. split; [done |]. split; [done |]. split; [done |].
  split; [by rewrite Hp |]. split; [lia | by rewrite Hp].
Qed.

(** X3. A negative count is not refused at the start: the attempts place
    no word, no scan can count a negative number, and after 25 attempts
    [generate_grid] raises the [RuntimeError] of the exhausted retry loop. *)
Theorem generate_grid_negative_count self size t dist allow mode s :
  t < 0 ->
  exists s',
    generate_grid self size (Exact t) dist allow mode s
      = (Raise (RuntimeError capacity_message), s').
Proof.
  intros Hneg.
  destruct (generate_grid_ends self size (Exact t) dist allow mode s)
    as (s' & [[p Hp] | [Hfail | (lo & hi & Hreq & _)]]); [| eauto | done].
  apply generate_grid_exact_ok in Hp as (_ & _ & _ & _ & _ & _ & Ht & _). lia.
Qed.

(** X4. On a grid of size below 4 no word fits: with a count of at least
    one, [generate_grid] always raises the [RuntimeError] of the exhausted
    retry loop, for sizes 1 to 3 because every draw leaves the grid, and for
    a size of zero or less because the [ValueError] of the empty coordinate
    range is swallowed by the retry loop. *)
Theorem generate_grid_too_small self size t dist allow mode s :
  size < 4 -> 1 <= t ->
  exists s',
    generate_grid self size (Exact t) dist allow mode s
      = (Raise (RuntimeError capacity_message), s').
Proof.
  intros Hsize Ht.
  destruct (generate_grid_ends self size (Exact t) dist allow mode s)
    as (s' & [[p Hp] | [Hfail | (lo & hi & Hreq & _)]]); [| eauto | done].
  apply generate_grid_exact_ok in Hp as (_ & ps & _ & (_ & Hplaced & _) & Hlen & _).
  destruct ps as [| m ps]; [simpl in Hlen; lia |].
  apply Forall_cons in Hplaced
    as [(row & col & dr & dc & _ & Hdir & Hrow & Hcol & _ & Hcells) _].
  apply allowed_directions_unit in Hdir. simpl in Hdir.
  rewrite word_letters_eq in Hcells.
  do 3 apply Forall_cons in Hcells as [_ Hcells].
  apply Forall_cons in Hcells as [(Hr & Hc & _) _]. simpl in Hr, Hc. lia.
Qed.

(** X5. Without overlap, a count [t] with [4 * t > size * size] can never be
    placed (the words would need more cells than the grid has):
    [generate_grid] raises the [RuntimeError] of the exhausted retry loop
    whatever the stream gives. *)
Theorem generate_grid_no_overlap_capacity self size t dist mode s :
  size * size < 4 * t ->
  exists s',
    generate_grid self size (Exact t) dist false mode s
      = (Raise (RuntimeError capacity_message), s').
Proof.
  intros Hcap.
  destruct (generate_grid_ends self size (Exact t) dist false mode s)
    as (s' & [[p Hp] | [Hfail | (lo & hi & Hreq & _)]]); [| eauto | done].
  apply generate_grid_exact_ok in Hp as (_ & ps & _ & Hinv & Hlen & _).
  apply placement_capacity in Hinv. nia.
Qed.

Lemma retry_loop_first n (body : M (option Puzzle)) s p s' :
  body s = (Ok (Some p), s') -> retry_loop (S n) body s = (Ok p, s').
Proof. intros Hbody. simpl. by rewrite Hbody. Qed.

(** X6. A size of zero or less with a count of zero is not an error: the
    call returns at once, drawing nothing, a puzzle with an empty grid and no
    match. *)
Theorem generate_grid_empty_grid self size dist allow mode s :
  size <= 0 ->
  generate_grid self size (Exact 0) dist allow mode s =
    (Ok (mkPuzzle [] 0 [] (mkMeta size dist allow mode (seed self))), s).
Proof.
  intros Hsize. rewrite generate_grid_exact.
  assert (Z.to_nat size = 0%nat) as Hnat by lia.
  assert (_create_empty_grid size = []) as Hempty.
  { unfold _create_empty_grid. by rewrite Hnat. }
  assert (_fill_grid [] size dist s = (Ok [], s)) as Hfill.
  { unfold _fill_grid, range. by rewrite Hnat. }
  assert (scan_grid [] mode = Ok (mkScan 0 [])) as Hscan by reflexivity.
  apply retry_loop_first.
  unfold attempt, bind. rewrite Hempty.
  change (place_words (Z.to_nat 0) [] size (_get_allowed_directions mode) allow [] s)
    with (@ret RT _ (@nil (list cell), @nil Match) s).
  unfold ret at 1. rewrite Hfill. unfold lift. rewrite Hscan. reflexivity.
Qed.

End EngineSafety.

(** * Further properties of the scanner *)

Section ScannerMore.

Lemma string_append_assoc (a b c : string) :
  String.append (String.append a b) c = String.append a (String.append b c).
Proof.
  induction a as [| x a IH]; [reflexivity |].
  change (String x (String.append (String.append a b) c)
          = String x (String.append a (String.append b c))).
  by rewrite IH.
Qed.

Lemma string_append_nil_r (a : string) : String.append a "" = a.
Proof.
  induction a as [| x a IH]; [reflexivity |].
  change (String x (String.append a "") = String x a). by rewrite IH.
Qed.

(** What [_check_word_at_position] has seen when it returns cells. *)
Lemma check_word_loop_some g row col dr dc size idx acc word cs :
  check_word_loop g row col dr dc size idx acc word = Ok (Some cs) ->
  exists w,
    cs = acc ++ map (fun i => (row + dr * i, col + dc * i)) idx /\
    Forall (fun x : coord => 0 <= x.1 < size /\ 0 <= x.2 < size)
      (map (fun i => (row + dr * i, col + dc * i)) idx) /\
    read_cells g (map (fun i => (row + dr * i, col + dc * i)) idx) = Some w /\
    String.append word w = TARGET_WORD.
Proof.
  revert acc word. induction idx as [| i idx IH]; simpl; intros acc word Hrun.
  - exists "". rewrite app_nil_r, string_append_nil_r.
    destruct (String.eqb_spec word TARGET_WORD); [| done]. simplify_eq.
    split; [done |]. split; [constructor |]. done.
  - destruct (in_bounds (row + dr * i) size) eqn:Hr; simpl in Hrun; [| done].
    destruct (in_bounds (col + dc * i) size) eqn:Hc; simpl in Hrun; [| done].
    apply in_bounds_spec in Hr, Hc.
    destruct (grid_get g (row + dr * i) (col + dc * i)) as [[x |] |] eqn:Hget;
      [| done | done].
    destruct (IH _ _ Hrun) as (w & -> & Hin & Hread & Hword).
    exists (String.append x w). rewrite <- app_assoc, Hread.
    rewrite <- string_append_assoc. split; [done |].
    split; [by constructor |]. done.
Qed.

(** Conversely: what it returns on cells that lie in the grid. *)
Lemma check_word_loop_reads g row col dr dc size idx acc word w :
  Forall (fun x : coord => 0 <= x.1 < size /\ 0 <= x.2 < size)
    (map (fun i => (row + dr * i, col + dc * i)) idx) ->
  read_cells g (map (fun i => (row + dr * i, col + dc * i)) idx) = Some w ->
  check_word_loop g row col dr dc size idx acc word =
    Ok (if String.eqb (String.append word w) TARGET_WORD
        then Some (acc ++ map (fun i => (row + dr * i, col + dc * i)) idx)
        else None).
Proof.
  revert acc word w. induction idx as [| i idx IH]; simpl; intros acc word w Hin Hread.
  - simplify_eq. by rewrite app_nil_r, string_append_nil_r.
  - apply Forall_cons in Hin as [[Hr Hc] Hin]. simpl in Hr, Hc.
    rewrite !(proj2 (in_bounds_spec _ _)) by done. simpl.
    destruct (grid_get g (row + dr * i) (col + dc * i)) as [[x |] |]; [| done | done].
    destruct (read_cells g _) as [w' |] eqn:Hread'; [| done]. simplify_eq.
    rewrite (IH _ _ w' Hin eq_refl), <- app_assoc, string_append_assoc. done.
Qed.

Lemma line_range row col dr dc :
  map (fun i => (row + dr * i, col + dc * i))
    (range (Z.of_nat (String.length TARGET_WORD)))
  = line row col dr dc word_letters.
Proof. reflexivity. Qed.

Lemma check_word_sound g row col dr dc size cs :
  _check_word_at_position g row col dr dc size = Ok (Some cs) ->
  cs = line row col dr dc word_letters /\
  Forall (fun x : coord => 0 <= x.1 < size /\ 0 <= x.2 < size) cs /\
  read_cells g cs = Some TARGET_WORD.
Proof.
  unfold _check_word_at_position. intros Hrun.
  apply check_word_loop_some in Hrun as (w & -> & Hin & Hread & Hword).
  change (w = TARGET_WORD) in Hword. subst w. rewrite line_range in *. done.
Qed.

Lemma check_word_complete g row col dr dc size :
  Forall (fun x : coord => 0 <= x.1 < size /\ 0 <= x.2 < size)
    (line row col dr dc word_letters) ->
  read_cells g (line row col dr dc word_letters) = Some TARGET_WORD ->
  _check_word_at_position g row col dr dc size
    = Ok (Some (line row col dr dc word_letters)).
Proof.
  intros Hin Hread. unfold _check_word_at_position.
  rewrite <- line_range in Hin, Hread.
  rewrite (check_word_loop_reads _ _ _ _ _ _ _ _ _ _ Hin Hread).
  rewrite line_range. reflexivity.
Qed.

Lemma scan_step_sound g size row col dirs ms d ms' :
  d ∈ dirs -> scan_step g size row col ms d = Ok ms' ->
  Forall (reads_word size dirs g) ms -> Forall (reads_word size dirs g) ms'.
Proof.
  destruct d as [dir_name [dr dc]]. unfold scan_step. intros Hd Hstep Hms.
  destruct (_check_word_at_position g row col dr dc size) as [[cs |] | e] eqn:Hcheck;
    simpl in Hstep; [| by simplify_eq | done].
  destruct (negb _); simplify_eq; [| done].
  apply Forall_app. split; [done |]. constructor; [| constructor].
  apply check_word_sound in Hcheck as (-> & Hin & Hread).
  exists row, col, dr, dc. done.
Qed.

Lemma scan_sound (g : Grid) (mode : string) r :
  scan_grid g mode = Ok r ->
  Forall (reads_word (Z.of_nat (length g)) (_get_allowed_directions mode) g)
    (scan_matches r).
Proof.
  unfold scan_grid. intros Hscan.
  destruct (for_each _ _ _) as [ms |] eqn:Hrun; simpl in Hscan; [| done].
  simplify_eq. simpl.
  set (P := Forall (reads_word (Z.of_nat (length g)) (_get_allowed_directions mode) g)).
  eapply (for_each_inv P); [exact Hrun | constructor |].
  intros ms1 row ms2 _ Hrow Hms1.
  eapply (for_each_inv P); [exact Hrow | exact Hms1 |].
  intros ms3 col ms4 _ Hcol Hms3.
  eapply (for_each_inv P); [exact Hcol | exact Hms3 |].
  intros ms5 d ms6 Hd Hstep. by eapply scan_step_sound.
Qed.

(** X8. Every match [scan_grid] returns is a reading of the word: its
    cells are the four cells from its start along its direction, one of the
    directions of the mode; they lie inside the grid; and the strings of those
    cells, in that order, spell the target word. *)
Theorem scan_grid_sound (g : Grid) (mode : string) r :
  scan_grid g mode = Ok r ->
  Forall (reads_word (Z.of_nat (length g)) (_get_allowed_directions mode) g)
    (scan_matches r).
Proof. apply scan_sound. Qed.

Lemma scan_finds g mode r row col dir_name dr dc cs :
  scan_grid g mode = Ok r ->
  0 <= row < Z.of_nat (length g) -> 0 <= col < Z.of_nat (length g) ->
  (dir_name, (dr, dc)) ∈ _get_allowed_directions mode ->
  _check_word_at_position g row col dr dc (Z.of_nat (length g)) = Ok (Some cs) ->
  sorted cs ∈ map key (scan_matches r).
Proof.
  intros Hscan Hrow Hcol Hdir Hcheck. unfold scan_grid in Hscan.
  set (size := Z.of_nat (length g)) in *.
  destruct (for_each _ _ _) as [ms |] eqn:Hrun; simpl in Hscan; [| done].
  simplify_eq. simpl.
  set (Q := fun ms : list Match => sorted cs ∈ map key ms).
  assert (forall r0 c0 ms1 ms2,
            for_each (_get_allowed_directions mode) (scan_step g size r0 c0) ms1
              = Ok ms2 -> Q ms1 -> Q ms2) as Hdirs_keep.
  { intros r0 c0 ms1 ms2 Hloop Hq.
    eapply (for_each_inv Q); [exact Hloop | exact Hq |].
    intros ms3 d ms4 _ Hstep Hq3. unfold Q in *. by eapply scan_step_keeps. }
  assert (forall r0 ms1 ms2,
            for_each (range size) (fun ms col =>
              for_each (_get_allowed_directions mode) (scan_step g size r0 col) ms)
              ms1 = Ok ms2 -> Q ms1 -> Q ms2) as Hcols_keep.
  { intros r0 ms1 ms2 Hloop Hq.
    eapply (for_each_inv Q); [exact Hloop | exact Hq |].
    intros ms3 c0 ms4 _. apply Hdirs_keep. }
  eapply (for_each_visit Q _ _ _ _ row); [exact Hrun | by apply elem_of_range | |].
  - intros ms1 ms2 Hrowloop.
    eapply (for_each_visit Q _ _ _ _ col);
      [exact Hrowloop | by apply elem_of_range | |].
    + intros ms3 ms4 Hcolloop.
      eapply (for_each_visit Q _ _ _ _ (dir_name, (dr, dc)));
        [exact Hcolloop | exact Hdir | |].
      * intros ms5 ms6 Hstep. apply scan_step_keys in Hstep as (_ & _ & Hfound).
        by apply Hfound.
      * intros ms5 d ms6 Hstep Hq5. unfold Q in *. by eapply scan_step_keeps.
    + intros ms3 c0 ms4. apply Hdirs_keep.
  - intros ms1 r0 ms2. apply Hcols_keep.
Qed.

Lemma word_letters_first il rest : word_letters = il :: rest -> il.1 = 0.
Proof. rewrite word_letters_eq. intros ?. by simplify_eq. Qed.

Lemma reads_word_found g mode r dirs m :
  scan_grid g mode = Ok r ->
  reads_word (Z.of_nat (length g)) dirs g m ->
  (forall d, d ∈ dirs -> d ∈ _get_allowed_directions mode) ->
  key m ∈ map key (scan_matches r).
Proof.
  intros Hscan (row & col & dr & dc & _ & Hdir & Hcells & Hin & Hread) Hsub.
  rewrite Hcells in Hin, Hread.
  assert (0 <= row < Z.of_nat (length g) /\ 0 <= col < Z.of_nat (length g))
    as [Hrow Hcol].
  { pose proof Hin as Hin0. rewrite word_letters_eq in Hin0.
    apply Forall_cons in Hin0 as [[H1 H2] _]. simpl in H1, H2. lia. }
  unfold key, _normalize_match. rewrite Hcells.
  apply (scan_finds g mode r row col (direction m) dr dc);
    [exact Hscan | exact Hrow | exact Hcol | by apply Hsub |].
  by apply check_word_complete.
Qed.

(** X9. The scan misses no reading: wherever four cells inside the grid,
    taken from a start cell along a direction of the mode, spell the target
    word, the result has a match on those same four cells (a match whose
    sorted cells are theirs). *)
Theorem scan_grid_complete (g : Grid) (mode : string) r row col dir_name dr dc :
  scan_grid g mode = Ok r ->
  (dir_name, (dr, dc)) ∈ _get_allowed_directions mode ->
  Forall (fun x : coord => 0 <= x.1 < Z.of_nat (length g) /\
                           0 <= x.2 < Z.of_nat (length g))
    (line row col dr dc word_letters) ->
  read_cells g (line row col dr dc word_letters) = Some TARGET_WORD ->
  exists m,
    m ∈ scan_matches r /\
    sorted (cells m) = sorted (line row col dr dc word_letters).
Proof.
  intros Hscan Hdir Hin Hread.
  assert (key (mkMatch (row, col) dir_name (line row col dr dc word_letters))
            ∈ map key (scan_matches r)) as Hkey.
  { eapply (reads_word_found g mode r (_get_allowed_directions mode));
      [exact Hscan | | done].
    exists row, col, dr, dc. done. }
  apply list_elem_of_In, in_map_iff in Hkey as (m & Hm & Hin').
  exists m. split; [by apply list_elem_of_In | exact Hm].
Qed.

Lemma scan_modes_le g mode1 mode2 r1 r2 :
  (forall d, d ∈ _get_allowed_directions mode1 -> d ∈ _get_allowed_directions mode2) ->
  scan_grid g mode1 = Ok r1 -> scan_grid g mode2 = Ok r2 ->
  count r1 <= count r2.
Proof.
  intros Hsub H1 H2.
  destruct (scan_grid_ok _ _ _ H1) as [-> Hnd1].
  destruct (scan_grid_ok _ _ _ H2) as [-> _].
  assert (map key (scan_matches r1) ⊆+ map key (scan_matches r2)) as Hincl.
  { apply NoDup_submseteq; [done |]. intros k Hk.
    apply list_elem_of_In, in_map_iff in Hk as (m & <- & Hm).
    pose proof (scan_sound g mode1 r1 H1) as Hsound.
    rewrite Forall_forall in Hsound.
    eapply reads_word_found; [exact H2 | | exact Hsub].
    apply Hsound. by apply list_elem_of_In. }
  apply submseteq_length in Hincl. rewrite !length_map in Hincl. lia.
Qed.

Lemma horizontal_in_horiz_vert d :
  d ∈ _get_allowed_directions "horizontal" -> d ∈ _get_allowed_directions "horiz_vert".
Proof.
  intros Hd. vm_compute in Hd. vm_compute.
  repeat (apply elem_of_cons in Hd as [-> | Hd]); [.. | by apply elem_of_nil in Hd];
    repeat first [apply list_elem_of_here | apply list_elem_of_further].
Qed.

Lemma horiz_vert_in_all d :
  d ∈ _get_allowed_directions "horiz_vert" -> d ∈ _get_allowed_directions "all".
Proof.
  intros Hd. vm_compute in Hd. vm_compute.
  repeat (apply elem_of_cons in Hd as [-> | Hd]); [.. | by apply elem_of_nil in Hd];
    repeat first [apply list_elem_of_here | apply list_elem_of_further].
Qed.

(** X10. Allowing more directions never loses a match: on one grid the
    count for mode [horizontal] is at most the count for [horiz_vert], which
    is at most the count for [all]. *)
Theorem scan_grid_modes_monotone (g : Grid) rh rhv rall :
  scan_grid g "horizontal" = Ok rh ->
  scan_grid g "horiz_vert" = Ok rhv ->
  scan_grid g "all" = Ok rall ->
  count rh <= count rhv <= count rall.
Proof.
  intros Hh Hhv Hall. split.
  - eapply scan_modes_le; [exact horizontal_in_horiz_vert | exact Hh | exact Hhv].
  - eapply scan_modes_le; [exact horiz_vert_in_all | exact Hhv | exact Hall].
Qed.

(** X11. A grid with fewer than 4 rows has no room for the word: a scan
    that returns reports no match at all. *)
Theorem scan_grid_small (g : Grid) (mode : string) r :
  (length g < 4)%nat -> scan_grid g mode = Ok r ->
  scan_matches r = [] /\ count r = 0.
Proof.
  intros Hsmall Hscan.
  assert (scan_matches r = []) as Hnil.
  { pose proof (scan_sound g mode r Hscan) as Hsound.
    destruct (scan_matches r) as [| m ms]; [done | exfalso].
    apply Forall_cons in Hsound
      as [(row & col & dr & dc & _ & Hdir & Hcells & Hin & _) _].
    apply allowed_directions_unit in Hdir. simpl in Hdir.
    rewrite Hcells, word_letters_eq in Hin. unfold line in Hin. simpl in Hin.
    apply Forall_cons in Hin as [[Hr0 Hc0] Hin].
    do 2 apply Forall_cons in Hin as [_ Hin].
    apply Forall_cons in Hin as [[Hr3 Hc3] _]. simpl in *. lia. }
  split; [done |]. destruct (scan_grid_ok _ _ _ Hscan) as [-> _]. by rewrite Hnil.
Qed.

Lemma for_each_ok_or {A S} e (l : list A) (body : S -> A -> result S) s :
  (forall s y, y ∈ l -> (exists s', body s y = Ok s') \/ body s y = Raise e) ->
  (exists s', for_each l body s = Ok s') \/ for_each l body s = Raise e.
Proof.
  revert s. induction l as [| y l IH]; simpl; intros s Hbody; [eauto |].
  destruct (Hbody s y) as [[s1 ->] | ->]; [left | | by right]. simpl.
  apply IH. intros s2 z Hz. apply Hbody. by right.
Qed.

Lemma for_each_raises {A S} e (l : list A) (body : S -> A -> result S) s x :
  x ∈ l ->
  (forall s y, y ∈ l -> (exists s', body s y = Ok s') \/ body s y = Raise e) ->
  (forall s, body s x = Raise e) ->
  for_each l body s = Raise e.
Proof.
  intros Hx. revert s.
  induction Hx as [x l | x y l Hx IH]; simpl; intros s Hbody Hraise.
  - by rewrite Hraise.
  - destruct (Hbody s y) as [[s1 ->] | ->]; [left | | done]. simpl.
    apply IH; [| done]. intros s2 z Hz. apply Hbody. by right.
Qed.

Lemma check_word_loop_wf n g row col dr dc idx acc word :
  wf_grid n g ->
  (exists o, check_word_loop g row col dr dc (Z.of_nat n) idx acc word = Ok o) \/
  check_word_loop g row col dr dc (Z.of_nat n) idx acc word = Raise TypeError.
Proof.
  intros Hwf. revert acc word.
  induction idx as [| i idx IH]; simpl; intros acc word; [eauto |].
  destruct (in_bounds (row + dr * i) (Z.of_nat n)) eqn:Hr; simpl; [| eauto].
  destruct (in_bounds (col + dc * i) (Z.of_nat n)) eqn:Hc; simpl; [| eauto].
  apply in_bounds_spec in Hr, Hc.
  destruct (grid_get_total n g _ _ Hwf Hr Hc) as [x ->].
  destruct x; [apply IH | by right].
Qed.

Lemma scan_step_wf n g row col ms d :
  wf_grid n g ->
  (exists ms', scan_step g (Z.of_nat n) row col ms d = Ok ms') \/
  scan_step g (Z.of_nat n) row col ms d = Raise TypeError.
Proof.
  intros Hwf. destruct d as [dir_name [dr dc]].
  unfold scan_step, _check_word_at_position.
  destruct (check_word_loop_wf n g row col dr dc
              (range (Z.of_nat (String.length TARGET_WORD))) [] "" Hwf)
    as [[o ->] | ->]; [| by right]. simpl.
  destruct o; [| eauto]. destruct (negb _); eauto.
Qed.

Lemma scan_step_empty_cell n g row col ms d :
  0 <= row < Z.of_nat n -> 0 <= col < Z.of_nat n ->
  grid_get g row col = Some None ->
  scan_step g (Z.of_nat n) row col ms d = Raise TypeError.
Proof.
  intros Hrow Hcol Hget. destruct d as [dir_name [dr dc]].
  unfold scan_step, _check_word_at_position.
  change (range (Z.of_nat (String.length TARGET_WORD))) with [0; 1; 2; 3].
  cbn [check_word_loop]. rewrite !Z.mul_0_r, !Z.add_0_r.
  rewrite !(proj2 (in_bounds_spec _ _)) by done. cbn [andb negb].
  by rewrite Hget.
Qed.

(** X12. The scanner needs a finished grid: on a square grid that still
    has an empty cell, [scan_grid] raises [TypeError] (the empty cell cannot
    be appended to the word read so far), whatever the mode. *)
Theorem scan_grid_empty_cell n (g : Grid) (mode : string) row col :
  wf_grid n g -> 0 <= row < Z.of_nat n -> 0 <= col < Z.of_nat n ->
  grid_get g row col = Some None ->
  scan_grid g mode = Raise TypeError.
Proof.
  intros Hwf Hrow Hcol Hget. unfold scan_grid.
  assert (length g = n) as -> by apply Hwf.
  assert (forall r0 c0 ms,
            (exists ms', for_each (_get_allowed_directions mode)
                           (scan_step g (Z.of_nat n) r0 c0) ms = Ok ms') \/
            for_each (_get_allowed_directions mode)
              (scan_step g (Z.of_nat n) r0 c0) ms = Raise TypeError) as Hdirs.
  { intros r0 c0 ms. apply for_each_ok_or. intros ms1 d _. by apply scan_step_wf. }
  assert (forall r0 ms,
            (exists ms', for_each (range (Z.of_nat n)) (fun ms c0 =>
                           for_each (_get_allowed_directions mode)
                             (scan_step g (Z.of_nat n) r0 c0) ms) ms = Ok ms') \/
            for_each (range (Z.of_nat n)) (fun ms c0 =>
              for_each (_get_allowed_directions mode)
                (scan_step g (Z.of_nat n) r0 c0) ms) ms = Raise TypeError) as Hcols.
  { intros r0 ms. apply for_each_ok_or. intros ms1 c0 _. apply Hdirs. }
  rewrite (for_each_raises TypeError (range (Z.of_nat n)) _ [] row);
    [done | by apply elem_of_range | intros ms r0 _; apply Hcols |].
  intros ms.
  apply (for_each_raises TypeError (range (Z.of_nat n)) _ ms col);
    [by apply elem_of_range | intros ms1 c0 _; apply Hdirs |].
  intros ms1.
  destruct (_get_allowed_directions mode) as [| d dirs] eqn:Hd.
  { by destruct (allowed_directions_ok mode) as [Hne _]. }
  simpl. by rewrite scan_step_empty_cell.
Qed.

(** ** On a grid of letters no reading is counted twice, and none is lost *)

Lemma sorted_eq_elem (l1 l2 : list coord) x :
  sorted l1 = sorted l2 -> x ∈ l1 -> x ∈ l2.
Proof.
  intros Heq Hx. unfold sorted in Heq.
  assert (l1 ≡ₚ l2) as Hperm.
  { rewrite <- (merge_sort_Permutation coord_le l1),
      <- (merge_sort_Permutation coord_le l2). by rewrite Heq. }
  by rewrite <- Hperm.
Qed.

(** Two lines of four cells with the same cells are the same line, or the
    same line walked from the other end. *)
Lemma line_same_cells row col dr dc row' col' dr' dc' :
  -1 <= dr <= 1 -> -1 <= dc <= 1 -> dr <> 0 \/ dc <> 0 ->
  -1 <= dr' <= 1 -> -1 <= dc' <= 1 -> dr' <> 0 \/ dc' <> 0 ->
  (forall x, x ∈ line row col dr dc word_letters ->
             x ∈ line row' col' dr' dc' word_letters) ->
  (forall x, x ∈ line row' col' dr' dc' word_letters ->
             x ∈ line row col dr dc word_letters) ->
  (row' = row /\ col' = col /\ dr' = dr /\ dc' = dc) \/
  (row' = row + dr * 3 /\ col' = col + dc * 3 /\ dr' = - dr /\ dc' = - dc).
Proof.
  intros Hdr Hdc Hnz Hdr' Hdc' Hnz' H12 H21.
  rewrite word_letters_eq in H12, H21. unfold line in H12, H21. simpl in H12, H21.
  assert (forall (a x0 x1 x2 x3 : coord),
            a ∈ [x0; x1; x2; x3] -> a = x0 \/ a = x1 \/ a = x2 \/ a = x3) as Hcases.
  { intros a x0 x1 x2 x3 Ha. rewrite !elem_of_cons, elem_of_nil in Ha. tauto. }
  assert ((row + dr * 0, col + dc * 0) ∈
            [(row' + dr' * 0, col' + dc' * 0); (row' + dr' * 1, col' + dc' * 1);
             (row' + dr' * 2, col' + dc' * 2); (row' + dr' * 3, col' + dc' * 3)])
    as Ha0%Hcases by (apply H12; apply list_elem_of_here).
  assert ((row + dr * 1, col + dc * 1) ∈
            [(row' + dr' * 0, col' + dc' * 0); (row' + dr' * 1, col' + dc' * 1);
             (row' + dr' * 2, col' + dc' * 2); (row' + dr' * 3, col' + dc' * 3)])
    as Ha1%Hcases by (apply H12; apply list_elem_of_further, list_elem_of_here).
  assert ((row' + dr' * 0, col' + dc' * 0) ∈
            [(row + dr * 0, col + dc * 0); (row + dr * 1, col + dc * 1);
             (row + dr * 2, col + dc * 2); (row + dr * 3, col + dc * 3)])
    as Hb0%Hcases by (apply H21; apply list_elem_of_here).
  assert ((row' + dr' * 3, col' + dc' * 3) ∈
            [(row + dr * 0, col + dc * 0); (row + dr * 1, col + dc * 1);
             (row + dr * 2, col + dc * 2); (row + dr * 3, col + dc * 3)])
    as Hb3%Hcases
    by (apply H21; do 3 apply list_elem_of_further; apply list_elem_of_here).
  clear H12 H21 Hcases.
  assert ((dr' = dr /\ dc' = dc) \/ (dr' = - dr /\ dc' = - dc)) as Hv.
  { clear Hb0 Hb3.
    destruct Ha0 as [Ha0 | [Ha0 | [Ha0 | Ha0]]];
      injection Ha0 as Ha0r Ha0c;
      destruct Ha1 as [Ha1 | [Ha1 | [Ha1 | Ha1]]];
      injection Ha1 as Ha1r Ha1c; lia. }
  clear Ha1.
  destruct Hv as [[-> ->] | [-> ->]].
  - left. clear Hb3.
    destruct Ha0 as [Ha0 | [Ha0 | [Ha0 | Ha0]]];
      injection Ha0 as Ha0r Ha0c;
      destruct Hb0 as [Hb0 | [Hb0 | [Hb0 | Hb0]]];
      injection Hb0 as Hb0r Hb0c; lia.
  - right.
    destruct Ha0 as [Ha0 | [Ha0 | [Ha0 | Ha0]]];
      injection Ha0 as Ha0r Ha0c;
      destruct Hb0 as [Hb0 | [Hb0 | [Hb0 | Hb0]]];
      injection Hb0 as Hb0r Hb0c;
      destruct Hb3 as [Hb3 | [Hb3 | [Hb3 | Hb3]]];
      injection Hb3 as Hb3r Hb3c; lia.
Qed.

Lemma letter_head x w (a : Ascii.ascii) rest :
  x ∈ LETTERS -> String.append x w = String a rest ->
  x = String a "" /\ w = rest.
Proof.
  intros Hx Heq. unfold LETTERS in Hx.
  repeat (apply elem_of_cons in Hx as [-> | Hx]); [.. | by apply elem_of_nil in Hx];
    change (String.append (String ?c "") w) with (String c w) in Heq;
    by simplify_eq.
Qed.

(** On a grid of letters, cells that spell the word hold its letters one
    by one. *)
Lemma read_line_letters g row col dr dc :
  letters_only g ->
  Forall (fun x : coord => 0 <= x.1 /\ 0 <= x.2) (line row col dr dc word_letters) ->
  read_cells g (line row col dr dc word_letters) = Some TARGET_WORD ->
  grid_get g (row + dr * 0) (col + dc * 0) = Some (Some "F") /\
  grid_get g (row + dr * 3) (col + dc * 3) = Some (Some "K").
Proof.
  intros Hletters Hin Hread.
  rewrite word_letters_eq in Hin, Hread. unfold line in Hin, Hread.
  simpl in Hin, Hread.
  apply Forall_cons in Hin as [[Hr0 Hc0] Hin]. apply Forall_cons in Hin as [[Hr1 Hc1] Hin].
  apply Forall_cons in Hin as [[Hr2 Hc2] Hin]. apply Forall_cons in Hin as [[Hr3 Hc3] _].
  simpl in *.
  destruct (grid_get g (row + dr * 0) (col + dc * 0)) as [[x0 |] |] eqn:H0; [| done..].
  destruct (grid_get g (row + dr * 1) (col + dc * 1)) as [[x1 |] |] eqn:H1; [| done..].
  destruct (grid_get g (row + dr * 2) (col + dc * 2)) as [[x2 |] |] eqn:H2; [| done..].
  destruct (grid_get g (row + dr * 3) (col + dc * 3)) as [[x3 |] |] eqn:H3; [| done..].
  injection Hread as Hword. unfold TARGET_WORD in Hword.
  apply letter_head in Hword as [-> Hword]; [| exact (Hletters _ _ _ Hr0 Hc0 H0)].
  apply letter_head in Hword as [-> Hword]; [| exact (Hletters _ _ _ Hr1 Hc1 H1)].
  apply letter_head in Hword as [-> Hword]; [| exact (Hletters _ _ _ Hr2 Hc2 H2)].
  apply letter_head in Hword as [-> Hword]; [| exact (Hletters _ _ _ Hr3 Hc3 H3)].
  done.
Qed.

Lemma allowed_directions_inj mode n1 n2 v :
  (n1, v) ∈ _get_allowed_directions mode -> (n2, v) ∈ _get_allowed_directions mode ->
  n1 = n2.
Proof.
  unfold _get_allowed_directions. intros H1 H2.
  destruct (String.eqb mode "horizontal"); [| destruct (String.eqb mode "horiz_vert")];
    vm_compute in H1, H2;
    repeat (apply elem_of_cons in H1 as [H1 | H1]);
    try (by apply elem_of_nil in H1); injection H1 as -> ->;
    repeat (apply elem_of_cons in H2 as [H2 | H2]);
    try (by apply elem_of_nil in H2); by injection H2 as ->.
Qed.

(** Two readings on the same four cells of a grid of letters are one
    reading: the reverse walk would need F and K in one cell. *)
Lemma reading_key_inj g mode size m1 m2 :
  letters_only g ->
  reads_word size (_get_allowed_directions mode) g m1 ->
  reads_word size (_get_allowed_directions mode) g m2 ->
  sorted (cells m1) = sorted (cells m2) -> m1 = m2.
Proof.
  intros Hletters (row & col & dr & dc & Hs1 & Hd1 & Hc1 & Hin1 & Hread1)
    (row' & col' & dr' & dc' & Hs2 & Hd2 & Hc2 & Hin2 & Hread2) Hkey.
  rewrite Hc1 in Hin1, Hread1. rewrite Hc2 in Hin2, Hread2.
  rewrite Hc1, Hc2 in Hkey.
  destruct (allowed_directions_unit mode _ Hd1) as (Hdr & Hdc & Hnz).
  destruct (allowed_directions_unit mode _ Hd2) as (Hdr' & Hdc' & Hnz').
  simpl in Hdr, Hdc, Hnz, Hdr', Hdc', Hnz'.
  assert (forall r c d e,
            Forall (fun x : coord => 0 <= x.1 < size /\ 0 <= x.2 < size)
              (line r c d e word_letters) ->
            Forall (fun x : coord => 0 <= x.1 /\ 0 <= x.2)
              (line r c d e word_letters)) as Hnonneg.
  { intros r c d e Hin. eapply Forall_impl; [exact Hin |]. simpl. intros x ?. lia. }
  destruct (read_line_letters g row col dr dc Hletters (Hnonneg _ _ _ _ Hin1) Hread1)
    as [HF1 _].
  destruct (read_line_letters g row' col' dr' dc' Hletters (Hnonneg _ _ _ _ Hin2)
              Hread2) as [_ HK2].
  destruct (line_same_cells row col dr dc row' col' dr' dc' Hdr Hdc Hnz Hdr' Hdc' Hnz')
    as [(-> & -> & -> & ->) | (-> & -> & -> & ->)].
  - intros x. by apply sorted_eq_elem.
  - intros x. by apply sorted_eq_elem.
  - assert (direction m1 = direction m2) as Hdir
      by (eapply allowed_directions_inj; eauto).
    destruct m1, m2. simpl in *. congruence.
  - exfalso.
    replace (row + dr * 3 + - dr * 3) with (row + dr * 0) in HK2 by lia.
    replace (col + dc * 3 + - dc * 3) with (col + dc * 0) in HK2 by lia.
    congruence.
Qed.

(** X13. On a grid whose cells are letters of the alphabet, every
    reading of the word gets its own match: wherever four cells inside the
    grid, from a start along a direction of the mode, spell the word, the
    result has the match with that start, that direction and those cells,
    and it is the only match of the result on those four cells. A word and
    its reverse walk are never both counted, and the deduplication drops
    nothing. *)
Theorem scan_grid_reading_once (g : Grid) (mode : string) r row col dir_name dr dc :
  letters_only g ->
  scan_grid g mode = Ok r ->
  (dir_name, (dr, dc)) ∈ _get_allowed_directions mode ->
  Forall (fun x : coord => 0 <= x.1 < Z.of_nat (length g) /\
                           0 <= x.2 < Z.of_nat (length g))
    (line row col dr dc word_letters) ->
  read_cells g (line row col dr dc word_letters) = Some TARGET_WORD ->
  mkMatch (row, col) dir_name (line row col dr dc word_letters) ∈ scan_matches r /\
  forall m, m ∈ scan_matches r ->
            sorted (cells m) = sorted (line row col dr dc word_letters) ->
            m = mkMatch (row, col) dir_name (line row col dr dc word_letters).
Proof.
  intros Hletters Hscan Hdir Hin Hread.
  set (m0 := mkMatch (row, col) dir_name (line row col dr dc word_letters)).
  assert (reads_word (Z.of_nat (length g)) (_get_allowed_directions mode) g m0) as Hm0.
  { exists row, col, dr, dc. done. }
  assert (forall m, m ∈ scan_matches r -> sorted (cells m) = sorted (cells m0) ->
                    m = m0) as Huniq.
  { intros m Hm Hkey.
    pose proof (scan_sound g mode r Hscan) as Hsound.
    rewrite Forall_forall in Hsound.
    eapply reading_key_inj; [exact Hletters | by apply Hsound | exact Hm0 | exact Hkey]. }
  split; [| exact Huniq].
  pose proof (reads_word_found g mode r _ m0 Hscan Hm0 (fun d Hd => Hd)) as Hkey.
  apply list_elem_of_In, in_map_iff in Hkey as (m & Hm & Hin').
  apply list_elem_of_In in Hin'.
  by rewrite <- (Huniq m Hin' Hm).
Qed.

End ScannerMore.

(** * Further properties of placement and of the command line *)

Section PlaceAndCli.
Context `{RT : PyRuntime}.

Lemma place_word_loop_result fuel allow size dirs g ms s placed g' ms' s' :
  place_word_loop fuel g size dirs allow ms s = (Ok (placed, (g', ms')), s') ->
  (placed = false /\ g' = g /\ ms' = ms) \/
  (placed = true /\ exists s0 s1,
     place_try g size dirs allow ms s0 = (Ok (Some (g', ms')), s1)).
Proof.
  revert s. induction fuel as [| fuel IH]; simpl; intros s Hrun.
  - unfold ret in Hrun. simplify_eq. by left.
  - apply bind_ok in Hrun as (o & s1 & Htry & Hrun).
    destruct o as [[g1 ms1] |]; [| by eapply IH].
    unfold ret in Hrun. simplify_eq. right. eauto.
Qed.

(** X14. [_place_word] either fails and leaves the grid and the list of
    matches as they were, or appends exactly one match: four cells in a line
    along an allowed direction, inside the grid, that now hold F, U, C, K.
    No other cell changes, no letter already in the grid is altered, and
    with overlap forbidden the four cells were all empty before. *)
Theorem place_word_contract allow size mode g ms s placed g' ms' s' :
  wf_grid (Z.to_nat size) g ->
  _place_word g size (_get_allowed_directions mode) allow ms s
    = (Ok (placed, (g', ms')), s') ->
  if placed then
    exists row col dir_name dr dc,
      (dir_name, (dr, dc)) ∈ _get_allowed_directions mode /\
      ms' = ms ++ [mkMatch (row, col) dir_name (line row col dr dc word_letters)] /\
      Forall (fun il : Z * string =>
                0 <= row + dr * il.1 < size /\ 0 <= col + dc * il.1 < size /\
                grid_get g' (row + dr * il.1) (col + dc * il.1) = Some (Some il.2) /\
                (grid_get g (row + dr * il.1) (col + dc * il.1) = Some None \/
                 allow = true /\
                 grid_get g (row + dr * il.1) (col + dc * il.1) = Some (Some il.2)))
             word_letters /\
      forall r c, 0 <= r -> 0 <= c -> (r, c) ∉ line row col dr dc word_letters ->
                  grid_get g' r c = grid_get g r c
  else g' = g /\ ms' = ms.
Proof.
  intros Hwf Hrun. unfold _place_word in Hrun.
  apply place_word_loop_result in Hrun
    as [(-> & -> & ->) | (-> & s0 & s1 & Htry)]; [done |].
  apply place_try_success in Htry
    as (row & col & dir_name & dr & dc & cs & Hkey & Hget & Hrow & Hcol & Her & Hec
        & Hcan & Hwrite & ->).
  destruct (allowed_directions_ok mode) as [_ Hkeys].
  destruct (Hkeys dir_name Hkey) as (dr' & dc' & Hget' & Hdir & Hdr & Hdc & Hnz).
  rewrite Hget in Hget'. simplify_eq.
  pose proof (line_in_bounds size row col dr' dc' Hrow Hcol Hdr Hdc Her Hec) as Hin.
  apply can_place_loop_true in Hcan as [-> Hfree].
  destruct (write_word_spec size g row col dr' dc' word_letters Hwf Hin
              (line_NoDup row col dr' dc' Hnz)) as (g2 & Hw2 & _ & Hnew & Hrest).
  rewrite Hwrite in Hw2. simplify_eq.
  exists row, col, dir_name, dr', dc'. split; [done |]. split; [done |].
  split; [| done].
  rewrite Forall_forall in Hin, Hfree, Hnew. apply Forall_forall. intros il Hil.
  destruct (Hin il Hil). split; [done |]. split; [done |]. split; [by apply Hnew |].
  destruct (Hfree il Hil) as [? | [? ?]]; eauto.
Qed.

Lemma randint_ok_bounds a b s k s' :
  randint a b s = (Ok k, s') -> a <= k <= b.
Proof.
  intros Hdraw. destruct (decide (b < a)) as [Hlt | Hle].
  - by rewrite randint_empty in Hdraw.
  - destruct (randint_draws a b s) as (k' & s1 & Hk & Hbound); [lia |].
    rewrite Hk in Hdraw. by simplify_eq.
Qed.

(** X15. What the command line gets back: with [--exact n] a returned
    puzzle has [true_count = n]; otherwise its [true_count] lies between
    [--min] and [--max]. Its grid is [size] by [size] letters, and its
    metadata record the settings the arguments stand for: overlap allowed
    unless [--no-overlap] is given, the distribution mode [weighted] exactly
    when [--weighted] is given and [even] otherwise, and the [--directions]
    mode. *)
Theorem generate_puzzle_count args s0 p s' :
  generate_puzzle args s0 = (Ok p, s') ->
  match args_exact args with
  | Some n => true_count p = n
  | None => args_min args <= true_count p <= args_max args
  end /\
  meta_allow_overlap (metadata p) = negb (args_no_overlap args) /\
  meta_distribution_mode (metadata p)
    = (if args_weighted args then "weighted" else "even") /\
  meta_directions_mode (metadata p) = args_directions args /\
  letter_grid (Z.to_nat (args_size args)) (grid p).
Proof.
  unfold generate_puzzle.
  destruct (__init__ (option_map SeedStr (args_seed args)) s0) as [engine s].
  intros Hgen.
  pose proof (generate_grid_shape _ _ _ _ _ _ _ _ _ Hgen) as Hgrid.
  destruct (generate_grid_ok _ _ _ _ _ _ _ _ _ Hgen)
    as (t & s1 & s2 & r & Hreq & _ & _ & _ & Hp).
  rewrite Hp. simpl. split; [| split; [| done]].
  - destruct (args_exact args) as [n |]; [by destruct Hreq |].
    by apply randint_ok_bounds in Hreq.
  - by destruct (args_no_overlap args).
Qed.

(** X16. A range given the wrong way round is not caught by the command
    line: without [--exact] and with [--max] below [--min] (for instance
    [--min 6] alone, the default [--max] being 5), [generate_puzzle] raises
    the [ValueError] of the range draw. *)
Theorem generate_puzzle_inverted_range args s0 :
  args_exact args = None -> args_max args < args_min args ->
  exists s',
    generate_puzzle args s0
      = (Raise (ValueError "empty range for randrange()"), s').
Proof.
  intros Hexact Hlt. unfold generate_puzzle. rewrite Hexact.
  destruct (__init__ (option_map SeedStr (args_seed args)) s0) as [engine s].
  exists s. unfold generate_grid, bind. by rewrite randint_empty.
Qed.

(** X17. The daily puzzle depends on the date alone, not on what the
    stream was used for before; it never raises the [ValueError] of a range
    draw; and when it is returned it has between 0 and 5 occurrences, allows
    overlap, uses all eight directions and records as seed the hash of
    [hmf-<date>]. *)
Theorem daily_puzzle_contract size weighted utc_date (s0 s0' : rng) :
  daily_puzzle size weighted utc_date s0 = daily_puzzle size weighted utc_date s0' /\
  (exists s',
     (exists p,
        daily_puzzle size weighted utc_date s0 = (Ok p, s') /\
        0 <= true_count p <= 5 /\
        metadata p =
          mkMeta size (if weighted then "weighted" else "even") true "all"
            (Some (md5_hex8 (get_daily_seed "hmf" utc_date)))) \/
     daily_puzzle size weighted utc_date s0
       = (Raise (RuntimeError capacity_message), s')).
Proof.
  split; [reflexivity |].
  unfold daily_puzzle, generate_puzzle, DailyArgs, __init__. cbn [args_seed option_map
    args_exact args_min args_max args_weighted args_no_overlap args_directions
    args_size seed_int].
  set (engine := mkEngine (Some (md5_hex8 (get_daily_seed "hmf" utc_date)))).
  set (s := seed_rng (md5_hex8 (get_daily_seed "hmf" utc_date))).
  set (dist := if weighted then "weighted" else "even").
  destruct (generate_grid_ends engine size (Ranged 0 5) dist true "all" s)
    as (s' & [[p Hp] | [Hfail | (lo & hi & Hreq & Hlt & _)]]).
  - exists s'. left. exists p. split; [done |].
    destruct (generate_grid_ok _ _ _ _ _ _ _ _ _ Hp)
      as (t & s1 & s2 & r & Hdraw & _ & _ & _ & Hmeta).
    apply randint_ok_bounds in Hdraw. rewrite Hmeta. simpl. done.
  - exists s'. by right.
  - simplify_eq. lia.
Qed.

End PlaceAndCli.

(** * Properties of the renderer *)

Section RendererFacts.

Lemma string_length_append (a b : string) :
  String.length (String.append a b) = (String.length a + String.length b)%nat.
Proof.
  induction a as [| x a IH]; [reflexivity |].
  change (S (String.length (String.append a b))
          = S (String.length a + String.length b)). by rewrite IH.
Qed.

Lemma occurrences_append c (a b : string) :
  occurrences c (String.append a b) = (occurrences c a + occurrences c b)%nat.
Proof.
  induction a as [| x a IH]; [reflexivity |].
  change (((if Ascii.eqb c x then 1 else 0) + occurrences c (String.append a b))%nat
          = ((if Ascii.eqb c x then 1 else 0) + occurrences c a + occurrences c b)%nat).
  rewrite IH. lia.
Qed.

Lemma concat_cons sep x y (l : list string) :
  String.concat sep (x :: y :: l)
  = String.append x (String.append sep (String.concat sep (y :: l))).
Proof. reflexivity. Qed.

Lemma concat_lines_length k (lines : list string) :
  Forall (fun l => String.length l = k) lines ->
  String.length (String.concat newline lines)
  = (length lines * k + (length lines - 1))%nat.
Proof.
  induction 1 as [| x lines Hx Hrest IH]; [reflexivity |].
  destruct lines as [| y lines]; [simpl; lia |].
  rewrite concat_cons, !string_length_append, IH, Hx.
  change (String.length newline) with 1%nat. simpl. lia.
Qed.

Lemma concat_lines_occurrences c (lines : list string) :
  occurrences c newline = 0%nat ->
  occurrences c (String.concat newline lines)
  = sum_list_with (occurrences c) lines.
Proof.
  intros Hc. induction lines as [| x lines IH]; [reflexivity |].
  destruct lines as [| y lines]; [simpl; lia |].
  rewrite concat_cons, !occurrences_append, IH, Hc. simpl. lia.
Qed.

Lemma concat_parts (parts : list string) x :
  String.concat "" (x :: parts) = String.append x (String.concat "" parts).
Proof.
  destruct parts as [| y parts]; [by rewrite string_append_nil_r |].
  by rewrite concat_cons.
Qed.

Lemma letter_shape x :
  x ∈ LETTERS ->
  String.length x = 1%nat /\ occurrences "["%char x = 0%nat /\
  occurrences "]"%char x = 0%nat.
Proof.
  unfold LETTERS. intros Hx.
  repeat (apply elem_of_cons in Hx as [-> | Hx]); [.. | by apply elem_of_nil in Hx];
    done.
Qed.

Lemma letter_grid_get n g r c :
  letter_grid n g -> 0 <= r < Z.of_nat n -> 0 <= c < Z.of_nat n ->
  exists x, grid_get g r c = Some (Some x) /\ x ∈ LETTERS.
Proof.
  intros [Hlen Hrows] Hr Hc. unfold grid_get.
  rewrite py_index_nonneg by lia.
  destruct (lookup_lt_is_Some_2 g (Z.to_nat r)) as [row Hrow]; [lia |].
  rewrite Hrow, py_index_nonneg by lia.
  rewrite Forall_lookup in Hrows. destruct (Hrows _ _ Hrow) as [Hl Hcells].
  destruct (lookup_lt_is_Some_2 row (Z.to_nat c)) as [x Hx]; [lia |].
  rewrite Forall_lookup in Hcells. destruct (Hcells _ _ Hx) as (y & -> & Hy).
  rewrite Hx. eauto.
Qed.

(** One line of the highlighted rendering. *)
Lemma highlight_line n g hl row cols :
  letter_grid n g -> 0 <= row < Z.of_nat n ->
  Forall (fun c => 0 <= c < Z.of_nat n) cols ->
  exists parts,
    map_each (highlight_part g hl row) cols = Ok parts /\
    String.length (String.concat "" parts) = (3 * length cols)%nat /\
    occurrences "["%char (String.concat "" parts)
      = length (filter (fun c => (row, c) ∈ hl) cols) /\
    occurrences "]"%char (String.concat "" parts)
      = length (filter (fun c => (row, c) ∈ hl) cols).
Proof.
  intros Hg Hrow. induction 1 as [| c cols Hc _ (parts & Hparts & Hlen & Hopen & Hclose)].
  - exists []. done.
  - destruct (letter_grid_get n g row c Hg Hrow Hc) as (x & Hget & Hx).
    destruct (letter_shape x Hx) as (Hx1 & Hx2 & Hx3).
    simpl. unfold highlight_part at 1. rewrite Hget. simpl. rewrite Hparts. simpl.
    eexists. split; [reflexivity |].
    rewrite concat_parts, filter_cons.
    rewrite string_length_append, !occurrences_append, Hlen, Hopen, Hclose.
    destruct (decide ((row, c) ∈ hl)) as [Hin | Hout].
    + rewrite bool_decide_eq_true_2 by done.
      rewrite !string_length_append, !occurrences_append, Hx1, Hx2, Hx3. simpl.
      split; [lia |]. split; lia.
    + rewrite bool_decide_eq_false_2 by done.
      rewrite !string_length_append, !occurrences_append, Hx1, Hx2, Hx3. simpl.
      split; [lia |]. split; lia.
Qed.

Lemma filter_prod_length (P : coord -> Prop) `{forall x, Decision (P x)}
    (rows cols : list Z) :
  length (filter P (list_prod rows cols))
  = sum_list_with (fun r => length (filter (fun c => P (r, c)) cols)) rows.
Proof.
  induction rows as [| r rows IH]; [reflexivity |].
  simpl. rewrite filter_app, length_app, IH. f_equal. clear IH.
  induction cols as [| c cols IHc]; [reflexivity |].
  simpl. rewrite !filter_cons. destruct (decide (P (r, c))); simpl; by rewrite IHc.
Qed.

Lemma highlight_layout n (g : Grid) (ms : list Match) :
  letter_grid n g ->
  exists out,
    render_highlighted_grid g ms = Ok out /\
    String.length out = (n * (3 * n) + (n - 1))%nat /\
    occurrences "["%char out = length (highlighted_in n ms) /\
    occurrences "]"%char out = length (highlighted_in n ms).
Proof.
  intros Hg. unfold render_highlighted_grid.
  assert (length g = n) as -> by apply Hg.
  set (hl := highlight_cells ms).
  set (P := fun x : coord => x ∈ hl).
  assert (forall rows, Forall (fun r => 0 <= r < Z.of_nat n) rows ->
            exists lines,
              map_each (fun row =>
                try! line_parts := map_each (highlight_part g hl row)
                                     (range (Z.of_nat n)) in
                Ok (String.concat "" line_parts)) rows = Ok lines /\
              length lines = length rows /\
              Forall (fun l => String.length l = (3 * n)%nat) lines /\
              sum_list_with (occurrences "["%char) lines
                = sum_list_with (fun r => length (filter (fun c => P (r, c))
                                                    (range (Z.of_nat n)))) rows /\
              sum_list_with (occurrences "]"%char) lines
                = sum_list_with (fun r => length (filter (fun c => P (r, c))
                                                    (range (Z.of_nat n)))) rows)
    as Hlines.
  { induction 1 as [| r rows Hr _ (lines & Hrun & Hlen & Hall & Hopen & Hclose)].
    - exists []. done.
    - destruct (highlight_line n g hl r (range (Z.of_nat n)) Hg Hr)
        as (parts & Hparts & Hplen & Hpopen & Hpclose).
      { apply Forall_forall. intros c Hc. by apply elem_of_range. }
      simpl. rewrite Hparts. simpl. rewrite Hrun. simpl.
      eexists. split; [reflexivity |]. split; [simpl; lia |]. split.
      + constructor; [| done]. rewrite Hplen. unfold range.
        rewrite length_map, length_seq. lia.
      + simpl. rewrite Hpopen, Hpclose, Hopen, Hclose. done. }
  destruct (Hlines (range (Z.of_nat n))) as (lines & -> & Hlen & Hall & Hopen & Hclose).
  { apply Forall_forall. intros r Hr. by apply elem_of_range. }
  simpl. eexists. split; [reflexivity |].
  rewrite (concat_lines_length (3 * n) lines Hall), Hlen.
  rewrite !concat_lines_occurrences by done. rewrite Hopen, Hclose.
  unfold highlighted_in, all_coords. rewrite filter_prod_length.
  assert (length (range (Z.of_nat n)) = n) as ->.
  { unfold range. by rewrite length_map, length_seq, Nat2Z.id. }
  split; [lia |]. split; reflexivity.
Qed.

Lemma concat_sep_length sep k (parts : list string) :
  Forall (fun q => String.length q = k) parts ->
  String.length (String.concat sep parts)
  = (length parts * k + (length parts - 1) * String.length sep)%nat.
Proof.
  induction 1 as [| x parts Hx Hrest IH]; [reflexivity |].
  destruct parts as [| y parts]; [simpl; lia |].
  rewrite concat_cons, !string_length_append, IH, Hx. simpl. lia.
Qed.

Lemma concat_sep_free c sep (parts : list string) :
  occurrences c sep = 0%nat ->
  Forall (fun q => occurrences c q = 0%nat) parts ->
  occurrences c (String.concat sep parts) = 0%nat.
Proof.
  intros Hsep. induction 1 as [| x parts Hx Hrest IH]; [reflexivity |].
  destruct parts as [| y parts]; [done |].
  rewrite concat_cons, !occurrences_append, IH, Hx, Hsep. done.
Qed.

Lemma substring_prefix (a b : string) :
  substring 0 (String.length a) (String.append a b) = a.
Proof.
  induction a as [| x a IH]; [by destruct b |].
  change (String x (substring 0 (String.length a) (String.append a b)) = String x a).
  by rewrite IH.
Qed.

Lemma substring_skip (a b : string) m k :
  substring (String.length a + m) k (String.append a b) = substring m k b.
Proof.
  induction a as [| x a IH]; [reflexivity |].
  change (substring (String.length a + m) k (String.append a b) = substring m k b).
  exact IH.
Qed.

(** The [j]-th of the parts joined by [sep], all [k] characters long, is
    found [j * (k + len(sep))] characters into the text. *)
Lemma concat_substring sep k (parts : list string) j p :
  Forall (fun q => String.length q = k) parts ->
  parts !! j = Some p ->
  substring (j * (k + String.length sep)) k (String.concat sep parts) = p.
Proof.
  intros Hall. revert j. induction Hall as [| x parts Hx Hrest IH]; intros j Hj;
    [done |].
  destruct j as [| j]; simpl in Hj.
  - assert (x = p) as -> by congruence. clear Hj. subst k.
    destruct parts as [| y parts].
    + change (String.concat sep [p]) with p.
      pose proof (substring_prefix p "") as Hp.
      by rewrite string_append_nil_r in Hp.
    + rewrite concat_cons. apply substring_prefix.
  - destruct parts as [| y parts]; [done |].
    rewrite concat_cons, <- string_append_assoc.
    replace (S j * (k + String.length sep))%nat
      with (String.length (String.append x sep) + j * (k + String.length sep))%nat
      by (rewrite string_length_append, Hx; simpl; lia).
    rewrite substring_skip. by apply IH.
Qed.

(** A separator follows every part but the last. *)
Lemma concat_substring_sep sep k (parts : list string) j :
  Forall (fun q => String.length q = k) parts ->
  (S j < length parts)%nat ->
  substring (j * (k + String.length sep) + k) (String.length sep)
    (String.concat sep parts) = sep.
Proof.
  intros Hall. revert j. induction Hall as [| x parts Hx Hrest IH]; intros j Hj;
    [simpl in Hj; lia |].
  destruct parts as [| y parts]; [simpl in Hj; lia |].
  rewrite concat_cons. destruct j as [| j].
  - replace (0 * (k + String.length sep) + k)%nat with (String.length x + 0)%nat
      by (rewrite Hx; lia).
    rewrite substring_skip. apply substring_prefix.
  - rewrite <- string_append_assoc.
    replace (S j * (k + String.length sep) + k)%nat
      with (String.length (String.append x sep)
            + (j * (k + String.length sep) + k))%nat
      by (rewrite string_length_append, Hx; simpl; lia).
    rewrite substring_skip. apply IH. simpl in Hj |- *. lia.
Qed.

Lemma split_lines_line (a : string) :
  occurrences newline_char a = 0%nat -> split_lines a = [a].
Proof.
  induction a as [| x a IH]; [reflexivity |].
  cbn [split_lines occurrences].
  destruct (Ascii.eqb newline_char x); [intros; lia |].
  intros Ha. by rewrite IH.
Qed.

Lemma split_lines_cons (a rest : string) :
  occurrences newline_char a = 0%nat ->
  split_lines (String.append a (String.append newline rest)) = a :: split_lines rest.
Proof.
  induction a as [| x a IH]; [reflexivity |].
  intros Ha. cbn [occurrences] in Ha.
  change (split_lines (String x (String.append a (String.append newline rest)))
          = String x a :: split_lines rest).
  cbn [split_lines]. destruct (Ascii.eqb newline_char x); [lia |].
  by rewrite IH.
Qed.

Lemma split_lines_concat (lines : list string) :
  lines <> [] ->
  Forall (fun l => occurrences newline_char l = 0%nat) lines ->
  split_lines (String.concat newline lines) = lines.
Proof.
  intros Hne Hall. induction Hall as [| x lines Hx Hrest IH]; [done |].
  destruct lines as [| y lines]; [by apply split_lines_line |].
  rewrite concat_cons, split_lines_cons by done. by rewrite IH.
Qed.

Lemma lines_of_width_intro width (lines : list string) :
  Forall (fun l => String.length l = width /\ occurrences newline_char l = 0%nat)
    lines ->
  lines_of_width width lines (String.concat newline lines).
Proof.
  intros Hall. split; [done |]. split; [| done].
  intros Hne. apply split_lines_concat; [done |].
  eapply Forall_impl; [exact Hall |]. by intros l [_ ?].
Qed.

Lemma map_each_ok {A B} (f : A -> result B) (h : A -> B) (l : list A) :
  Forall (fun x => f x = Ok (h x)) l -> map_each f l = Ok (map h l).
Proof.
  induction 1 as [| x l Hx _ IH]; [reflexivity |].
  simpl. by rewrite Hx, IH.
Qed.

Lemma range_lookup n i r :
  range (Z.of_nat n) !! i = Some r -> r = Z.of_nat i /\ (i < n)%nat.
Proof.
  unfold range. rewrite list_lookup_fmap, Nat2Z.id.
  destruct (seq 0 n !! i) as [k |] eqn:Hk; [| done].
  apply lookup_seq in Hk as [-> Hi]. simpl. intros ?. by simplify_eq.
Qed.

Lemma range_lookup_lt n i :
  (i < n)%nat -> range (Z.of_nat n) !! i = Some (Z.of_nat i).
Proof.
  intros Hi. unfold range. rewrite list_lookup_fmap, Nat2Z.id.
  by rewrite lookup_seq_lt.
Qed.

Lemma letter_line_free x :
  x ∈ LETTERS -> occurrences newline_char x = 0%nat.
Proof.
  unfold LETTERS. intros Hx.
  repeat (apply elem_of_cons in Hx as [-> | Hx]); [.. | by apply elem_of_nil in Hx];
    done.
Qed.

(** The lines of the highlighted rendering, cell by cell. *)
Lemma highlight_lines n (g : Grid) (ms : list Match) :
  letter_grid n g ->
  exists lines,
    render_highlighted_grid g ms = Ok (String.concat newline lines) /\
    length lines = n /\
    lines_of_width (3 * n) lines (String.concat newline lines) /\
    forall i j line,
      lines !! i = Some line -> (j < n)%nat ->
      exists x,
        grid_get g (Z.of_nat i) (Z.of_nat j) = Some (Some x) /\
        substring (3 * j) 3 line
        = if bool_decide ((Z.of_nat i, Z.of_nat j) ∈ highlight_cells ms)
          then String.append "[" (String.append x "]")
          else String.append " " (String.append x " ").
Proof.
  intros Hg. unfold render_highlighted_grid.
  assert (length g = n) as -> by apply Hg.
  set (hl := highlight_cells ms).
  set (part := fun r c : Z =>
         let x := match grid_get g r c with
                  | Some (Some x) => x
                  | _ => EmptyString
                  end in
         if bool_decide ((r, c) ∈ hl)
         then String.append "[" (String.append x "]")
         else String.append " " (String.append x " ")).
  assert (forall r c, 0 <= r < Z.of_nat n -> 0 <= c < Z.of_nat n ->
            exists x, grid_get g r c = Some (Some x) /\ x ∈ LETTERS /\
                      highlight_part g hl r c = Ok (part r c) /\
                      part r c = (if bool_decide ((r, c) ∈ hl)
                                  then String.append "[" (String.append x "]")
                                  else String.append " " (String.append x " ")) /\
                      String.length (part r c) = 3%nat /\
                      occurrences newline_char (part r c) = 0%nat) as Hpart.
  { intros r c Hr Hc.
    destruct (letter_grid_get n g r c Hg Hr Hc) as (x & Hget & Hx).
    destruct (letter_shape x Hx) as (Hx1 & _). pose proof (letter_line_free x Hx) as Hx2.
    exists x. unfold highlight_part, part. rewrite Hget. simpl.
    split; [done |]. split; [done |]. split; [done |]. split; [done |].
    destruct (bool_decide ((r, c) ∈ hl));
      rewrite !string_length_append, !occurrences_append, Hx1, Hx2; done. }
  set (row_line := fun r : Z => String.concat "" (map (part r) (range (Z.of_nat n)))).
  assert (map_each (fun row =>
            try! line_parts := map_each (highlight_part g hl row)
                                 (range (Z.of_nat n)) in
            Ok (String.concat "" line_parts)) (range (Z.of_nat n))
          = Ok (map row_line (range (Z.of_nat n)))) as ->.
  { apply map_each_ok, Forall_forall. intros r Hr%elem_of_range.
    rewrite (map_each_ok _ (part r)); [done |].
    apply Forall_forall. intros c Hc%elem_of_range.
    by destruct (Hpart r c Hr Hc) as (x & _ & _ & ? & _). }
  assert (forall r, 0 <= r < Z.of_nat n ->
            Forall (fun q => String.length q = 3%nat)
              (map (part r) (range (Z.of_nat n))) /\
            Forall (fun q => occurrences newline_char q = 0%nat)
              (map (part r) (range (Z.of_nat n)))) as Hparts.
  { intros r Hr. split; apply Forall_fmap, Forall_forall; intros c Hc%elem_of_range;
      by destruct (Hpart r c Hr Hc) as (x & _ & _ & _ & _ & ? & ?). }
  assert (length (range (Z.of_nat n)) = n) as Hrange.
  { unfold range. by rewrite length_map, length_seq, Nat2Z.id. }
  simpl. exists (map row_line (range (Z.of_nat n))).
  split; [done |]. split; [by rewrite length_map |]. split.
  - apply lines_of_width_intro, Forall_fmap, Forall_forall.
    intros r Hr%elem_of_range. destruct (Hparts r Hr) as [Hlen Hfree].
    unfold row_line. split.
    + rewrite (concat_sep_length "" 3 _ Hlen), length_map, Hrange. simpl. lia.
    + by apply concat_sep_free.
  - intros i j line Hline Hj.
    rewrite list_lookup_fmap in Hline.
    destruct (range (Z.of_nat n) !! i) as [r |] eqn:Hr; [| done].
    apply range_lookup in Hr as [-> Hi]. simpl in Hline. simplify_eq.
    destruct (Hpart (Z.of_nat i) (Z.of_nat j)) as (x & Hget & _ & _ & Hx & _);
      [lia | lia |].
    exists x. split; [done |]. rewrite <- Hx.
    destruct (Hparts (Z.of_nat i)) as [Hlen _]; [lia |].
    assert (map (part (Z.of_nat i)) (range (Z.of_nat n)) !! j
            = Some (part (Z.of_nat i) (Z.of_nat j))) as Hlookup
      by (by rewrite list_lookup_fmap, range_lookup_lt).
    pose proof (concat_substring "" 3 _ j _ Hlen Hlookup) as Hsub.
    replace (j * (3 + String.length ""))%nat with (3 * j)%nat in Hsub
      by (simpl; lia).
    exact Hsub.
Qed.

Lemma grid_get_lookup (g : Grid) i j row c :
  g !! i = Some row -> row !! j = Some c ->
  grid_get g (Z.of_nat i) (Z.of_nat j) = Some c.
Proof.
  intros Hrow Hc. unfold grid_get.
  rewrite py_index_nonneg, Nat2Z.id, Hrow by lia.
  by rewrite py_index_nonneg, Nat2Z.id by lia.
Qed.

(** The lines of the plain rendering, cell by cell. *)
Lemma render_lines n (g : Grid) :
  letter_grid n g ->
  exists lines,
    render_grid g = Ok (String.concat newline lines) /\
    length lines = n /\
    lines_of_width (2 * n - 1) lines (String.concat newline lines) /\
    forall i j line,
      lines !! i = Some line -> (j < n)%nat ->
      (exists x,
         grid_get g (Z.of_nat i) (Z.of_nat j) = Some (Some x) /\
         substring (2 * j) 1 line = x) /\
      ((S j < n)%nat -> substring (2 * j + 1) 1 line = " ").
Proof.
  intros [Hlen Hrows]. unfold render_grid.
  set (letter := fun c : cell => match c with Some x => x | None => EmptyString end).
  set (row_line := fun row : list cell => String.concat " " (map letter row)).
  assert (map_each join_row g = Ok (map row_line g)) as ->.
  { apply map_each_ok. eapply Forall_impl; [exact Hrows |].
    intros row [_ Hcells]. unfold join_row.
    rewrite (map_each_ok _ letter); [done |].
    eapply Forall_impl; [exact Hcells |]. by intros c (x & -> & _). }
  assert (forall row, row ∈ g ->
            length (map letter row) = n /\
            Forall (fun q => String.length q = 1%nat) (map letter row) /\
            Forall (fun q => occurrences newline_char q = 0%nat) (map letter row))
    as Hitems.
  { intros row Hrow. rewrite Forall_forall in Hrows.
    destruct (Hrows row Hrow) as [Hl Hcells]. split; [by rewrite length_map |].
    split; apply Forall_fmap; (eapply Forall_impl; [exact Hcells |]);
      intros c (x & -> & Hx); simpl;
      [by destruct (letter_shape x Hx) | by apply letter_line_free]. }
  simpl. exists (map row_line g).
  split; [done |]. split; [by rewrite length_map |]. split.
  - apply lines_of_width_intro, Forall_fmap, Forall_forall. intros row Hrow.
    destruct (Hitems row Hrow) as (Hl & Hone & Hfree). unfold row_line. split.
    + rewrite (concat_sep_length " " 1 _ Hone), Hl. simpl. lia.
    + by apply concat_sep_free.
  - intros i j line Hline Hj.
    rewrite list_lookup_fmap in Hline.
    destruct (g !! i) as [row |] eqn:Hrow; [| done]. simpl in Hline. simplify_eq.
    destruct (Hitems row) as (Hl & Hone & _); [by eapply list_elem_of_lookup_2 |].
    rewrite length_map in Hl.
    destruct (lookup_lt_is_Some_2 row j) as [c Hc]; [lia |].
    rewrite Forall_forall in Hrows.
    destruct (Hrows row) as [_ Hcells]; [by eapply list_elem_of_lookup_2 |].
    rewrite Forall_forall in Hcells.
    destruct (Hcells c) as (x & -> & _); [by eapply list_elem_of_lookup_2 |].
    unfold row_line. split.
    + exists x. split; [by eapply grid_get_lookup |].
      assert (map letter row !! j = Some x) as Hlookup
        by (by rewrite list_lookup_fmap, Hc).
      pose proof (concat_substring " " 1 _ j _ Hone Hlookup) as Hsub.
      replace (j * (1 + String.length " "))%nat with (2 * j)%nat in Hsub
        by (simpl; lia).
      exact Hsub.
    + intros Hnext.
      assert (S j < length (map letter row))%nat as Hlt
        by (rewrite length_map; lia).
      pose proof (concat_substring_sep " " 1 _ j Hone Hlt) as Hsub.
      replace (j * (1 + String.length " ") + 1)%nat with (2 * j + 1)%nat in Hsub
        by (simpl; lia).
      exact Hsub.
Qed.

(** X18. On a grid of [n] by [n] letters [render_highlighted_grid]
    returns, whatever the matches, [n] lines of [3 * n] characters joined by
    newlines. Every cell takes three characters, so that highlighting never
    shifts a column: the three characters from column [3 * j] of line [i]
    are the letter of cell [(i, j)] between brackets when the cell belongs to
    some match, and between spaces when it does not. The text opens and
    closes one bracket for each cell of the grid that belongs to some match,
    and for no other (cells of matches outside the grid are ignored, a cell
    in two matches is bracketed once). *)
Theorem render_highlighted_grid_layout n (g : Grid) (ms : list Match) :
  letter_grid n g ->
  exists out lines,
    render_highlighted_grid g ms = Ok out /\
    length lines = n /\
    lines_of_width (3 * n) lines out /\
    (forall i j line,
       lines !! i = Some line -> (j < n)%nat ->
       exists x,
         grid_get g (Z.of_nat i) (Z.of_nat j) = Some (Some x) /\
         substring (3 * j) 3 line
         = if bool_decide ((Z.of_nat i, Z.of_nat j) ∈ highlight_cells ms)
           then String.append "[" (String.append x "]")
           else String.append " " (String.append x " ")) /\
    String.length out = (n * (3 * n) + (n - 1))%nat /\
    occurrences "["%char out = length (highlighted_in n ms) /\
    occurrences "]"%char out = length (highlighted_in n ms).
Proof.
  intros Hg.
  destruct (highlight_lines n g ms Hg) as (lines & Hout & Hlen & Hlines & Hcells).
  destruct (highlight_layout n g ms Hg) as (out & Hout' & Hcount).
  rewrite Hout in Hout'. simplify_eq. eauto 10.
Qed.

(** X19. On a grid of [n] by [n] letters [render_grid] returns [n] lines
    of [2 * n - 1] characters joined by newlines: line [i] has the letter of
    cell [(i, j)] at column [2 * j] and a single space between two
    neighbouring letters, none before the first and none after the last. *)
Theorem render_grid_layout n (g : Grid) :
  letter_grid n g ->
  exists out lines,
    render_grid g = Ok out /\
    length lines = n /\
    lines_of_width (2 * n - 1) lines out /\
    forall i j line,
      lines !! i = Some line -> (j < n)%nat ->
      (exists x,
         grid_get g (Z.of_nat i) (Z.of_nat j) = Some (Some x) /\
         substring (2 * j) 1 line = x) /\
      ((S j < n)%nat -> substring (2 * j + 1) 1 line = " ").
Proof.
  intros Hg. destruct (render_lines n g Hg) as (lines & Hout & Hrest). eauto.
Qed.

End RendererFacts.

(** ** Rendering a generated puzzle *)

Section RenderGenerated.
Context `{RT : PyRuntime}.

Lemma list_prod_NoDup (l1 l2 : list Z) :
  NoDup l1 -> NoDup l2 -> NoDup (list_prod l1 l2).
Proof.
  intros H1 H2. induction H1 as [| x l1 Hx _ IH]; simpl; [constructor |].
  apply NoDup_app. split; [| split; [| done]].
  - apply (NoDup_fmap_2 (pair x)). done.
  - intros [a b] Hab Hin.
    apply list_elem_of_In, in_map_iff in Hab as (y & Heq & _). simplify_eq.
    apply list_elem_of_In, in_prod_iff in Hin as [Hin _].
    by apply list_elem_of_In in Hin.
Qed.

Lemma all_coords_NoDup size : NoDup (all_coords size).
Proof.
  assert (NoDup (range size)) as Hrange.
  { unfold range. apply (NoDup_fmap_2 Z.of_nat), NoDup_seq. }
  by apply list_prod_NoDup.
Qed.

Lemma highlighted_all n ms :
  NoDup (highlight_cells ms) ->
  (forall x, x ∈ highlight_cells ms -> x ∈ all_coords (Z.of_nat n)) ->
  length (highlighted_in n ms) = length (highlight_cells ms).
Proof.
  intros Hnd Hin. apply Permutation_length, NoDup_Permutation; [| done |].
  - apply NoDup_filter, all_coords_NoDup.
  - intros x. unfold highlighted_in. rewrite list_elem_of_filter.
    split; [by intros [? _] | intros Hx; split; [done | by apply Hin]].
Qed.

(** Without overlap the matches of a returned puzzle share no cell. *)
Lemma no_overlap_cells_NoDup self size req dist mode s p s' :
  generate_grid self size req dist false mode s = (Ok p, s') ->
  NoDup (concat (map cells (matches p))).
Proof.
  intros Hgen.
  destruct (generate_grid_ok _ _ _ _ _ _ _ _ _ Hgen)
    as (t & s0 & s1 & r & _ & Hattempt & Hscan & Hcount & Hp).
  destruct (attempt_placed _ _ _ _ _ _ _ _ _ Hattempt)
    as (ps & (Hwf & Hplaced & Hdisj) & Hlen).
  specialize (Hdisj eq_refl).
  destruct (scan_grid_ok _ _ _ Hscan) as [Hrlen Hrnd].
  assert (matches p = scan_matches r) as Hms by (rewrite Hp; done).
  rewrite <- Hms in Hrlen, Hrnd.
  assert (NoDup (map key ps)) as Hpnd.
  { apply placed_keys_NoDup; [done |].
    eapply Forall_impl; [exact Hplaced |].
    intros m (row & col & dr & dc & _ & _ & _ & _ & Hcells & _) Hnil.
    rewrite Hcells in Hnil. discriminate Hnil. }
  assert (map key ps ≡ₚ map key (matches p)) as Hperm.
  { apply submseteq_length_Permutation.
    - apply NoDup_submseteq; [done |]. intros k Hk.
      apply list_elem_of_In, in_map_iff in Hk as (m & <- & Hm).
      rewrite Hms. eapply scan_finds_placed; [| apply Hwf | exact Hscan].
      rewrite Forall_forall in Hplaced. apply Hplaced. by apply list_elem_of_In.
    - rewrite !length_map. lia. }
  rewrite <- concat_key_Permutation, <- (concat_Permutation _ _ Hperm),
    concat_key_Permutation. done.
Qed.

(** X20. The renderers never fail on a generated puzzle: for every
    puzzle [generate_grid] returns, [render_grid] returns [size] lines of
    [2 * size - 1] characters, and [render_highlighted_grid] on its grid and
    matches returns [size] lines of [3 * size] characters, joined by
    newlines; and when the puzzle was generated without overlap the
    highlighted rendering brackets exactly [4 * true_count] cells. *)
Theorem render_generated_puzzle self size req dist allow mode s p s' :
  generate_grid self size req dist allow mode s = (Ok p, s') ->
  (exists out lines,
     render_grid (grid p) = Ok out /\
     length lines = Z.to_nat size /\
     lines_of_width (2 * Z.to_nat size - 1) lines out) /\
  exists out lines,
    render_highlighted_grid (grid p) (matches p) = Ok out /\
    length lines = Z.to_nat size /\
    lines_of_width (3 * Z.to_nat size) lines out /\
    String.length out
      = (Z.to_nat size * (3 * Z.to_nat size) + (Z.to_nat size - 1))%nat /\
    (allow = false ->
     occurrences "["%char out = (4 * Z.to_nat (true_count p))%nat /\
     occurrences "]"%char out = (4 * Z.to_nat (true_count p))%nat).
Proof.
  intros Hgen.
  pose proof (generate_grid_shape _ _ _ _ _ _ _ _ _ Hgen) as Hgrid.
  destruct (generate_grid_ok _ _ _ _ _ _ _ _ _ Hgen)
    as (t & s0 & s1 & r & _ & _ & Hscan & Hcount & Hp).
  assert (matches p = scan_matches r) as Hms by (rewrite Hp; done).
  assert (true_count p = t) as Htc by (rewrite Hp; done).
  destruct (scan_grid_ok _ _ _ Hscan) as [Hrlen _].
  split.
  - destruct (render_lines _ (grid p) Hgrid) as (lines & Hout & Hlen & Hlines & _).
    eauto.
  - destruct (highlight_lines _ (grid p) (matches p) Hgrid)
      as (lines & Hout' & Hlines_len & Hlines & _).
    destruct (highlight_layout _ (grid p) (matches p) Hgrid)
      as (out & Hout & Hlen & Hopen & Hclose).
    rewrite Hout in Hout'. injection Hout' as ->.
    eexists _, lines. split; [done |]. split; [done |]. split; [done |].
    split; [done |]. intros ->.
    assert (length (highlighted_in (Z.to_nat size) (matches p))
            = (4 * Z.to_nat (true_count p))%nat) as Hcells.
    { pose proof (scan_sound _ _ _ Hscan) as Hsound. rewrite <- Hms in Hsound.
      assert (length (grid p) = Z.to_nat size) as Hsize by apply Hgrid.
      rewrite Hsize in Hsound.
      rewrite highlighted_all.
      - unfold highlight_cells.
        assert (forall ms : list Match,
                  Forall (reads_word (Z.of_nat (Z.to_nat size))
                            (_get_allowed_directions mode) (grid p)) ms ->
                  length (concat (map cells ms)) = (4 * length ms)%nat) as Hfour.
        { induction 1 as [| m ms (row & col & dr & dc & _ & _ & Hc & _) _ IH];
            [done |].
          simpl. rewrite length_app, IH, Hc, line_length. lia. }
        rewrite (Hfour _ Hsound), Htc, <- Hcount, Hrlen, Hms. lia.
      - by eapply no_overlap_cells_NoDup.
      - intros x Hx. apply elem_of_all_coords.
        apply list_elem_of_In, in_concat in Hx as (cs & Hcs & Hx).
        apply in_map_iff in Hcs as (m & <- & Hm).
        rewrite Forall_forall in Hsound.
        destruct (Hsound m) as (row & col & dr & dc & _ & _ & _ & Hin & _);
          [by apply list_elem_of_In |].
        rewrite Forall_forall in Hin. apply Hin. by apply list_elem_of_In. }
    by rewrite Hopen, Hclose, Hcells.
Qed.

End RenderGenerated.

(** ** The further properties at sample inputs *)

Section FurtherSamples.

Lemma letter_grid_letters_only n g : letter_grid n g -> letters_only g.
Proof.
  intros [_ Hrows] r c x Hr Hc Hget. unfold grid_get in Hget.
  rewrite py_index_nonneg in Hget by done.
  destruct (g !! Z.to_nat r) as [row |] eqn:Hrow; [| done].
  rewrite py_index_nonneg in Hget by done.
  rewrite Forall_lookup in Hrows. destruct (Hrows _ _ Hrow) as [_ Hcells].
  rewrite Forall_lookup in Hcells. destruct (Hcells _ _ Hget) as (y & Hy & Hin).
  by simplify_eq.
Qed.

Lemma two_rows_letter_grid : letter_grid 4 (grid two_rows_puzzle).
Proof.
  exact (generate_grid_shape (RT := digits_runtime) _ _ _ _ _ _ _ _ _ two_rows_run).
Qed.

Lemma two_rows_scan_horizontal :
  scan_grid (grid two_rows_puzzle) "horizontal"
  = Ok (mkScan 2 (matches two_rows_puzzle)).
Proof. vm_compute. reflexivity. Qed.

Lemma two_rows_scan_horiz_vert :
  scan_grid (grid two_rows_puzzle) "horiz_vert"
  = Ok (mkScan 2 (matches two_rows_puzzle)).
Proof. vm_compute. reflexivity. Qed.

Lemma two_rows_scan_all :
  scan_grid (grid two_rows_puzzle) "all" = Ok (mkScan 2 (matches two_rows_puzzle)).
Proof. vm_compute. reflexivity. Qed.

Lemma east_is_horizontal : ("E", (0, 1)) ∈ _get_allowed_directions "horizontal".
Proof. apply list_elem_of_here. Qed.

Lemma second_row_in_grid :
  Forall (fun x : coord => 0 <= x.1 < Z.of_nat (length (grid two_rows_puzzle)) /\
                           0 <= x.2 < Z.of_nat (length (grid two_rows_puzzle)))
    (line 1 0 0 1 word_letters).
Proof. rewrite word_letters_eq. unfold line. simpl. repeat constructor; simpl; lia. Qed.

Lemma second_row_reads :
  read_cells (grid two_rows_puzzle) (line 1 0 0 1 word_letters) = Some TARGET_WORD.
Proof. reflexivity. Qed.

Lemma generate_grid_letter_grid_witness :
  generate_grid (RT := digits_runtime) (mkEngine (Some 32)) 4 (Exact 2) "even" false
    "horizontal" 32 = (Ok two_rows_puzzle, 0) /\
  letter_grid (Z.to_nat 4) (grid two_rows_puzzle).
Proof.
  split; [exact two_rows_run |].
  exact (generate_grid_letter_grid (RT := digits_runtime) _ _ _ _ _ _ _ _ _
           two_rows_run).
Defined.

Lemma generate_grid_negative_count_witness :
  -1 < 0 /\
  exists s',
    generate_grid (RT := digits_runtime) (mkEngine None) 4 (Exact (-1)) "even" true
      "all" 0 = (Raise (RuntimeError capacity_message), s').
Proof.
  split; [lia |].
  apply (generate_grid_negative_count (RT := digits_runtime) (mkEngine None) 4 (-1)
           "even" true "all" 0). lia.
Defined.

Lemma generate_grid_too_small_witness :
  3 < 4 /\ 1 <= 1 /\
  exists s',
    generate_grid (RT := digits_runtime) (mkEngine None) 3 (Exact 1) "even" true
      "all" 5 = (Raise (RuntimeError capacity_message), s').
Proof.
  split; [lia |]. split; [lia |].
  apply (generate_grid_too_small (RT := digits_runtime) (mkEngine None) 3 1
           "even" true "all" 5); lia.
Defined.

Lemma generate_grid_no_overlap_capacity_witness :
  4 * 4 < 4 * 5 /\
  exists s',
    generate_grid (RT := digits_runtime) (mkEngine None) 4 (Exact 5) "even" false
      "all" 5 = (Raise (RuntimeError capacity_message), s').
Proof.
  split; [lia |].
  apply (generate_grid_no_overlap_capacity (RT := digits_runtime) (mkEngine None) 4 5
           "even" "all" 5). lia.
Defined.

Lemma generate_grid_empty_grid_witness :
  0 <= 0 /\
  generate_grid (RT := digits_runtime) (mkEngine None) 0 (Exact 0) "even" true "all" 7
    = (Ok (mkPuzzle [] 0 [] (mkMeta 0 "even" true "all" (seed (mkEngine None)))), 7).
Proof.
  split; [lia |].
  apply (generate_grid_empty_grid (RT := digits_runtime) (mkEngine None) 0
           "even" true "all" 7). lia.
Defined.

Lemma scan_grid_sound_witness :
  scan_grid (grid two_rows_puzzle) "horizontal"
    = Ok (mkScan 2 (matches two_rows_puzzle)) /\
  Forall (reads_word (Z.of_nat (length (grid two_rows_puzzle)))
            (_get_allowed_directions "horizontal") (grid two_rows_puzzle))
    (scan_matches (mkScan 2 (matches two_rows_puzzle))).
Proof.
  split; [exact two_rows_scan_horizontal |].
  exact (scan_grid_sound _ _ _ two_rows_scan_horizontal).
Defined.

Lemma scan_grid_complete_witness :
  (scan_grid (grid two_rows_puzzle) "horizontal"
     = Ok (mkScan 2 (matches two_rows_puzzle)) /\
   ("E", (0, 1)) ∈ _get_allowed_directions "horizontal" /\
   Forall (fun x : coord => 0 <= x.1 < Z.of_nat (length (grid two_rows_puzzle)) /\
                            0 <= x.2 < Z.of_nat (length (grid two_rows_puzzle)))
     (line 1 0 0 1 word_letters) /\
   read_cells (grid two_rows_puzzle) (line 1 0 0 1 word_letters) = Some TARGET_WORD) /\
  exists m,
    m ∈ scan_matches (mkScan 2 (matches two_rows_puzzle)) /\
    sorted (cells m) = sorted (line 1 0 0 1 word_letters).
Proof.
  split.
  - split; [exact two_rows_scan_horizontal |]. split; [exact east_is_horizontal |].
    split; [exact second_row_in_grid | exact second_row_reads].
  - exact (scan_grid_complete _ _ _ 1 0 "E" 0 1 two_rows_scan_horizontal
             east_is_horizontal second_row_in_grid second_row_reads).
Defined.

Lemma scan_grid_modes_monotone_witness :
  (scan_grid (grid two_rows_puzzle) "horizontal"
     = Ok (mkScan 2 (matches two_rows_puzzle)) /\
   scan_grid (grid two_rows_puzzle) "horiz_vert"
     = Ok (mkScan 2 (matches two_rows_puzzle)) /\
   scan_grid (grid two_rows_puzzle) "all"
     = Ok (mkScan 2 (matches two_rows_puzzle))) /\
  count (mkScan 2 (matches two_rows_puzzle))
    <= count (mkScan 2 (matches two_rows_puzzle))
    <= count (mkScan 2 (matches two_rows_puzzle)).
Proof.
  split.
  - split; [exact two_rows_scan_horizontal |].
    split; [exact two_rows_scan_horiz_vert | exact two_rows_scan_all].
  - exact (scan_grid_modes_monotone _ _ _ _ two_rows_scan_horizontal
             two_rows_scan_horiz_vert two_rows_scan_all).
Defined.

Lemma one_cell_scan : scan_grid [[Some "F"]] "all" = Ok (mkScan 0 []).
Proof. reflexivity. Qed.

Lemma scan_grid_small_witness :
  ((length [[Some "F"]] < 4)%nat /\ scan_grid [[Some "F"]] "all" = Ok (mkScan 0 [])) /\
  (scan_matches (mkScan 0 []) = [] /\ count (mkScan 0 []) = 0).
Proof.
  split.
  - split; [simpl; lia | exact one_cell_scan].
  - apply (scan_grid_small [[Some "F"]] "all" (mkScan 0 []));
      [simpl; lia | exact one_cell_scan].
Defined.

Lemma one_empty_cell_wf : wf_grid 1 [[None]].
Proof. split; [done |]. by repeat constructor. Qed.

Lemma scan_grid_empty_cell_witness :
  (wf_grid 1 [[None]] /\ 0 <= 0 < Z.of_nat 1 /\ 0 <= 0 < Z.of_nat 1 /\
   grid_get [[None]] 0 0 = Some None) /\
  scan_grid [[None]] "all" = Raise TypeError.
Proof.
  split.
  - split; [exact one_empty_cell_wf |]. split; [lia |]. split; [lia | reflexivity].
  - apply (scan_grid_empty_cell 1%nat [[None]] "all" 0 0);
      [exact one_empty_cell_wf | lia | lia | reflexivity].
Defined.

Lemma scan_grid_reading_once_witness :
  (letters_only (grid two_rows_puzzle) /\
   scan_grid (grid two_rows_puzzle) "horizontal"
     = Ok (mkScan 2 (matches two_rows_puzzle)) /\
   ("E", (0, 1)) ∈ _get_allowed_directions "horizontal" /\
   Forall (fun x : coord => 0 <= x.1 < Z.of_nat (length (grid two_rows_puzzle)) /\
                            0 <= x.2 < Z.of_nat (length (grid two_rows_puzzle)))
     (line 1 0 0 1 word_letters) /\
   read_cells (grid two_rows_puzzle) (line 1 0 0 1 word_letters) = Some TARGET_WORD) /\
  (mkMatch (1, 0) "E" (line 1 0 0 1 word_letters)
     ∈ scan_matches (mkScan 2 (matches two_rows_puzzle)) /\
   forall m, m ∈ scan_matches (mkScan 2 (matches two_rows_puzzle)) ->
             sorted (cells m) = sorted (line 1 0 0 1 word_letters) ->
             m = mkMatch (1, 0) "E" (line 1 0 0 1 word_letters)).
Proof.
  split.
  - split; [exact (letter_grid_letters_only _ _ two_rows_letter_grid) |].
    split; [exact two_rows_scan_horizontal |]. split; [exact east_is_horizontal |].
    split; [exact second_row_in_grid | exact second_row_reads].
  - exact (scan_grid_reading_once _ _ _ 1 0 "E" 0 1
             (letter_grid_letters_only _ _ two_rows_letter_grid)
             two_rows_scan_horizontal east_is_horizontal second_row_in_grid
             second_row_reads).
Defined.

Lemma empty_four_wf : wf_grid (Z.to_nat 4) (_create_empty_grid 4).
Proof. split; [done |]. by repeat constructor. Qed.

Lemma first_word_placed :
  _place_word (RT := digits_runtime) (_create_empty_grid 4) 4
    (_get_allowed_directions "horizontal") false [] 0
  = (Ok (true,
         ([ [Some "F"; Some "U"; Some "C"; Some "K"];
            [None; None; None; None];
            [None; None; None; None];
            [None; None; None; None] ],
          [mkMatch (0, 0) "E" [(0, 0); (0, 1); (0, 2); (0, 3)]])), 0).
Proof. vm_compute. reflexivity. Qed.

Lemma place_word_contract_witness :
  (wf_grid (Z.to_nat 4) (_create_empty_grid 4) /\
   _place_word (RT := digits_runtime) (_create_empty_grid 4) 4
     (_get_allowed_directions "horizontal") false [] 0
   = (Ok (true,
          ([ [Some "F"; Some "U"; Some "C"; Some "K"];
             [None; None; None; None];
             [None; None; None; None];
             [None; None; None; None] ],
           [mkMatch (0, 0) "E" [(0, 0); (0, 1); (0, 2); (0, 3)]])), 0)) /\
  exists row col dir_name dr dc,
    (dir_name, (dr, dc)) ∈ _get_allowed_directions "horizontal" /\
    [mkMatch (0, 0) "E" [(0, 0); (0, 1); (0, 2); (0, 3)]]
      = [] ++ [mkMatch (row, col) dir_name (line row col dr dc word_letters)] /\
    Forall (fun il : Z * string =>
              0 <= row + dr * il.1 < 4 /\ 0 <= col + dc * il.1 < 4 /\
              grid_get [ [Some "F"; Some "U"; Some "C"; Some "K"];
                         [None; None; None; None];
                         [None; None; None; None];
                         [None; None; None; None] ]
                (row + dr * il.1) (col + dc * il.1) = Some (Some il.2) /\
              (grid_get (_create_empty_grid 4) (row + dr * il.1) (col + dc * il.1)
                 = Some None \/
               false = true /\
               grid_get (_create_empty_grid 4) (row + dr * il.1) (col + dc * il.1)
                 = Some (Some il.2)))
           word_letters /\
    forall r c, 0 <= r -> 0 <= c -> (r, c) ∉ line row col dr dc word_letters ->
                grid_get [ [Some "F"; Some "U"; Some "C"; Some "K"];
                           [None; None; None; None];
                           [None; None; None; None];
                           [None; None; None; None] ] r c
                = grid_get (_create_empty_grid 4) r c.
Proof.
  split; [split; [exact empty_four_wf | exact first_word_placed] |].
  exact (place_word_contract (RT := digits_runtime) false 4 "horizontal" _ _ _ _ _ _ _
           empty_four_wf first_word_placed).
Defined.

Lemma exact_two_from_cli :
  generate_puzzle (RT := digits_runtime)
    (mkArgs 4 (Some 2) 0 5 false None true "horizontal") 32
  = (Ok (mkPuzzle (grid two_rows_puzzle) 2 (matches two_rows_puzzle)
           (mkMeta 4 "even" false "horizontal" None)), 0).
Proof. vm_compute. reflexivity. Qed.

Lemma generate_puzzle_count_witness :
  generate_puzzle (RT := digits_runtime)
    (mkArgs 4 (Some 2) 0 5 false None true "horizontal") 32
  = (Ok (mkPuzzle (grid two_rows_puzzle) 2 (matches two_rows_puzzle)
           (mkMeta 4 "even" false "horizontal" None)), 0) /\
  (true_count (mkPuzzle (grid two_rows_puzzle) 2 (matches two_rows_puzzle)
                 (mkMeta 4 "even" false "horizontal" None)) = 2 /\
   false = negb true /\
   "even" = "even" /\
   "horizontal" = "horizontal" /\
   letter_grid (Z.to_nat 4) (grid two_rows_puzzle)).
Proof.
  split; [exact exact_two_from_cli |].
  exact (generate_puzzle_count (RT := digits_runtime) _ _ _ _ exact_two_from_cli).
Defined.

Lemma generate_puzzle_inverted_range_witness :
  (@None Z = None /\ 5 < 6) /\
  exists s',
    generate_puzzle (RT := digits_runtime)
      (mkArgs 10 None 6 5 false None false "all") 3
    = (Raise (ValueError "empty range for randrange()"), s').
Proof.
  split; [split; [reflexivity | lia] |].
  apply (generate_puzzle_inverted_range (RT := digits_runtime)
           (mkArgs 10 None 6 5 false None false "all") 3); [reflexivity | simpl; lia].
Defined.

Lemma render_highlighted_grid_layout_witness :
  letter_grid 4 (grid two_rows_puzzle) /\
  exists out lines,
    render_highlighted_grid (grid two_rows_puzzle) (matches two_rows_puzzle) = Ok out /\
    length lines = 4%nat /\
    lines_of_width (3 * 4) lines out /\
    (forall i j line,
       lines !! i = Some line -> (j < 4)%nat ->
       exists x,
         grid_get (grid two_rows_puzzle) (Z.of_nat i) (Z.of_nat j) = Some (Some x) /\
         substring (3 * j) 3 line
         = if bool_decide ((Z.of_nat i, Z.of_nat j)
                             ∈ highlight_cells (matches two_rows_puzzle))
           then String.append "[" (String.append x "]")
           else String.append " " (String.append x " ")) /\
    String.length out = (4 * (3 * 4) + (4 - 1))%nat /\
    occurrences "["%char out = length (highlighted_in 4 (matches two_rows_puzzle)) /\
    occurrences "]"%char out = length (highlighted_in 4 (matches two_rows_puzzle)).
Proof.
  split; [exact two_rows_letter_grid |].
  exact (render_highlighted_grid_layout 4%nat _ _ two_rows_letter_grid).
Defined.

Lemma render_grid_layout_witness :
  letter_grid 4 (grid two_rows_puzzle) /\
  exists out lines,
    render_grid (grid two_rows_puzzle) = Ok out /\
    length lines = 4%nat /\
    lines_of_width (2 * 4 - 1) lines out /\
    forall i j line,
      lines !! i = Some line -> (j < 4)%nat ->
      (exists x,
         grid_get (grid two_rows_puzzle) (Z.of_nat i) (Z.of_nat j) = Some (Some x) /\
         substring (2 * j) 1 line = x) /\
      ((S j < 4)%nat -> substring (2 * j + 1) 1 line = " ").
Proof.
  split; [exact two_rows_letter_grid |].
  exact (render_grid_layout 4%nat _ two_rows_letter_grid).
Defined.

Lemma render_generated_puzzle_witness :
  generate_grid (RT := digits_runtime) (mkEngine (Some 32)) 4 (Exact 2) "even" false
    "horizontal" 32 = (Ok two_rows_puzzle, 0) /\
  ((exists out lines,
      render_grid (grid two_rows_puzzle) = Ok out /\
      length lines = Z.to_nat 4 /\
      lines_of_width (2 * Z.to_nat 4 - 1) lines out) /\
   exists out lines,
     render_highlighted_grid (grid two_rows_puzzle) (matches two_rows_puzzle)
       = Ok out /\
     length lines = Z.to_nat 4 /\
     lines_of_width (3 * Z.to_nat 4) lines out /\
     String.length out
       = (Z.to_nat 4 * (3 * Z.to_nat 4) + (Z.to_nat 4 - 1))%nat /\
     (false = false ->
      occurrences "["%char out = (4 * Z.to_nat (true_count two_rows_puzzle))%nat /\
      occurrences "]"%char out = (4 * Z.to_nat (true_count two_rows_puzzle))%nat)).
Proof.
  split; [exact two_rows_run |].
  exact (render_generated_puzzle (RT := digits_runtime) _ _ _ _ _ _ _ _ _ two_rows_run).
Defined.

End FurtherSamples.

(** ** The fill stage and the canonical key *)

Section FillAndKey.
Context `{RT : PyRuntime}.

(** X21. On a [size] by [size] grid [_fill_grid] always returns: the
    grid keeps its shape, every letter already placed stays as it is, every
    empty cell receives a letter of the alphabet, and no cell of the grid is
    left empty. *)
Theorem fill_grid_contract size dist (g : Grid) s :
  wf_grid (Z.to_nat size) g ->
  exists g' s',
    _fill_grid g size dist s = (Ok g', s') /\
    wf_grid (Z.to_nat size) g' /\ grid_fills g g' /\
    forall r c, 0 <= r < size -> 0 <= c < size ->
                exists x, grid_get g' r c = Some (Some x).
Proof. apply fill_grid_total. Qed.

End FillAndKey.

Section KeyFacts.

Lemma fill_grid_contract_witness :
  wf_grid (Z.to_nat 4) (_create_empty_grid 4) /\
  exists g' s',
    _fill_grid (RT := digits_runtime) (_create_empty_grid 4) 4 "weighted" 9
      = (Ok g', s') /\
    wf_grid (Z.to_nat 4) g' /\ grid_fills (_create_empty_grid 4) g' /\
    forall r c, 0 <= r < 4 -> 0 <= c < 4 ->
                exists x, grid_get g' r c = Some (Some x).
Proof.
  split; [exact empty_four_wf |].
  exact (fill_grid_contract (RT := digits_runtime) 4 "weighted" _ 9 empty_four_wf).
Defined.

#[local] Instance coord_le_total : Total coord_le.
Proof. intros [a1 a2] [b1 b2]. unfold coord_le. simpl. lia. Qed.

#[local] Instance coord_le_trans : Transitive coord_le.
Proof. intros [a1 a2] [b1 b2] [c1 c2]. unfold coord_le. simpl. lia. Qed.

#[local] Instance coord_le_antisymm : AntiSymm (=) coord_le.
Proof.
  intros [a1 a2] [b1 b2]. unfold coord_le. simpl. intros H1 H2.
  f_equal; lia.
Qed.

(** X22. [_normalize_match] is a canonical form of the set of cells: two
    lists of cells get the same key exactly when one is a reordering of the
    other, so a walk and its reverse walk over the same cells always share
    their key. *)
Theorem normalize_match_canonical (cs1 cs2 : list coord) :
  _normalize_match cs1 = _normalize_match cs2 <-> cs1 ≡ₚ cs2.
Proof.
  unfold _normalize_match, sorted. split.
  - intros Heq.
    rewrite <- (merge_sort_Permutation coord_le cs1),
      <- (merge_sort_Permutation coord_le cs2). by rewrite Heq.
  - intros Hperm. apply (Sorted_unique coord_le).
    + apply Sorted_merge_sort, _.
    + apply Sorted_merge_sort, _.
    + by rewrite !merge_sort_Permutation.
Qed.

End KeyFacts.
